(** * Property finder: the search engine and the price predictor

    A shallow embedding of [property.cpp], [search_engine.cpp] and
    [ml_predictor.cpp].

    - A C++ [double] is a binary64 value: Rocq's primitive [float], whose
      operations are the IEEE-754 ones (round to nearest, ties to even).
    - A C++ [int] is a [Z]; the listings the program handles stay far from
      the 32-bit bounds, and no operation below relies on wrap-around.
    - [std::string] is [string], [std::vector<T>] is [list T]; a
      [std::map<std::string, T>] that is read and written by key is a
      [gmap string T], and the criteria map, which [matchesFilter] walks
      in key order, is the list of its entries in that order.
    - A member function that updates the object takes the object and
      returns the updated one next to its result. *)

From Stdlib Require Import ZArith List String Ascii Floats Permutation Sorted Lia Bool.
From stdpp Require Import gmap strings list fin_maps.

Set Warnings "-inexact-float".

(** ** C++ scalar conversions and <algorithm> helpers *)

Module Cpp.

(** [static_cast<double>(int)] and the implicit conversion of an [int]
    operand of a [double] operation. Exact for every 32-bit value. *)
Definition double_of_int (z : Z) : float :=
  if (z <? 0)%Z then PrimFloat.opp (of_uint63 (Uint63.of_Z (- z)))
  else of_uint63 (Uint63.of_Z z).

(** [static_cast<double>(size_t)] and the implicit conversion of a
    [size_t] operand of a [double] operation. *)
Definition double_of_size (n : nat) : float :=
  of_uint63 (Uint63.of_Z (Z.of_nat n)).

(** [static_cast<int>(size_t)], for sizes below 2^31. *)
Definition int_of_size (n : nat) : Z := Z.of_nat n.

(** [std::max(a, b)] is [(a < b) ? b : a]. *)
Definition std_max (a b : float) : float :=
  if PrimFloat.ltb a b then b else a.

(** [std::min(a, b)] is [(b < a) ? b : a]. *)
Definition std_min (a b : float) : float :=
  if PrimFloat.ltb b a then b else a.

(** [std::pow(x, 2)]: the square. *)
Definition pow2 (x : float) : float := PrimFloat.mul x x.

(** [v[i]] on a [std::vector<double>]. Every index the program uses is in
    range; out of range the model reads [0.0]. *)
Definition vec_at (v : list float) (i : nat) : float := nth i v 0%float.

(** [x != x]: the value is a NaN. *)
Definition is_nan (x : float) : bool := negb (PrimFloat.eqb x x).


(** *** <string>: [std::stoi], [std::stod] *)

Section Text.
Local Open Scope Z_scope.

Definition code (c : ascii) : Z := Z.of_nat (nat_of_ascii c).
Definition char_of (n : Z) : ascii := ascii_of_nat (Z.to_nat n).

Definition isspace (c : ascii) : bool :=
  (code c =? 32) || ((9 <=? code c) && (code c <=? 13)).

Definition digit_val (c : ascii) : option Z :=
  if (48 <=? code c) && (code c <=? 57) then Some (code c - 48) else None.

Definition hex_val (c : ascii) : option Z :=
  if (48 <=? code c) && (code c <=? 57) then Some (code c - 48)
  else if (97 <=? code c) && (code c <=? 102) then Some (code c - 87)
  else if (65 <=? code c) && (code c <=? 70) then Some (code c - 55)
  else None.

Definition tolower (c : ascii) : ascii :=
  if (65 <=? code c) && (code c <=? 90) then char_of (code c + 32) else c.

Fixpoint skip_spaces (s : string) : string :=
  match s with
  | String c rest => if isspace c then skip_spaces rest else s
  | EmptyString => s
  end.

Definition read_sign (s : string) : bool * string :=
  match s with
  | String "-" rest => (true, rest)
  | String "+" rest => (false, rest)
  | _ => (false, s)
  end.

(** The longest run of digits in base [base] at the head of [s], read
    on top of [acc]: the number, how many digits, and what follows. *)
Fixpoint read_digits (val : ascii -> option Z) (base : Z) (s : string) (acc : Z) (count : nat)
  : Z * nat * string :=
  match s with
  | String c rest =>
      match val c with
      | Some d => read_digits val base rest (base * acc + d) (S count)
      | None => (acc, count, s)
      end
  | EmptyString => (acc, count, s)
  end.

(** [s] starts with [prefix], letter case ignored ([prefix] in lower case). *)
Fixpoint starts_with_ci (prefix s : string) : bool :=
  match prefix, s with
  | EmptyString, _ => true
  | String p prefix', String c s' => Ascii.eqb p (tolower c) && starts_with_ci prefix' s'
  | String _ _, EmptyString => false
  end.

Definition INT_MIN : Z := - 2 ^ 31.
Definition INT_MAX : Z := 2 ^ 31 - 1.

(** [std::stoi(str)]: [None] when it throws ([std::invalid_argument]
    without a digit, [std::out_of_range] outside [int]). *)
Definition stoi (str : string) : option Z :=
  let '(negative, s) := read_sign (skip_spaces str) in
  let '(n, count, _) := read_digits digit_val 10 s 0 0 in
  if (count =? 0)%nat then None
  else
    let v := if negative then - n else n in
    if (INT_MIN <=? v) && (v <=? INT_MAX) then Some v else None.

(** The binary64 value nearest to [num / den] (ties to even), for
    positive [num] and [den]; [None] when [strtod] reports [ERANGE]:
    the result overflows, or it is below the normal range and inexact. *)
Definition nearest_double (negative : bool) (num den : Z) : option float :=
  match SFdiv prec emax (S754_finite negative (Z.to_pos num) 0)
                        (S754_finite false (Z.to_pos den) 0) with
  | S754_finite s m e =>
      let exact :=
        if 0 <=? e then (Z.pos m * 2 ^ e * den =? num)
        else (Z.pos m * den =? num * 2 ^ (- e)) in
      let subnormal := Z.pos (digits2_pos m) <? prec in
      if subnormal && negb exact then None
      else Some (SF2Prim (S754_finite s m e))
  | _ => None
  end.

Definition signed_zero (negative : bool) : float :=
  if negative then (-0)%float else 0%float.

Definition scaled (negative : bool) (n base k : Z) : option float :=
  if n =? 0 then Some (signed_zero negative)
  else if 0 <=? k then nearest_double negative (n * base ^ k) 1
  else nearest_double negative n (base ^ (- k)).

(** The optional exponent part: a marker, an optional sign and at least
    one decimal digit; [0] when there is none. *)
Definition read_exponent (marker : ascii) (s : string) : Z :=
  match s with
  | String c rest =>
      if Ascii.eqb (tolower c) marker then
        let '(negative, s') := read_sign rest in
        let '(n, count, _) := read_digits digit_val 10 s' 0 0 in
        if (count =? 0)%nat then 0 else if negative then - n else n
      else 0
  | EmptyString => 0
  end.

(** The digits of a literal in base [base]: an integer part, an
    optional point and fraction, an optional exponent. [None] without
    any digit. *)
Definition read_number (val : ascii -> option Z) (base : Z) (marker : ascii)
  (digit_weight : Z) (negative : bool) (s : string) : option (option float) :=
  let '(n1, c1, rest1) := read_digits val base s 0 0 in
  let '(n, c2, rest2) :=
    match rest1 with
    | String "." rest => read_digits val base rest n1 0
    | _ => (n1, 0%nat, rest1)
    end in
  if (c1 + c2 =? 0)%nat then None
  else
    let k := read_exponent marker rest2 in
    Some (if Z.eqb base 10 then scaled negative n 10 (k - Z.of_nat c2)
          else scaled negative n 2 (k - digit_weight * Z.of_nat c2)).

(** [std::stod(str)]: [None] when it throws ([std::invalid_argument]
    without a number, [std::out_of_range] on [ERANGE]). What follows the
    number is ignored. *)
Definition stod (str : string) : option float :=
  let '(negative, s) := read_sign (skip_spaces str) in
  if starts_with_ci "inf" s then
    Some (if negative then neg_infinity else infinity)
  else if starts_with_ci "nan" s then Some nan
  else
    let hex :=
      match s with
      | String "0" (String x rest) =>
          if Ascii.eqb (tolower x) "x"
          then read_number hex_val 16 "p" 4 negative rest else None
      | _ => None
      end in
    match hex with
    | Some r => r
    | None =>
        match read_number digit_val 10 "e" 0 negative s with
        | Some r => r
        | None => None
        end
    end.


(** *** [operator<<(std::ostream &, double)]

    A stream in its initial state writes a [double] as [printf("%g")]
    does with precision 6: six significant decimal digits, rounded to
    nearest with ties to even; fixed notation when the decimal exponent
    [X] has [-4 <= X < 6] and scientific notation otherwise; trailing
    zeros of the fraction removed. *)

(** [10^X <= num / den]. *)
Definition pow10_le (X num den : Z) : bool :=
  if 0 <=? X then (10 ^ X * den <=? num) else (den <=? num * 10 ^ (- X)).

(** The largest [X], from [X] downwards, with [10^X <= num / den]. *)
Fixpoint floor_log10_from (fuel : nat) (X num den : Z) : Z :=
  match fuel with
  | O => X
  | S fuel' =>
      if pow10_le X num den then X else floor_log10_from fuel' (X - 1) num den
  end.

(** [num / den] rounded to an integer, ties to even. *)
Definition round_half_even (num den : Z) : Z :=
  let q := num / den in
  let r := num mod den in
  match (2 * r ?= den) with
  | Lt => q
  | Gt => q + 1
  | Eq => if Z.even q then q else q + 1
  end.

(** The six significant digits [D] and the decimal exponent [X] of
    [num / den]: [num / den] is about [D * 10^(X - 5)]. *)
Definition six_digits (num den : Z) : Z * Z :=
  let X0 := floor_log10_from 700 308 num den in
  let D0 :=
    if X0 <=? 5 then round_half_even (num * 10 ^ (5 - X0)) den
    else round_half_even num (den * 10 ^ (X0 - 5)) in
  if D0 =? 10 ^ 6 then (10 ^ 5, X0 + 1) else (D0, X0).

Definition digit_char (d : Z) : ascii := char_of (48 + d).

Definition digits_of (D : Z) : list Z :=
  map (fun i => (D / 10 ^ i) mod 10) [5; 4; 3; 2; 1; 0].

Fixpoint string_of_digits (ds : list Z) : string :=
  match ds with
  | [] => EmptyString
  | d :: ds' => String (digit_char d) (string_of_digits ds')
  end.

Fixpoint drop_leading_zeros (ds : list Z) : list Z :=
  match ds with
  | d :: ds' => if d =? 0 then drop_leading_zeros ds' else ds
  | [] => []
  end.

Definition strip_trailing_zeros (ds : list Z) : list Z :=
  rev (drop_leading_zeros (rev ds)).

(** The fraction after the point, or nothing when no digit is left. *)
Definition fraction (ds : list Z) : string :=
  match strip_trailing_zeros ds with
  | [] => EmptyString
  | ds' => String "." (string_of_digits ds')
  end.

(** The exponent field: a sign and at least two digits. *)
Definition exponent_field (X : Z) : string :=
  let a := Z.abs X in
  String (if X <? 0 then "-"%char else "+"%char)
    (string_of_digits
       (if a <? 100 then [a / 10; a mod 10] else [a / 100; (a / 10) mod 10; a mod 10])).

Definition format_g6 (num den : Z) : string :=
  let '(D, X) := six_digits num den in
  let ds := digits_of D in
  if (-4 <=? X) && (X <? 6) then
    if 0 <=? X then
      string_of_digits (firstn (Z.to_nat (X + 1)) ds)
        ++ fraction (skipn (Z.to_nat (X + 1)) ds)
    else
      String "0" (fraction (repeat 0 (Z.to_nat (- X - 1)) ++ ds))
  else
    string_of_digits (firstn 1 ds) ++ fraction (skipn 1 ds)
      ++ String "e" (exponent_field X).

Definition sign_text (negative : bool) : string :=
  if negative then "-" else EmptyString.

(** The text [os << x] writes. A NaN is written without its sign bit,
    which binary64 values here do not carry. *)
Definition format_double (x : float) : string :=
  match Prim2SF x with
  | S754_nan => "nan"
  | S754_infinity s => sign_text s ++ "inf"
  | S754_zero s => sign_text s ++ "0"
  | S754_finite s m e =>
      sign_text s ++
        (if 0 <=? e then format_g6 (Z.pos m * 2 ^ e) 1
         else format_g6 (Z.pos m) (2 ^ (- e)))
  end.

Definition endl : string := String (char_of 10) EmptyString.

(** [std::getline(file, line)] on what is left of the file: [None] when
    nothing is left, else the text up to the first newline and what
    follows that newline. *)
Fixpoint read_line (s : string) : string * string :=
  match s with
  | EmptyString => (EmptyString, EmptyString)
  | String c rest =>
      if Ascii.eqb c (char_of 10) then (EmptyString, rest)
      else let '(line, rest') := read_line rest in (String c line, rest')
  end.

Definition getline (s : string) : option (string * string) :=
  match s with
  | EmptyString => None
  | _ => Some (read_line s)
  end.


End Text.

(** *** <cmath>: the functions that binary64 arithmetic does not fix

    [std::sin], [std::cos] and [std::atan2] are not correctly rounded:
    what they return depends on the C library. The embedding takes them
    as a parameter. *)

Class Libm := {
  sin : float -> float;
  cos : float -> float;
  atan2 : float -> float -> float
}.

(** *** <string>: [find], and [operator>>] on a string stream *)

(** [haystack.find(needle)], counted from [pos]: where the first
    occurrence starts; [None] is [npos]. *)
Fixpoint find_from (pos : nat) (haystack needle : string) : option nat :=
  if String.prefix needle haystack then Some pos
  else
    match haystack with
    | EmptyString => None
    | String _ rest => find_from (S pos) rest needle
    end.

Definition find (haystack needle : string) : option nat := find_from 0 haystack needle.

(** The loop [while (iss >> token) tokens.push_back(token)]: the
    maximal runs of characters that are not white space. [token] holds
    the characters of the run that is being read. *)
Fixpoint extract_tokens (s token : string) : list string :=
  match s with
  | EmptyString => if String.eqb token EmptyString then [] else [token]
  | String c rest =>
      if isspace c then
        if String.eqb token EmptyString then extract_tokens rest EmptyString
        else token :: extract_tokens rest EmptyString
      else extract_tokens rest (token ++ String c EmptyString)
  end.

(** [std::transform(s.begin(), s.end(), s.begin(), ::tolower)]. *)
Fixpoint to_lower (s : string) : string :=
  match s with
  | EmptyString => EmptyString
  | String c rest => String (tolower c) (to_lower rest)
  end.

(** *** <map>: [counts[key]++] on a [std::map<std::string, int>]

    A key that is not there enters with 0 first. For counts below 2^31. *)
Definition increment (counts : gmap string Z) (key : string) : gmap string Z :=
  <[key := (default 0 (counts !! key) + 1)%Z]> counts.


End Cpp.

(** ** property.h: the listing record *)

Module Property.

Record t := mk {
  id_ : Z;
  city_ : string;
  price_ : float;
  bedrooms_ : Z;
  bathrooms_ : Z;
  size_ : float;
  type_ : string;
  latitude_ : float;
  longitude_ : float;
  amenities_ : list string;
  predicted_price_ : float
}.

Definition getId := id_.
Definition getCity := city_.
Definition getPrice := price_.
Definition getBedrooms := bedrooms_.
Definition getBathrooms := bathrooms_.
Definition getSize := size_.
Definition getType := type_.
Definition getLatitude := latitude_.
Definition getLongitude := longitude_.
Definition getAmenities := amenities_.

(** The outcome of a test that may throw: [None] is the exception. *)
Definition guard (key_matches : bool) (test : option bool) : option bool :=
  if key_matches then test else Some false.

(** An [if / else if] chain: the first condition that holds decides; a
    condition is evaluated only when those before it are false. *)
Fixpoint first_true (conditions : list (option bool)) : option bool :=
  match conditions with
  | [] => Some false
  | None :: _ => None
  | Some true :: _ => Some true
  | Some false :: rest => first_true rest
  end.

(** One turn of the loop of [matchesFilter]: [Some true] when the turn
    ends in [return false], [None] when [std::stod] or [std::stoi]
    throws. [key == k && test] evaluates [test] only when the key is [k]. *)
Definition rejects (self : t) (key value : string) : option bool :=
  first_true
    [ guard (String.eqb key "city") (Some (negb (String.eqb (city_ self) value)));
      guard (String.eqb key "min_price")
        (option_map (fun v => PrimFloat.ltb (price_ self) v) (Cpp.stod value));
      guard (String.eqb key "max_price")
        (option_map (fun v => PrimFloat.ltb v (price_ self)) (Cpp.stod value));
      guard (String.eqb key "bedrooms")
        (option_map (fun v => negb (Z.eqb (bedrooms_ self) v)) (Cpp.stoi value));
      guard (String.eqb key "bathrooms")
        (option_map (fun v => negb (Z.eqb (bathrooms_ self) v)) (Cpp.stoi value));
      guard (String.eqb key "type") (Some (negb (String.eqb (type_ self) value)));
      guard (String.eqb key "min_size")
        (option_map (fun v => PrimFloat.ltb (size_ self) v) (Cpp.stod value));
      guard (String.eqb key "max_size")
        (option_map (fun v => PrimFloat.ltb v (size_ self)) (Cpp.stod value)) ].

(** [matchesFilter]. The criteria are the entries of the [std::map] in
    the order the loop visits them (ascending keys); [None] when a
    conversion throws. *)
Fixpoint matchesFilter (self : t) (filters : list (string * string)) : option bool :=
  match filters with
  | [] => Some true
  | (key, value) :: rest =>
      match rejects self key value with
      | None => None
      | Some true => Some false
      | Some false => matchesFilter self rest
      end
  end.

End Property.

(** ** ml_predictor.cpp *)

Module MLPredictor.
Import Cpp.
Local Open Scope float_scope.

Record t := mk {
  model_type_ : string;
  is_trained_ : bool;
  weights_ : list float;
  bias_ : float;
  feature_means_ : list float;
  feature_stds_ : list float;
  city_encoding_ : gmap string Z;
  type_encoding_ : gmap string Z
}.

(** The constructor [MLPredictor::MLPredictor()]. *)
Definition new : t :=
  mk "linear_regression" false [] 0 [] [] ∅ ∅.

Definition set_model_type (self : t) (v : string) : t :=
  mk v (is_trained_ self) (weights_ self) (bias_ self)
     (feature_means_ self) (feature_stds_ self)
     (city_encoding_ self) (type_encoding_ self).

Definition set_is_trained (self : t) (v : bool) : t :=
  mk (model_type_ self) v (weights_ self) (bias_ self)
     (feature_means_ self) (feature_stds_ self)
     (city_encoding_ self) (type_encoding_ self).

Definition set_weights (self : t) (v : list float) : t :=
  mk (model_type_ self) (is_trained_ self) v (bias_ self)
     (feature_means_ self) (feature_stds_ self)
     (city_encoding_ self) (type_encoding_ self).

Definition set_bias (self : t) (v : float) : t :=
  mk (model_type_ self) (is_trained_ self) (weights_ self) v
     (feature_means_ self) (feature_stds_ self)
     (city_encoding_ self) (type_encoding_ self).

Definition set_feature_means (self : t) (v : list float) : t :=
  mk (model_type_ self) (is_trained_ self) (weights_ self) (bias_ self)
     v (feature_stds_ self)
     (city_encoding_ self) (type_encoding_ self).

Definition set_feature_stds (self : t) (v : list float) : t :=
  mk (model_type_ self) (is_trained_ self) (weights_ self) (bias_ self)
     (feature_means_ self) v
     (city_encoding_ self) (type_encoding_ self).

Definition set_city_encoding (self : t) (v : gmap string Z) : t :=
  mk (model_type_ self) (is_trained_ self) (weights_ self) (bias_ self)
     (feature_means_ self) (feature_stds_ self)
     v (type_encoding_ self).

Definition set_type_encoding (self : t) (v : gmap string Z) : t :=
  mk (model_type_ self) (is_trained_ self) (weights_ self) (bias_ self)
     (feature_means_ self) (feature_stds_ self)
     (city_encoding_ self) v.

(** [encodeCategorical]: the code of [value], which is added under the
    next free code when the table does not have it. The table is passed
    by reference: the updated table is returned with the code. *)
Definition encodeCategorical (value : string) (encoding : gmap string Z)
  : Z * gmap string Z :=
  match encoding !! value with
  | Some code => (code, encoding)
  | None =>
      let new_code := int_of_size (size encoding) in
      (new_code, <[value := new_code]> encoding)
  end.

(** [initializeEncodings]: both tables are cleared, then filled in one
    pass over the data. *)
Definition initializeEncodings (self : t) (data : list Property.t) : t :=
  fold_left
    (fun s property =>
       let s1 := set_city_encoding s
                   (snd (encodeCategorical (Property.getCity property) (city_encoding_ s))) in
       set_type_encoding s1
         (snd (encodeCategorical (Property.getType property) (type_encoding_ s1))))
    data
    (set_type_encoding (set_city_encoding self ∅) ∅).

(** [extractFeatures]: the nine features, and the object after the two
    [encodeCategorical] calls. *)
Definition extractFeatures (self : t) (property : Property.t) : list float * t :=
  let '(city_code, ce) :=
    encodeCategorical (Property.getCity property) (city_encoding_ self) in
  let s1 := set_city_encoding self ce in
  let '(type_code, te) :=
    encodeCategorical (Property.getType property) (type_encoding_ s1) in
  let s2 := set_type_encoding s1 te in
  ([ double_of_int city_code;
     double_of_int type_code;
     double_of_int (Property.getBedrooms property);
     double_of_int (Property.getBathrooms property);
     Property.getSize property;
     Property.getLatitude property;
     Property.getLongitude property;
     Property.getSize property / double_of_int (Property.getBedrooms property);
     double_of_size (length (Property.getAmenities property)) ],
   s2).

(** One pass of [for (i < num_features) acc[i] += f(feature_vec[i], i)]. *)
Definition add_row (f : nat -> float -> float) (acc feature_vec : list float)
  : list float :=
  imap (fun i a => a + f i (vec_at feature_vec i)) acc.

(** [calculateNormalizationParams]. [resize] keeps the entries the two
    vectors already hold and pads with [0.0]. *)
Definition calculateNormalizationParams (self : t) (features : list (list float)) : t :=
  match features with
  | [] => self
  | first :: _ =>
      let num_features := length first in
      let means0 := resize num_features 0 (feature_means_ self) in
      let stds0 := resize num_features 0 (feature_stds_ self) in
      let n := double_of_size (length features) in
      let sums := fold_left (add_row (fun _ x => x)) features means0 in
      let means := map (fun m => m / n) sums in
      let sqs :=
        fold_left (add_row (fun i x => pow2 (x - vec_at means i))) features stds0 in
      let stds :=
        map (fun s => let r := sqrt (s / n) in if r =? 0 then 1 else r) sqs in
      set_feature_stds (set_feature_means self means) stds
  end.

(** [normalizeFeatureVector]: the entries below both sizes are rescaled,
    the others are copied. *)
Definition normalizeFeatureVector (self : t) (features : list float) : list float :=
  imap
    (fun i x =>
       if (i <? length (feature_means_ self))%nat
       then (x - vec_at (feature_means_ self) i) / vec_at (feature_stds_ self) i
       else x)
    features.

(** The loop of [predict]: [result += weights_[i] * features[i]]. *)
Definition dot_from (start : float) (weights features : list float) : float :=
  fold_left (fun result wf => result + fst wf * snd wf) (combine weights features) start.

(** [predict], on the weights and the bias it reads. *)
Definition predict_with (weights : list float) (bias : float) (features : list float)
  : float :=
  if negb (length features =? length weights)%nat then 0
  else std_max 0 (dot_from bias weights features).

Definition predict (self : t) (features : list float) : float :=
  predict_with (weights_ self) (bias_ self) features.

(** One iteration of the gradient descent loop of [trainLinearRegression]. *)
Definition gradient_step (num_features : nat) (X : list (list float)) (y : list float)
  (wb : list float * float) : list float * float :=
  let '(weights, bias) := wb in
  let num_samples := double_of_size (length X) in
  let learning_rate := 0.01 in
  let '(weight_gradients, bias_gradient) :=
    fold_left
      (fun g xy =>
         let predicted := predict_with weights bias (fst xy) in
         let error := predicted - snd xy in
         (add_row (fun _ x => error * x) (fst g) (fst xy), snd g + error))
      (combine X y)
      (repeat 0 num_features, 0) in
  (imap (fun j w => w - learning_rate * vec_at weight_gradients j / num_samples) weights,
   bias - learning_rate * bias_gradient / num_samples).

Definition max_iterations : nat := 1000.

Definition trainLinearRegression (self : t) (X : list (list float)) (y : list float) : t :=
  match X with
  | [] => self
  | first :: _ =>
      if negb (length X =? length y)%nat then self
      else
        let num_features := length first in
        let weights0 := resize num_features 0 (weights_ self) in
        let '(weights, bias) :=
          Nat.iter max_iterations (gradient_step num_features X y) (weights0, 0) in
        set_bias (set_weights self weights) bias
  end.

(** The loop of [trainModel] that fills [X]: each [extractFeatures] call
    works on the object the previous one left. *)
Definition extract_all (self : t) (data : list Property.t) : list (list float) * t :=
  fold_left
    (fun acc property =>
       let '(row, s) := extractFeatures (snd acc) property in
       (fst acc ++ [row], s))
    data ([], self).

Definition trainModel (self : t) (training_data : list Property.t) : bool * t :=
  match training_data with
  | [] => (false, self)
  | _ =>
      let s1 := initializeEncodings self training_data in
      let '(X, s2) := extract_all s1 training_data in
      let y := map Property.getPrice training_data in
      let s3 := calculateNormalizationParams s2 X in
      let Xn := map (normalizeFeatureVector s3) X in
      let s4 :=
        if String.eqb (model_type_ s3) "linear_regression"
        then trainLinearRegression s3 Xn y else s3 in
      (true, set_is_trained s4 true)
  end.

Definition predictPrice (self : t) (property : Property.t) : float * t :=
  if negb (is_trained_ self) then (0, self)
  else
    let '(features, s1) := extractFeatures self property in
    let normalized_features := normalizeFeatureVector s1 features in
    (predict s1 normalized_features, s1).

(** [setModelType]. *)
Definition setModelType (self : t) (type : string) : t := set_model_type self type.

(** [predictPrices]: one [predictPrice] call per listing, each on the
    object the previous call left. *)
Definition predictPrices (self : t) (properties : list Property.t) : list float * t :=
  fold_left
    (fun acc property =>
       let '(price, s) := predictPrice (snd acc) property in
       (fst acc ++ [price], s))
    properties ([], self).

(** [normalizeFeatures]: [normalizeFeatureVector] in place. *)
Definition normalizeFeatures (self : t) (features : list float) : list float :=
  normalizeFeatureVector self features.

(** [calculateAccuracy]. *)
Definition calculateAccuracy (self : t) (test_data : list Property.t) : float * t :=
  if negb (is_trained_ self) || (length test_data =? 0)%nat then (0, self)
  else
    let '(total_error, total_actual, s) :=
      fold_left
        (fun acc property =>
           let '(total_error, total_actual, s) := acc in
           let '(predicted, s') := predictPrice s property in
           let actual := Property.getPrice property in
           (total_error + abs (predicted - actual), total_actual + actual, s'))
        test_data (0, 0, self) in
    let mape := (total_error / total_actual) * 100 in
    (100 - mape, s).

(** [getModelMetrics]. *)
Definition getModelMetrics (self : t) : gmap string float :=
  let metrics : gmap string float := ∅ in
  let metrics := <["is_trained" := if is_trained_ self then 1 else 0]> metrics in
  let metrics := <["num_features" := double_of_size (length (weights_ self))]> metrics in
  let metrics := <["bias" := bias_ self]> metrics in
  match weights_ self with
  | [] => metrics
  | _ =>
      let weight_sum := fold_left PrimFloat.add (weights_ self) 0 in
      <["avg_weight" := weight_sum / double_of_size (length (weights_ self))]> metrics
  end.

(** *** Persistence. A model file is its text; [None] is a file that
    cannot be opened. *)

(** [saveModel]: the text written, or [None] when the function returns
    [false] (the model is not trained). *)
Definition saveModel (self : t) : option string :=
  if negb (is_trained_ self) then None
  else
    Some (model_type_ self ++ endl
          ++ format_double (bias_ self) ++ endl
          ++ String.concat EmptyString
               (map (fun weight => format_double weight ++ endl) (weights_ self)))%string.

(** How a call ends: it returns, or an exception leaves it; both with
    the object as the call left it. *)
Inductive outcome : Type :=
  | Returns (result : bool) (self : t)
  | Throws (self : t).

(** The loop [while (getline(file, line) && !line.empty())
    weights_.push_back(stod(line))]: the weights read, and whether a
    conversion threw. *)
Fixpoint read_weights (fuel : nat) (file : string) (weights : list float)
  : list float * bool :=
  match fuel with
  | O => (weights, false)
  | S fuel' =>
      match getline file with
      | None => (weights, false)
      | Some (line, rest) =>
          if String.eqb line EmptyString then (weights, false)
          else
            match stod line with
            | None => (weights, true)
            | Some w => read_weights fuel' rest (weights ++ [w])
            end
      end
  end.

Definition loadModel (self : t) (model_file : option string) : outcome :=
  match model_file with
  | None => Returns false self
  | Some file =>
      let '(s1, file1) :=
        match getline file with
        | Some (line, rest) => (set_model_type self line, rest)
        | None => (self, file)
        end in
      let '(bias, file2) :=
        match getline file1 with
        | Some (line, rest) => (Some (stod line), rest)
        | None => (None, file1)
        end in
      match bias with
      | Some None => Throws s1
      | _ =>
          let s2 :=
            match bias with Some (Some b) => set_bias s1 b | _ => s1 end in
          let '(weights, threw) := read_weights (S (String.length file2)) file2 [] in
          let s3 := set_weights s2 weights in
          if threw then Throws s3
          else Returns true (set_is_trained s3 (negb (length weights =? 0)%nat))
      end
  end.

End MLPredictor.

(** ** <algorithm>: [std::sort]

    The standard fixes what [std::sort] returns only up to the order of
    equivalent elements, and only for a comparison that is a strict weak
    ordering of the elements sorted. The embedding takes the algorithm
    as a parameter with exactly this contract. *)

Definition strict_weak_on {A : Type} (comp : A -> A -> bool) (l : list A) : Prop :=
  (forall a b, In a l -> In b l -> comp a b = true -> comp b a = false) /\
  (forall a b c, In a l -> In b l -> In c l ->
     comp a b = false -> comp b c = false -> comp a c = false).

(** Sorted for [comp]: no element is before one that [comp] puts first. *)
Definition sorted_by {A : Type} (comp : A -> A -> bool) (l : list A) : Prop :=
  StronglySorted (fun a b => comp b a = false) l.

Class StdAlgorithm := {
  std_sort : forall {A : Type}, (A -> A -> bool) -> list A -> list A;
  std_sort_contract :
    forall (A : Type) (comp : A -> A -> bool) (l : list A),
      strict_weak_on comp l ->
      Permutation l (std_sort comp l) /\ sorted_by comp (std_sort comp l)
}.

(** Two sorting algorithms: insertion from the back of the input, the
    new element going before its equivalents (which keeps the input
    order among them) or after them (which reverses it). *)
Fixpoint insert_before {A : Type} (comp : A -> A -> bool) (x : A) (l : list A) : list A :=
  match l with
  | [] => [x]
  | y :: l' => if comp y x then y :: insert_before comp x l' else x :: l
  end.

Fixpoint insert_after {A : Type} (comp : A -> A -> bool) (x : A) (l : list A) : list A :=
  match l with
  | [] => [x]
  | y :: l' => if comp x y then x :: l else y :: insert_after comp x l'
  end.

Definition stable_sort {A : Type} (comp : A -> A -> bool) (l : list A) : list A :=
  fold_right (insert_before comp) [] l.

Definition reversing_sort {A : Type} (comp : A -> A -> bool) (l : list A) : list A :=
  fold_right (insert_after comp) [] l.

(** ** libstdc++: [std::sort] as GCC implements it

    [bits/stl_algo.h] and [bits/stl_heap.h]: an introsort that leaves
    runs of at most 16 elements unsorted, a heap sort where the
    recursion gets too deep, and a final insertion sort. The range
    [[first, last)] of the vector is given by two indices. Where the
    library moves a value through a hole, the value is kept in the
    hole: each move is then an exchange with the hole. The library's
    unguarded loops stop, for a strict weak ordering, before they leave
    the range; here they also stop at the end of the vector. *)

Module Libstdcxx.
Section Sort.
Context {A : Type} (comp : A -> A -> bool).

Definition _S_threshold : nat := 16.

(** [comp(a + i, a + j)]. *)
Definition comp_at (a : list A) (i j : nat) : bool :=
  match a !! i, a !! j with
  | Some x, Some y => comp x y
  | _, _ => false
  end.

(** [std::iter_swap(a + i, a + j)]. *)
Definition iter_swap (a : list A) (i j : nat) : list A :=
  match a !! i, a !! j with
  | Some x, Some y => <[i := y]> (<[j := x]> a)
  | _, _ => a
  end.

Definition move_median_to_first (a : list A) (result x y z : nat) : list A :=
  if comp_at a x y then
    if comp_at a y z then iter_swap a result y
    else if comp_at a x z then iter_swap a result z
    else iter_swap a result x
  else if comp_at a x z then iter_swap a result x
  else if comp_at a y z then iter_swap a result z
  else iter_swap a result y.

(** [while (comp(first, pivot)) ++first]. *)
Fixpoint scan_up (fuel : nat) (a : list A) (first pivot : nat) : nat :=
  match fuel with
  | O => first
  | S fuel' =>
      if comp_at a first pivot then scan_up fuel' a (S first) pivot else first
  end.

(** [while (comp(pivot, last)) --last]. *)
Fixpoint scan_down (fuel : nat) (a : list A) (pivot last : nat) : nat :=
  match fuel with
  | O => last
  | S fuel' =>
      if comp_at a pivot last then scan_down fuel' a pivot (last - 1) else last
  end.

Fixpoint unguarded_partition (fuel : nat) (a : list A) (first last pivot : nat)
  : list A * nat :=
  match fuel with
  | O => (a, first)
  | S fuel' =>
      let first := scan_up (length a) a first pivot in
      let last := scan_down (length a) a pivot (last - 1) in
      if negb (first <? last) then (a, first)
      else unguarded_partition fuel' (iter_swap a first last) (S first) last pivot
  end.

Definition unguarded_partition_pivot (a : list A) (first last : nat) : list A * nat :=
  let mid := first + (last - first) / 2 in
  let a := move_median_to_first a first (first + 1) mid (last - 1) in
  unguarded_partition (length a) a (first + 1) last first.

(** [__push_heap], the value being in the hole. *)
Fixpoint push_heap (fuel : nat) (a : list A) (first holeIndex topIndex : nat) : list A :=
  match fuel with
  | O => a
  | S fuel' =>
      let parent := (holeIndex - 1) / 2 in
      if (topIndex <? holeIndex) && comp_at a (first + parent) (first + holeIndex)
      then push_heap fuel' (iter_swap a (first + holeIndex) (first + parent))
             first parent topIndex
      else a
  end.

(** The first loop of [__adjust_heap]: the hole goes down to the larger
    child. *)
Fixpoint sift_down (fuel : nat) (a : list A) (first secondChild len : nat)
  : list A * nat :=
  match fuel with
  | O => (a, secondChild)
  | S fuel' =>
      if secondChild <? (len - 1) / 2 then
        let holeIndex := secondChild in
        let secondChild := 2 * (secondChild + 1) in
        let secondChild :=
          if comp_at a (first + secondChild) (first + (secondChild - 1))
          then secondChild - 1 else secondChild in
        sift_down fuel' (iter_swap a (first + holeIndex) (first + secondChild))
          first secondChild len
      else (a, secondChild)
  end.

Definition adjust_heap (a : list A) (first holeIndex len : nat) : list A :=
  let topIndex := holeIndex in
  let '(a, secondChild) := sift_down (length a) a first holeIndex len in
  let '(a, holeIndex) :=
    if Nat.even len && (Z.of_nat secondChild =? Z.quot (Z.of_nat len - 2) 2)%Z then
      let child := 2 * (secondChild + 1) - 1 in
      (iter_swap a (first + secondChild) (first + child), child)
    else (a, secondChild) in
  push_heap (length a) a first holeIndex topIndex.

Definition pop_heap (a : list A) (first last result : nat) : list A :=
  adjust_heap (iter_swap a result first) first 0 (last - first).

Fixpoint make_heap_from (parent : nat) (a : list A) (first len : nat) : list A :=
  let a := adjust_heap a first parent len in
  match parent with
  | O => a
  | S parent' => make_heap_from parent' a first len
  end.

Definition make_heap (a : list A) (first last : nat) : list A :=
  if last - first <? 2 then a
  else make_heap_from ((last - first - 2) / 2) a first (last - first).

Fixpoint sort_heap (fuel : nat) (a : list A) (first last : nat) : list A :=
  match fuel with
  | O => a
  | S fuel' =>
      if 1 <? last - first
      then sort_heap fuel' (pop_heap a first (last - 1) (last - 1)) first (last - 1)
      else a
  end.

Definition heap_select (a : list A) (first middle last : nat) : list A :=
  fold_left
    (fun a i => if comp_at a i first then pop_heap a first middle i else a)
    (seq middle (last - middle))
    (make_heap a first middle).

Definition partial_sort (a : list A) (first middle last : nat) : list A :=
  sort_heap (length a) (heap_select a first middle last) first middle.

Fixpoint introsort_loop (depth_limit : nat) (a : list A) (first last : nat) : list A :=
  match depth_limit with
  | O =>
      if _S_threshold <? last - first then partial_sort a first last last else a
  | S depth_limit' =>
      if _S_threshold <? last - first then
        let '(a1, cut) := unguarded_partition_pivot a first last in
        let a2 := introsort_loop depth_limit' a1 cut last in
        introsort_loop depth_limit' a2 first cut
      else a
  end.

(** [__unguarded_linear_insert]: [val] goes down past every element it
    is less than. The sorted run before it is given from its last
    element to its first. *)
Fixpoint unguarded_linear_insert (val : A) (before : list A) : list A :=
  match before with
  | next :: rest =>
      if comp val next then next :: unguarded_linear_insert val rest
      else val :: before
  | [] => [val]
  end.

(** One turn of the loop of [__insertion_sort]: an element less than
    the first goes to the front. *)
Definition insertion_step (before : list A) (val : A) : list A :=
  match last before with
  | Some first =>
      if comp val first then before ++ [val]
      else unguarded_linear_insert val before
  | None => [val]
  end.

(** [__insertion_sort] on a whole run; the result from last to first. *)
Definition insertion_sort (run : list A) : list A :=
  fold_left insertion_step run [].

(** [__unguarded_insertion_sort] of [run] after the sorted [before]. *)
Definition unguarded_insertion_sort (before run : list A) : list A :=
  fold_left (fun before val => unguarded_linear_insert val before) run before.

Definition final_insertion_sort (a : list A) : list A :=
  if _S_threshold <? length a then
    rev (unguarded_insertion_sort
           (insertion_sort (firstn _S_threshold a)) (skipn _S_threshold a))
  else rev (insertion_sort a).

(** [std::sort(a.begin(), a.end(), comp)]. *)
Definition sort (a : list A) : list A :=
  match a with
  | [] => []
  | _ =>
      final_insertion_sort
        (introsort_loop (Nat.log2 (length a) * 2) a 0 (length a))
  end.

End Sort.
End Libstdcxx.

(** ** Sample listings and files, for the examples *)

Module Samples.

Definition pune_flat : Property.t :=
  Property.mk 1 "Pune" 100 2 1 50 "flat" 18.5 73.8 ["gym"] 0.

Definition delhi_villa : Property.t :=
  Property.mk 2 "Delhi" 200 3 2 80 "villa" 28.6 77.2 [] 0.

Definition goa_flat : Property.t :=
  Property.mk 3 "Goa" 150 2 1 60 "flat" 15.3 74.0 ["pool"; "gym"] 0.

(** A model file with the bias 5 and the single weight 0. *)
Definition one_weight_file : string :=
  ("linear_regression" ++ Cpp.endl ++ "5" ++ Cpp.endl ++ "0" ++ Cpp.endl)%string.

(** A model file with the bias 1.5 and the two weights 2 and 3. *)
Definition two_weight_file : string :=
  ("linear_regression" ++ Cpp.endl ++ "1.5" ++ Cpp.endl
     ++ "2" ++ Cpp.endl ++ "3" ++ Cpp.endl)%string.

(** A twin of [delhi_villa] under another identifier. *)
Definition delhi_twin : Property.t :=
  Property.mk 4 "Delhi" 200 3 2 80 "villa" 28.6 77.2 [] 0.

(** Criteria, in key order; [view] is not a recognised key. *)
Definition pune_criteria : list (string * string) :=
  [ ("bedrooms", "2"); ("city", "Pune"); ("max_price", "120.5");
    ("min_size", "5e1"); ("view", "sea") ].

(** Four listings with the prices 300, 100, 400 and 200. *)
Definition four_prices : list Property.t :=
  [ Property.mk 11 "Pune" 300 2 1 50 "flat" 18.5 73.8 [] 0;
    Property.mk 12 "Pune" 100 1 1 30 "flat" 18.5 73.8 [] 0;
    Property.mk 13 "Goa" 400 3 2 90 "villa" 15.3 74.0 [] 0;
    Property.mk 14 "Goa" 200 2 1 45 "flat" 15.3 74.0 [] 0 ].

(** A model file with the bias -1 and nine weights 0. *)
Definition negative_bias_file : string :=
  ("linear_regression" ++ Cpp.endl ++ "-1" ++ Cpp.endl
     ++ String.concat EmptyString (repeat ("0" ++ Cpp.endl) 9))%string.

(** Seventeen flats of one tower, alike but for the identifier. *)
Definition tower_flat (id : Z) : Property.t :=
  Property.mk id "Pune" 120 2 1 55 "flat" 18.5 73.8 ["lift"] 0.

Definition tower : list Property.t :=
  map tower_flat
    [101; 102; 103; 104; 105; 106; 107; 108; 109; 110; 111; 112; 113; 114;
     115; 116; 117]%Z.

(** Small-angle approximations of the functions of [Libm]. *)
Definition small_angle : Cpp.Libm :=
  {| Cpp.sin := fun x => x;
     Cpp.cos := fun _ => 1%float;
     Cpp.atan2 := fun y x => (y / x)%float |}.


End Samples.

(** ** search_engine.cpp *)

Module SearchEngine.
Import Cpp.
Local Open Scope float_scope.

(** [search]: [None] when [matchesFilter] throws. *)
Fixpoint search (properties : list Property.t) (filters : list (string * string))
  : option (list Property.t) :=
  match properties with
  | [] => Some []
  | property :: rest =>
      match Property.matchesFilter property filters with
      | None => None
      | Some matches =>
          match search rest filters with
          | None => None
          | Some results => Some (if matches then property :: results else results)
          end
      end
  end.

Definition calculateSimilarity (p1 p2 : Property.t) : float :=
  let similarity := 0.0 in
  let similarity :=
    if String.eqb (Property.getCity p1) (Property.getCity p2)
    then similarity + 0.3 else similarity in
  let similarity :=
    if String.eqb (Property.getType p1) (Property.getType p2)
    then similarity + 0.2 else similarity in
  let bedroom_diff := Z.abs (Property.getBedrooms p1 - Property.getBedrooms p2) in
  let similarity :=
    similarity + (if (bedroom_diff =? 0)%Z then 0.2
                  else if (bedroom_diff =? 1)%Z then 0.1 else 0.0) in
  let price_ratio :=
    std_min (Property.getPrice p1) (Property.getPrice p2)
    / std_max (Property.getPrice p1) (Property.getPrice p2) in
  let similarity := similarity + 0.2 * price_ratio in
  let size_ratio :=
    std_min (Property.getSize p1) (Property.getSize p2)
    / std_max (Property.getSize p1) (Property.getSize p2) in
  similarity + 0.1 * size_ratio.

(** The scored candidates of [recommendSimilar], in input order. *)
Definition scored_properties (properties : list Property.t) (target_property : Property.t)
  : list (float * Property.t) :=
  map (fun property => (calculateSimilarity target_property property, property))
    (List.filter
       (fun property =>
          negb (Property.getId property =? Property.getId target_property)%Z)
       properties).

(** The comparison [a.first > b.first]. *)
Definition by_similarity (a b : float * Property.t) : bool :=
  PrimFloat.ltb (fst b) (fst a).

Definition recommendSimilar `{StdAlgorithm} (properties : list Property.t)
  (target_property : Property.t) (max_results : Z) : list Property.t :=
  let sorted := std_sort by_similarity (scored_properties properties target_property) in
  let count := Z.min max_results (Z.of_nat (length sorted)) in
  map snd (firstn (Z.to_nat count) sorted).

Definition calculatePriceStatistics `{StdAlgorithm} (properties : list Property.t)
  : gmap string float :=
  match properties with
  | [] => ∅
  | _ =>
      let prices := std_sort PrimFloat.ltb (map Property.getPrice properties) in
      let sum := fold_left PrimFloat.add prices 0.0 in
      let n := length prices in
      let stats : gmap string float := ∅ in
      let stats := <["count" := double_of_size n]> stats in
      let stats := <["mean" := sum / double_of_size n]> stats in
      let stats := <["min" := vec_at prices 0]> stats in
      let stats := <["max" := vec_at prices (n - 1)]> stats in
      let stats :=
        <["median" :=
            if (n mod 2 =? 0)%nat
            then (vec_at prices (n / 2 - 1) + vec_at prices (n / 2)) / 2.0
            else vec_at prices (n / 2)]> stats in
      let variance :=
        fold_left
          (fun variance price => variance + pow2 (price - default 0 (stats !! "mean")))
          prices 0.0 in
      <["std_dev" := sqrt (variance / double_of_size n)]> stats
  end.

(** [matchesKeywords]: some token occurs, letter case ignored, in the
    city, in the type or in an amenity. *)
Definition tokenizeKeywords (keywords : string) : list string :=
  extract_tokens keywords EmptyString.

Definition occurs_in (lower_token : string) (text : string) : bool :=
  match find (to_lower text) lower_token with
  | Some _ => true
  | None => false
  end.

Definition matchesKeywords (property : Property.t) (keywords : string) : bool :=
  existsb
    (fun token =>
       let lower_token := to_lower token in
       occurs_in lower_token (Property.getCity property)
       || occurs_in lower_token (Property.getType property)
       || existsb (occurs_in lower_token) (Property.getAmenities property))
    (tokenizeKeywords keywords).

Definition searchByKeywords (properties : list Property.t) (keywords : string)
  : list Property.t :=
  List.filter (fun property => matchesKeywords property keywords) properties.

(** [calculateDistance]: the haversine formula. *)
Definition M_PI : float := 3.14159265358979323846.

Definition calculateDistance `{Libm} (lat1 lon1 lat2 lon2 : float) : float :=
  let R := 6371.0 in
  let lat1_rad := lat1 * M_PI / 180.0 in
  let lon1_rad := lon1 * M_PI / 180.0 in
  let lat2_rad := lat2 * M_PI / 180.0 in
  let lon2_rad := lon2 * M_PI / 180.0 in
  let dlat := lat2_rad - lat1_rad in
  let dlon := lon2_rad - lon1_rad in
  let a := sin (dlat / 2) * sin (dlat / 2)
           + cos lat1_rad * cos lat2_rad * sin (dlon / 2) * sin (dlon / 2) in
  let c := 2 * atan2 (sqrt a) (sqrt (1 - a)) in
  R * c.

Definition searchNearby `{Libm} (properties : list Property.t)
  (latitude longitude radius_km : float) : list Property.t :=
  List.filter
    (fun property =>
       let distance :=
         calculateDistance latitude longitude
           (Property.getLatitude property) (Property.getLongitude property) in
       PrimFloat.leb distance radius_km)
    properties.

(** The comparison of [recommendByBudget]: nearer to the budget first. *)
Definition by_proximity (budget : float) (a b : Property.t) : bool :=
  PrimFloat.ltb (abs (Property.getPrice a - budget)) (abs (Property.getPrice b - budget)).

Definition recommendByBudget `{StdAlgorithm} (properties : list Property.t)
  (budget tolerance : float) : list Property.t :=
  let min_price := budget * (1.0 - tolerance) in
  let max_price := budget * (1.0 + tolerance) in
  let results :=
    List.filter
      (fun property =>
         PrimFloat.leb min_price (Property.getPrice property)
         && PrimFloat.leb (Property.getPrice property) max_price)
      properties in
  std_sort (by_proximity budget) results.

Inductive SortBy : Type :=
  | PRICE_ASC | PRICE_DESC | SIZE_ASC | SIZE_DESC
  | BEDROOMS_ASC | BEDROOMS_DESC | RELEVANCE | DISTANCE.

(** [sortProperties]: the vector is passed by reference; the sorted
    vector is returned. [RELEVANCE] has no case in the [switch]. *)
Definition sortProperties `{StdAlgorithm} `{Libm} (properties : list Property.t)
  (sort_by : SortBy) (ref_latitude ref_longitude : float) : list Property.t :=
  match sort_by with
  | PRICE_ASC =>
      std_sort (fun a b => PrimFloat.ltb (Property.getPrice a) (Property.getPrice b))
        properties
  | PRICE_DESC =>
      std_sort (fun a b => PrimFloat.ltb (Property.getPrice b) (Property.getPrice a))
        properties
  | SIZE_ASC =>
      std_sort (fun a b => PrimFloat.ltb (Property.getSize a) (Property.getSize b))
        properties
  | SIZE_DESC =>
      std_sort (fun a b => PrimFloat.ltb (Property.getSize b) (Property.getSize a))
        properties
  | BEDROOMS_ASC =>
      std_sort (fun a b => (Property.getBedrooms a <? Property.getBedrooms b)%Z)
        properties
  | BEDROOMS_DESC =>
      std_sort (fun a b => (Property.getBedrooms b <? Property.getBedrooms a)%Z)
        properties
  | DISTANCE =>
      std_sort
        (fun a b =>
           let dist_a :=
             calculateDistance ref_latitude ref_longitude
               (Property.getLatitude a) (Property.getLongitude a) in
           let dist_b :=
             calculateDistance ref_latitude ref_longitude
               (Property.getLatitude b) (Property.getLongitude b) in
           PrimFloat.ltb dist_a dist_b)
        properties
  | RELEVANCE => properties
  end.

Definition getPopularAmenities (properties : list Property.t) : gmap string Z :=
  fold_left
    (fun amenity_counts property =>
       fold_left increment (Property.getAmenities property) amenity_counts)
    properties ∅.


End SearchEngine.

(** ** property_manager.cpp *)

Module PropertyManager.
Import Cpp.
Local Open Scope float_scope.

Record t := mk {
  properties_ : list Property.t;
  id_to_index_ : gmap Z nat
}.

(** The constructor [PropertyManager::PropertyManager()]. *)
Definition new : t := mk [] ∅.

(** [updateIndexMap]: the map is cleared, then
    [id_to_index_[properties_[i].getId()] = i] for every [i] in turn. *)
Definition updateIndexMap (self : t) : t :=
  mk (properties_ self)
     (fold_left
        (fun index entry => <[Property.getId (snd entry) := fst entry]> index)
        (combine (seq 0 (length (properties_ self))) (properties_ self))
        ∅).

Definition addProperty (self : t) (property : Property.t) : t :=
  updateIndexMap (mk (properties_ self ++ [property]) (id_to_index_ self)).

(** [removeProperty]: [std::remove_if] keeps the other listings in
    order; [it != properties_.end()] holds when one was removed. *)
Definition removeProperty (self : t) (id : Z) : t :=
  let kept :=
    List.filter (fun p => negb (Property.getId p =? id)%Z) (properties_ self) in
  if (length kept <? length (properties_ self))%nat
  then updateIndexMap (mk kept (id_to_index_ self))
  else self.

(** [findProperty]: the listing the pointer returned points to; [None]
    is [nullptr]. *)
Definition findProperty (self : t) (id : Z) : option Property.t :=
  match id_to_index_ self !! id with
  | Some index =>
      if (index <? length (properties_ self))%nat
      then properties_ self !! index
      else None
  | None => None
  end.

Definition getAllProperties (self : t) : list Property.t := properties_ self.

(** [clearProperties] clears the vector and leaves the map. *)
Definition clearProperties (self : t) : t := mk [] (id_to_index_ self).

Definition getCityCounts (self : t) : gmap string Z :=
  fold_left (fun cityCounts property => increment cityCounts (Property.getCity property))
    (properties_ self) ∅.

Definition getTypeCounts (self : t) : gmap string Z :=
  fold_left (fun typeCounts property => increment typeCounts (Property.getType property))
    (properties_ self) ∅.

Definition sortByPrice `{StdAlgorithm} (self : t) (ascending : bool) : t :=
  let sorted :=
    if ascending
    then std_sort (fun a b => PrimFloat.ltb (Property.getPrice a) (Property.getPrice b))
           (properties_ self)
    else std_sort (fun a b => PrimFloat.ltb (Property.getPrice b) (Property.getPrice a))
           (properties_ self) in
  updateIndexMap (mk sorted (id_to_index_ self)).

Definition sortBySize `{StdAlgorithm} (self : t) (ascending : bool) : t :=
  let sorted :=
    if ascending
    then std_sort (fun a b => PrimFloat.ltb (Property.getSize a) (Property.getSize b))
           (properties_ self)
    else std_sort (fun a b => PrimFloat.ltb (Property.getSize b) (Property.getSize a))
           (properties_ self) in
  updateIndexMap (mk sorted (id_to_index_ self)).

(** [a.getCity() < b.getCity()] compares the strings byte by byte. *)
Definition sortByCity `{StdAlgorithm} (self : t) : t :=
  let sorted :=
    std_sort (fun a b => String.ltb (Property.getCity a) (Property.getCity b))
      (properties_ self) in
  updateIndexMap (mk sorted (id_to_index_ self)).

End PropertyManager.

(** ** csv_parser.cpp *)

Module CSVParser.
Import Cpp.

Definition delimiter_ : ascii := ",".
Definition quote_char_ : ascii := char_of 34.

(** The loop of [parseLine], from the character at the head of [line]. *)
Fixpoint parse_from (line : string) (fields : list string) (current_field : string)
  (in_quotes : bool) : list string :=
  match line with
  | EmptyString => fields ++ [current_field]
  | String ch rest =>
      if Ascii.eqb ch quote_char_ then
        match rest with
        | String next rest' =>
            if in_quotes && Ascii.eqb next quote_char_
            then parse_from rest' fields
                   (current_field ++ String quote_char_ EmptyString) in_quotes
            else parse_from rest fields current_field (negb in_quotes)
        | EmptyString => parse_from rest fields current_field (negb in_quotes)
        end
      else if Ascii.eqb ch delimiter_ && negb in_quotes
      then parse_from rest (fields ++ [current_field]) EmptyString in_quotes
      else parse_from rest fields (current_field ++ String ch EmptyString) in_quotes
  end.

Definition parseLine (line : string) : list string :=
  parse_from line [] EmptyString false.

(** [field.find(ch) != std::string::npos]. *)
Fixpoint has_char (ch : ascii) (field : string) : bool :=
  match field with
  | EmptyString => false
  | String c rest => Ascii.eqb c ch || has_char ch rest
  end.

Definition needsQuoting (field : string) : bool :=
  has_char delimiter_ field || has_char quote_char_ field
  || has_char (char_of 10) field || has_char (char_of 13) field.

(** The loop of [escapeField]: every quote is doubled. *)
Fixpoint escape_quotes (field : string) : string :=
  match field with
  | EmptyString => EmptyString
  | String ch rest =>
      if Ascii.eqb ch quote_char_
      then String quote_char_ (String quote_char_ (escape_quotes rest))
      else String ch (escape_quotes rest)
  end.

Definition escapeField (field : string) : string :=
  if needsQuoting field
  then String quote_char_ (escape_quotes field ++ String quote_char_ EmptyString)
  else field.

(** What [writeCSV] writes for one row: the escaped fields with a
    delimiter between them. *)
Fixpoint write_row (row : list string) : string :=
  match row with
  | [] => EmptyString
  | [field] => escapeField field
  | field :: rest => escapeField field ++ String delimiter_ (write_row rest)
  end.

(** What [writeCSV] writes: the rows with [std::endl] between them.
    [None] when the file cannot be created is left out. *)
Fixpoint write_rows (data : list (list string)) : string :=
  match data with
  | [] => EmptyString
  | [row] => write_row row
  | row :: rest => write_row row ++ endl ++ write_rows rest
  end.

Definition writeCSV (data : list (list string)) : string := write_rows data.

(** The loop of [parseCSV] on the text of the file: a line that is
    empty is skipped. *)
Fixpoint parse_lines (fuel : nat) (file : string) : list (list string) :=
  match fuel with
  | O => []
  | S fuel' =>
      match getline file with
      | None => []
      | Some (line, rest) =>
          if String.eqb line EmptyString then parse_lines fuel' rest
          else parseLine line :: parse_lines fuel' rest
      end
  end.

Definition parseCSV (file : string) : list (list string) :=
  parse_lines (S (String.length file)) file.

End CSVParser.

(** * Facts about binary64 comparison and division

    Proved from the specification of the primitive operations
    ([FloatAxioms]). *)

Module DoubleFacts.

Import Cpp.

Lemma pos_compare_cont_eq (p q : positive) :
  PosDef.Pos.compare_cont Eq p q = Pos.compare p q.
Proof. reflexivity. Qed.

Lemma compare_cont_spec (p q : positive) :
  CompareSpec (p = q) (p < q)%positive (q < p)%positive
    (PosDef.Pos.compare_cont Eq p q).
Proof. exact (Pos.compare_spec p q). Qed.

Lemma SFcompare_antisym (x y : spec_float) :
  SFcompare y x = option_map CompOpp (SFcompare x y).
Proof.
  destruct x as [sx|sx| |sx mx ex], y as [sy|sy| |sy my ey]; simpl;
    try reflexivity; try (destruct sx; reflexivity); try (destruct sy; reflexivity);
    try (destruct sx, sy; reflexivity).
  rewrite !pos_compare_cont_eq.
  rewrite (Z.compare_antisym ex ey), (Pos.compare_antisym mx my).
  destruct sx, sy; simpl; try reflexivity;
    destruct (ex ?= ey)%Z; simpl; try reflexivity;
    destruct (mx ?= my)%positive; reflexivity.
Qed.

Lemma ltb_asym (x y : float) :
  PrimFloat.ltb x y = true -> PrimFloat.ltb y x = false.
Proof.
  rewrite !ltb_spec. unfold SFltb. rewrite (SFcompare_antisym (Prim2SF x) (Prim2SF y)).
  destruct (SFcompare (Prim2SF x) (Prim2SF y)) as [[]|]; simpl; congruence.
Qed.

Lemma SFcompare_nan_l (x y : spec_float) :
  SFcompare x y = None <-> x = S754_nan \/ y = S754_nan.
Proof.
  destruct x as [sx|sx| |sx mx ex], y as [sy|sy| |sy my ey]; simpl;
    split; intros H; try discriminate; auto;
    try (destruct H; discriminate).
Qed.

Lemma is_nan_spec (x : float) : is_nan x = true <-> Prim2SF x = S754_nan.
Proof.
  unfold is_nan. rewrite FloatAxioms.eqb_spec. unfold SFeqb.
  destruct (Prim2SF x) as [sx|sx| |sx mx ex]; simpl.
  - split; discriminate.
  - destruct sx; split; discriminate.
  - split; reflexivity.
  - rewrite pos_compare_cont_eq, Z.compare_refl, Pos.compare_refl.
    destruct sx; split; discriminate.
Qed.

Lemma is_nan_false (x : float) : is_nan x = false <-> Prim2SF x <> S754_nan.
Proof.
  rewrite <- is_nan_spec. destruct (is_nan x); split; congruence.
Qed.

(** On two numbers, [x < y] fails exactly when [y <= x]. *)
Lemma ltb_false_leb (x y : float) :
  is_nan x = false -> is_nan y = false ->
  PrimFloat.ltb x y = false <-> PrimFloat.leb y x = true.
Proof.
  rewrite !is_nan_false, ltb_spec, leb_spec. unfold SFltb, SFleb. intros Hx Hy.
  rewrite (SFcompare_antisym (Prim2SF x) (Prim2SF y)).
  destruct (SFcompare (Prim2SF x) (Prim2SF y)) as [[]|] eqn:E; simpl;
    try (split; congruence).
  apply SFcompare_nan_l in E. tauto.
Qed.

Lemma SFleb_trans (x y z : spec_float) :
  SFleb x y = true -> SFleb y z = true -> SFleb x z = true.
Proof.
  unfold SFleb.
  destruct x as [sx|sx| |sx mx ex], y as [sy|sy| |sy my ey], z as [sz|sz| |sz mz ez];
    simpl; try congruence;
    try (destruct sx; simpl; congruence);
    try (destruct sy; simpl; congruence);
    try (destruct sz; simpl; congruence);
    try (destruct sx, sy; simpl; congruence);
    try (destruct sx, sz; simpl; congruence);
    try (destruct sy, sz; simpl; congruence);
    try (destruct sx, sy, sz; simpl; congruence).
  all: destruct sx, sy, sz; simpl; try congruence.
  all: destruct (Z.compare_spec ex ey), (Z.compare_spec ey ez), (Z.compare_spec ex ez);
      try lia; simpl; try congruence; subst.
  all: destruct (compare_cont_spec mx my), (compare_cont_spec my mz), (compare_cont_spec mx mz);
      try lia; simpl; congruence.
Qed.

Lemma leb_trans (x y z : float) :
  PrimFloat.leb x y = true -> PrimFloat.leb y z = true -> PrimFloat.leb x z = true.
Proof. rewrite !leb_spec. apply SFleb_trans. Qed.

Lemma leb_total (x y : float) :
  is_nan x = false -> is_nan y = false ->
  PrimFloat.leb x y = true \/ PrimFloat.leb y x = true.
Proof.
  intros Hx Hy. destruct (PrimFloat.ltb y x) eqn:E.
  - right. apply ltb_asym in E. now apply ltb_false_leb in E.
  - left. now apply ltb_false_leb in E.
Qed.

Lemma leb_not_nan (x y : float) :
  PrimFloat.leb x y = true -> is_nan x = false /\ is_nan y = false.
Proof.
  rewrite !is_nan_false, leb_spec. unfold SFleb. intros H.
  destruct (SFcompare (Prim2SF x) (Prim2SF y)) eqn:E; [|discriminate].
  split; intros N; rewrite N in E; simpl in E; try discriminate.
  destruct (Prim2SF x); discriminate.
Qed.

Lemma ltb_negtrans (x y z : float) :
  is_nan x = false -> is_nan y = false -> is_nan z = false ->
  PrimFloat.ltb x y = false -> PrimFloat.ltb y z = false -> PrimFloat.ltb x z = false.
Proof.
  intros Hx Hy Hz. rewrite !ltb_false_leb by assumption.
  intros A B. exact (leb_trans _ _ _ B A).
Qed.

(** Two numbers neither of which is below the other are equal, unless
    they are the two zeros. *)
Lemma SFcompare_eq (x y : spec_float) :
  SFcompare x y = Some Eq ->
  x = y \/ exists sx sy, x = S754_zero sx /\ y = S754_zero sy.
Proof.
  destruct x as [sx|sx| |sx mx ex], y as [sy|sy| |sy my ey]; simpl;
    try discriminate; try (destruct sx; discriminate); try (destruct sy; discriminate).
  - right; eauto.
  - destruct sx, sy; try discriminate; auto.
  - destruct sx, sy; try discriminate;
      destruct (Z.compare_spec ex ey); try discriminate; subst;
      destruct (compare_cont_spec mx my); try discriminate; subst; auto.
Qed.

Lemma ltb_antisym (x y : float) :
  is_nan x = false -> is_nan y = false ->
  PrimFloat.eqb x 0 = false ->
  PrimFloat.ltb x y = false -> PrimFloat.ltb y x = false -> x = y.
Proof.
  rewrite !is_nan_false, FloatAxioms.eqb_spec, !ltb_spec. unfold SFltb, SFeqb.
  intros Hx Hy Hz. rewrite (SFcompare_antisym (Prim2SF y) (Prim2SF x)).
  destruct (SFcompare (Prim2SF y) (Prim2SF x)) as [[]|] eqn:E; simpl; try discriminate.
  - intros _ _. apply SFcompare_eq in E. destruct E as [E|(sx & sy & E1 & E2)].
    + symmetry. now apply Prim2SF_inj.
    + rewrite E2 in Hz. discriminate.
  - apply SFcompare_nan_l in E. tauto.
Qed.

Lemma pos_finite (x : float) :
  PrimFloat.ltb 0 x = true -> PrimFloat.ltb x infinity = true ->
  exists m e, Prim2SF x = S754_finite false m e.
Proof.
  rewrite !ltb_spec. unfold SFltb.
  destruct (Prim2SF x) as [sx|sx| |sx mx ex]; simpl; try discriminate.
  - destruct sx; discriminate.
  - destruct sx; try discriminate. eauto.
Qed.

Lemma div_self (x : float) :
  PrimFloat.ltb 0 x = true -> PrimFloat.ltb x infinity = true ->
  PrimFloat.div x x = 1%float.
Proof.
  intros H0 Hi. destruct (pos_finite x H0 Hi) as (m & e & E).
  apply Prim2SF_inj. rewrite div_spec, E. unfold SF64div, SFdiv.
  unfold SFdiv_core_binary.
  replace (Zdigits2 (Z.pos m) + e - (Zdigits2 (Z.pos m) + e))%Z with 0%Z by lia.
  replace (e - e)%Z with 0%Z by lia.
  change (Z.min (fexp prec emax 0) 0) with (-53)%Z.
  change (0 - -53)%Z with 53%Z. cbv iota.
  replace (Z.div_eucl (Z.shiftl (Z.pos m) 53) (Z.pos m)) with (9007199254740992%Z, 0%Z).
  - unfold new_location, new_location_even, new_location_odd.
    change (0 =? 0)%Z with true. cbv iota.
    destruct (Z.even (Z.pos m)); reflexivity.
  - rewrite Z.shiftl_mul_pow2 by lia.
    rewrite (surjective_pairing (Z.div_eucl _ _)).
    change (fst (Z.div_eucl ?a ?b)) with (a / b)%Z.
    change (snd (Z.div_eucl ?a ?b)) with (a mod b)%Z.
    rewrite (Z.mul_comm (Z.pos m)), Z.div_mul, Z.mod_mul by lia.
    reflexivity.
Qed.
End DoubleFacts.

(** * The sorting algorithms meet the contract of [std::sort] *)

Section SortingAlgorithms.
Context {A : Type} (comp : A -> A -> bool).

Lemma insert_before_perm (x : A) (l : list A) :
  Permutation (x :: l) (insert_before comp x l).
Proof.
  induction l as [|y l IH]; simpl; [reflexivity|].
  destruct (comp y x); [|reflexivity].
  rewrite perm_swap. now apply perm_skip.
Qed.

Lemma insert_after_perm (x : A) (l : list A) :
  Permutation (x :: l) (insert_after comp x l).
Proof.
  induction l as [|y l IH]; simpl; [reflexivity|].
  destruct (comp x y); [reflexivity|].
  rewrite perm_swap. now apply perm_skip.
Qed.

Lemma stable_sort_perm (l : list A) : Permutation l (stable_sort comp l).
Proof.
  induction l as [|x l IH]; simpl; [constructor|].
  rewrite <- insert_before_perm. now apply perm_skip.
Qed.

Lemma reversing_sort_perm (l : list A) : Permutation l (reversing_sort comp l).
Proof.
  induction l as [|x l IH]; simpl; [constructor|].
  rewrite <- insert_after_perm. now apply perm_skip.
Qed.

(** The two laws of a strict weak ordering, on the elements that
    satisfy [dom]. *)
Variable dom : A -> Prop.
Hypothesis comp_asym : forall a b, dom a -> dom b -> comp a b = true -> comp b a = false.
Hypothesis comp_negtrans : forall a b c, dom a -> dom b -> dom c ->
  comp a b = false -> comp b c = false -> comp a c = false.

Lemma insert_before_sorted (x : A) (l : list A) :
  dom x -> Forall dom l -> sorted_by comp l -> sorted_by comp (insert_before comp x l).
Proof.
  unfold sorted_by. intros Hx Hl Hs. induction Hs as [|y l Hs IH Hy]; simpl.
  - repeat constructor.
  - inversion Hl as [|? ? Dy Dl]; subst.
    destruct (comp y x) eqn:E.
    + constructor; [now apply IH|].
      rewrite <- (insert_before_perm x l). constructor; [|assumption].
      now apply comp_asym.
    + constructor; [now constructor|].
      constructor; [assumption|].
      rewrite Forall_forall in Hy, Dl |- *. intros z Hz.
      apply (comp_negtrans z y x); auto.
Qed.

Lemma insert_after_sorted (x : A) (l : list A) :
  dom x -> Forall dom l -> sorted_by comp l -> sorted_by comp (insert_after comp x l).
Proof.
  unfold sorted_by. intros Hx Hl Hs. induction Hs as [|y l Hs IH Hy]; simpl.
  - repeat constructor.
  - inversion Hl as [|? ? Dy Dl]; subst.
    destruct (comp x y) eqn:E.
    + constructor; [now constructor|].
      assert (comp y x = false) as Eyx by now apply comp_asym.
      constructor; [assumption|].
      rewrite Forall_forall in Hy, Dl |- *. intros z Hz.
      apply (comp_negtrans z y x); auto.
    + constructor; [now apply IH|].
      rewrite <- (insert_after_perm x l). now constructor.
Qed.

Lemma stable_sort_sorted (l : list A) :
  Forall dom l -> sorted_by comp (stable_sort comp l).
Proof.
  induction 1 as [|x l Hx Hl IH]; simpl; [constructor|].
  apply insert_before_sorted; auto.
  now rewrite <- (stable_sort_perm l).
Qed.

Lemma reversing_sort_sorted (l : list A) :
  Forall dom l -> sorted_by comp (reversing_sort comp l).
Proof.
  induction 1 as [|x l Hx Hl IH]; simpl; [constructor|].
  apply insert_after_sorted; auto.
  now rewrite <- (reversing_sort_perm l).
Qed.

End SortingAlgorithms.

Lemma strict_weak_on_dom {A : Type} (comp : A -> A -> bool) (l : list A) :
  strict_weak_on comp l ->
  (forall a b, In a l -> In b l -> comp a b = true -> comp b a = false) /\
  (forall a b c, In a l -> In b l -> In c l ->
     comp a b = false -> comp b c = false -> comp a c = false) /\
  Forall (fun a => In a l) l.
Proof.
  intros [H1 H2]. repeat split; auto. now apply List.Forall_forall.
Qed.

(** The stable algorithm and the reversing one both meet the contract
    of [std::sort]. *)
Definition stable_algorithm : StdAlgorithm.
Proof.
  refine {| std_sort := @stable_sort |}.
  intros A comp l H. apply strict_weak_on_dom in H as (H1 & H2 & H3). split.
  - apply stable_sort_perm.
  - now apply (stable_sort_sorted comp (fun a => In a l)).
Defined.

Definition reversing_algorithm : StdAlgorithm.
Proof.
  refine {| std_sort := @reversing_sort |}.
  intros A comp l H. apply strict_weak_on_dom in H as (H1 & H2 & H3). split.
  - apply reversing_sort_perm.
  - now apply (reversing_sort_sorted comp (fun a => In a l)).
Defined.

(** * The sort of libstdc++ meets the contract of [std::sort] *)

Section LibstdcxxSort.
Import Libstdcxx.
Context {A : Type} (comp : A -> A -> bool).

(** ** Every step before the final insertion sort rearranges *)

Lemma iter_swap_perm (a : list A) (i j : nat) : Permutation a (iter_swap a i j).
Proof.
  unfold iter_swap.
  destruct (a !! i) as [x|] eqn:Ei; [|reflexivity].
  destruct (a !! j) as [y|] eqn:Ej; [|reflexivity].
  symmetry. now apply Permutation_insert_swap.
Qed.

Lemma move_median_to_first_perm (a : list A) (result x y z : nat) :
  Permutation a (move_median_to_first comp a result x y z).
Proof.
  unfold move_median_to_first.
  repeat match goal with |- context [if ?c then _ else _] => destruct c end;
    apply iter_swap_perm.
Qed.

Lemma unguarded_partition_perm (fuel : nat) (a : list A) (first last pivot : nat) :
  Permutation a (fst (unguarded_partition comp fuel a first last pivot)).
Proof.
  revert a first last. induction fuel as [|fuel IH]; intros a first last; simpl.
  - reflexivity.
  - destruct (negb _); [reflexivity|].
    etransitivity; [apply iter_swap_perm|apply IH].
Qed.

Lemma unguarded_partition_pivot_perm (a : list A) (first last : nat) :
  Permutation a (fst (unguarded_partition_pivot comp a first last)).
Proof.
  unfold unguarded_partition_pivot.
  etransitivity; [apply move_median_to_first_perm|apply unguarded_partition_perm].
Qed.

Lemma push_heap_perm (fuel : nat) (a : list A) (first holeIndex topIndex : nat) :
  Permutation a (push_heap comp fuel a first holeIndex topIndex).
Proof.
  revert a holeIndex. induction fuel as [|fuel IH]; intros a holeIndex; simpl.
  - reflexivity.
  - destruct (_ && _); [|reflexivity].
    etransitivity; [apply iter_swap_perm|apply IH].
Qed.

Lemma sift_down_perm (fuel : nat) (a : list A) (first secondChild len : nat) :
  Permutation a (fst (sift_down comp fuel a first secondChild len)).
Proof.
  revert a secondChild. induction fuel as [|fuel IH]; intros a secondChild; simpl.
  - reflexivity.
  - destruct (_ <? _); [|reflexivity].
    etransitivity; [apply iter_swap_perm|apply IH].
Qed.

Lemma adjust_heap_perm (a : list A) (first holeIndex len : nat) :
  Permutation a (adjust_heap comp a first holeIndex len).
Proof.
  unfold adjust_heap.
  pose proof (sift_down_perm (length a) a first holeIndex len) as H1.
  destruct (sift_down comp (length a) a first holeIndex len) as [a1 sc]. simpl in H1.
  destruct (_ && _).
  - etransitivity; [exact H1|]. etransitivity; [apply iter_swap_perm|apply push_heap_perm].
  - etransitivity; [exact H1|apply push_heap_perm].
Qed.

Lemma pop_heap_perm (a : list A) (first last result : nat) :
  Permutation a (pop_heap comp a first last result).
Proof.
  unfold pop_heap. etransitivity; [apply iter_swap_perm|apply adjust_heap_perm].
Qed.

Lemma make_heap_perm (a : list A) (first last : nat) :
  Permutation a (make_heap comp a first last).
Proof.
  unfold make_heap. destruct (_ <? _); [reflexivity|].
  generalize ((last - first - 2) / 2) as parent. intros parent. revert a.
  induction parent as [|parent IH]; intros a; simpl.
  - apply adjust_heap_perm.
  - etransitivity; [apply adjust_heap_perm|apply IH].
Qed.

Lemma sort_heap_perm (fuel : nat) (a : list A) (first last : nat) :
  Permutation a (sort_heap comp fuel a first last).
Proof.
  revert a last. induction fuel as [|fuel IH]; intros a last; simpl.
  - reflexivity.
  - destruct (_ <? _); [|reflexivity].
    etransitivity; [apply pop_heap_perm|apply IH].
Qed.

Lemma heap_select_perm (a : list A) (first middle last : nat) :
  Permutation a (heap_select comp a first middle last).
Proof.
  unfold heap_select.
  etransitivity; [apply (make_heap_perm a first middle)|].
  generalize (make_heap comp a first middle) as b.
  generalize (seq middle (last - middle)) as indices.
  induction indices as [|i indices IH]; intros b; simpl; [reflexivity|].
  destruct (comp_at comp b i first); [|apply IH].
  etransitivity; [apply pop_heap_perm|apply IH].
Qed.

Lemma partial_sort_perm (a : list A) (first middle last : nat) :
  Permutation a (partial_sort comp a first middle last).
Proof.
  unfold partial_sort.
  etransitivity; [apply heap_select_perm|apply sort_heap_perm].
Qed.

Lemma introsort_loop_perm (depth_limit : nat) (a : list A) (first last : nat) :
  Permutation a (introsort_loop comp depth_limit a first last).
Proof.
  revert a first last. induction depth_limit as [|d IH]; intros a first last; simpl.
  - destruct (_ <? _); [apply partial_sort_perm|reflexivity].
  - destruct (_ <? _); [|reflexivity].
    pose proof (unguarded_partition_pivot_perm a first last) as H1.
    destruct (unguarded_partition_pivot comp a first last) as [a1 cut]. simpl in H1.
    etransitivity; [exact H1|]. etransitivity; apply IH.
Qed.

(** ** The final insertion sort rearranges and sorts *)

Lemma unguarded_linear_insert_perm (val : A) (before : list A) :
  Permutation (val :: before) (unguarded_linear_insert comp val before).
Proof.
  induction before as [|next rest IH]; simpl; [reflexivity|].
  destruct (comp val next); [|reflexivity].
  rewrite perm_swap. now apply perm_skip.
Qed.

Lemma insertion_step_perm (before : list A) (val : A) :
  Permutation (val :: before) (insertion_step comp before val).
Proof.
  unfold insertion_step. destruct (last before) as [first|] eqn:E.
  - destruct (comp val first).
    + apply Permutation_cons_append.
    + apply unguarded_linear_insert_perm.
  - apply last_None in E. now subst.
Qed.

Lemma insertion_sort_from_perm (run before : list A) :
  Permutation (before ++ run) (fold_left (insertion_step comp) run before).
Proof.
  revert before. induction run as [|val run IH]; intros before; simpl.
  - now rewrite app_nil_r.
  - rewrite <- IH, <- insertion_step_perm.
    simpl. symmetry. apply Permutation_middle.
Qed.

Lemma unguarded_insertion_sort_perm (run before : list A) :
  Permutation (before ++ run) (unguarded_insertion_sort comp before run).
Proof.
  unfold unguarded_insertion_sort.
  revert before. induction run as [|val run IH]; intros before; simpl.
  - now rewrite app_nil_r.
  - rewrite <- IH, <- unguarded_linear_insert_perm.
    simpl. symmetry. apply Permutation_middle.
Qed.

Lemma final_insertion_sort_perm (a : list A) :
  Permutation a (final_insertion_sort comp a).
Proof.
  unfold final_insertion_sort. destruct (_ <? _).
  - rewrite <- Permutation_rev, <- unguarded_insertion_sort_perm.
    unfold insertion_sort. rewrite <- insertion_sort_from_perm. simpl.
    now rewrite firstn_skipn.
  - rewrite <- Permutation_rev. unfold insertion_sort.
    now rewrite <- insertion_sort_from_perm.
Qed.

Lemma sort_perm (a : list A) : Permutation a (sort comp a).
Proof.
  unfold sort. destruct a as [|x a]; [reflexivity|].
  etransitivity; [apply introsort_loop_perm|apply final_insertion_sort_perm].
Qed.

(** The two laws of a strict weak ordering, on the elements that
    satisfy [dom]. *)
Variable dom : A -> Prop.
Hypothesis comp_asym : forall a b, dom a -> dom b -> comp a b = true -> comp b a = false.
Hypothesis comp_negtrans : forall a b c, dom a -> dom b -> dom c ->
  comp a b = false -> comp b c = false -> comp a c = false.

(** A run given from its last element to its first is sorted when no
    element is less than one that comes after it in this order. *)
Definition sorted_backwards (before : list A) : Prop :=
  StronglySorted (fun later earlier => comp later earlier = false) before.

Lemma unguarded_linear_insert_sorted (val : A) (before : list A) :
  dom val -> Forall dom before -> sorted_backwards before ->
  sorted_backwards (unguarded_linear_insert comp val before).
Proof.
  unfold sorted_backwards. intros Hv Hd Hs.
  induction Hs as [|next rest Hs IH Hn]; simpl.
  - repeat constructor.
  - inversion Hd as [|? ? Dn Dr]; subst.
    destruct (comp val next) eqn:E.
    + constructor; [now apply IH|].
      rewrite <- (unguarded_linear_insert_perm val rest).
      constructor; [now apply comp_asym|assumption].
    + constructor; [now constructor|].
      constructor; [assumption|].
      rewrite List.Forall_forall in Hn, Dr |- *. intros z Hz.
      apply (comp_negtrans val next z); auto.
Qed.

Lemma sorted_backwards_snoc (before : list A) (val : A) :
  sorted_backwards before -> Forall (fun z => comp z val = false) before ->
  sorted_backwards (before ++ [val]).
Proof.
  unfold sorted_backwards. intros Hs Hv.
  induction Hs as [|w rest Hs IH Hw]; simpl.
  - repeat constructor.
  - inversion Hv as [|? ? Hwv Hrv]; subst.
    constructor; [now apply IH|].
    apply Forall_app. split; [assumption|now repeat constructor].
Qed.

Lemma sorted_backwards_last (front : list A) (first : A) :
  sorted_backwards (front ++ [first]) ->
  Forall (fun z => comp z first = false) front.
Proof.
  unfold sorted_backwards. induction front as [|w front IH]; simpl; intros Hs.
  - constructor.
  - inversion Hs as [|? ? Hs' Hw]; subst.
    constructor; [|now apply IH].
    apply Forall_app in Hw as [_ Hw]. now inversion Hw.
Qed.

Lemma insertion_step_sorted (before : list A) (val : A) :
  dom val -> Forall dom before -> sorted_backwards before ->
  sorted_backwards (insertion_step comp before val).
Proof.
  intros Hv Hd Hs. unfold insertion_step.
  destruct (last before) as [first|] eqn:E; [|repeat constructor].
  destruct (comp val first) eqn:C; [|now apply unguarded_linear_insert_sorted].
  apply last_Some in E as [front ->].
  apply Forall_app in Hd as [Hdf Hd1]. inversion Hd1 as [|? ? Df _]; subst.
  assert (comp first val = false) as Cfv by now apply comp_asym.
  apply sorted_backwards_snoc; [assumption|].
  apply Forall_app. split; [|now repeat constructor].
  pose proof (sorted_backwards_last front first Hs) as Hzf.
  rewrite List.Forall_forall in Hdf, Hzf |- *. intros z Hz.
  apply (comp_negtrans z first val); auto.
Qed.

Lemma insertion_sort_from_sorted (run before : list A) :
  Forall dom run -> Forall dom before -> sorted_backwards before ->
  sorted_backwards (fold_left (insertion_step comp) run before).
Proof.
  revert before. induction run as [|val run IH]; intros before Hr Hb Hs; simpl.
  - assumption.
  - inversion Hr as [|? ? Hv Hr']; subst.
    apply IH; [assumption| |now apply insertion_step_sorted].
    rewrite <- (insertion_step_perm before val). now constructor.
Qed.

Lemma unguarded_insertion_sort_sorted (run before : list A) :
  Forall dom run -> Forall dom before -> sorted_backwards before ->
  sorted_backwards (unguarded_insertion_sort comp before run).
Proof.
  unfold unguarded_insertion_sort.
  revert before. induction run as [|val run IH]; intros before Hr Hb Hs; simpl.
  - assumption.
  - inversion Hr as [|? ? Hv Hr']; subst.
    apply IH; [assumption| |now apply unguarded_linear_insert_sorted].
    rewrite <- (unguarded_linear_insert_perm val before). now constructor.
Qed.

Lemma sorted_backwards_rev (before : list A) :
  sorted_backwards before -> sorted_by comp (rev before).
Proof.
  unfold sorted_backwards, sorted_by. intros Hs.
  induction Hs as [|w rest Hs IH Hw]; simpl.
  - constructor.
  - clear Hs. revert IH. 
    assert (Forall (fun z => comp w z = false) (rev rest)) as Hr.
    { rewrite List.Forall_forall in Hw |- *. intros z Hz. apply Hw.
      now apply in_rev. }
    clear Hw. induction (rev rest) as [|z l IHl]; simpl; intros Hl.
    + repeat constructor.
    + inversion Hl as [|? ? Hl' Hz]; subst. inversion Hr as [|? ? Hwz Hr']; subst.
      constructor; [now apply IHl|].
      apply Forall_app. split; [assumption|now repeat constructor].
Qed.

Lemma final_insertion_sort_sorted (a : list A) :
  Forall dom a -> sorted_by comp (final_insertion_sort comp a).
Proof.
  intros Ha. unfold final_insertion_sort. destruct (_ <? _).
  - apply sorted_backwards_rev.
    rewrite <- (firstn_skipn _S_threshold a) in Ha.
    apply Forall_app in Ha as [Hf Hs].
    apply unguarded_insertion_sort_sorted; [assumption| |].
    + unfold insertion_sort. rewrite <- insertion_sort_from_perm. assumption.
    + apply insertion_sort_from_sorted; [assumption|constructor|constructor].
  - apply sorted_backwards_rev.
    apply insertion_sort_from_sorted; [assumption|constructor|constructor].
Qed.

Lemma sort_sorted (a : list A) : Forall dom a -> sorted_by comp (sort comp a).
Proof.
  intros Ha. unfold sort. destruct a as [|x a]; [constructor|].
  apply final_insertion_sort_sorted.
  now rewrite <- (introsort_loop_perm _ (x :: a) 0 (length (x :: a))).
Qed.
End LibstdcxxSort.

(** libstdc++'s [std::sort] as an algorithm that meets the contract. *)
Definition libstdcxx_algorithm : StdAlgorithm.
Proof.
  refine {| std_sort := @Libstdcxx.sort |}.
  intros A comp l H.
  destruct (strict_weak_on_dom comp l H) as (H1 & H2 & H3).
  split.
  - apply sort_perm.
  - now apply (sort_sorted comp (fun a => In a l)).
Defined.

(** The model on 25 entries, a score in tenths paired with the position
    in the input, sorted by descending score: the order GCC 12 leaves. *)
Lemma libstdcxx_sort_mixed :
  map snd
    (Libstdcxx.sort (fun a b : nat * nat => fst b <? fst a)
       (combine [3; 9; 5; 5; 1; 9; 3; 5; 7; 7; 2; 5; 9; 1; 3; 5; 6; 5; 4; 5; 9; 2; 5; 8; 5]
          (seq 0 25)))
  = [1; 20; 12; 5; 23; 8; 9; 16; 3; 24; 22; 19; 17; 15; 2; 11; 7; 18; 14; 0; 6; 10;
     21; 13; 4].
Proof. vm_compute. reflexivity. Qed.


(** * The price predictor *)

Import Cpp MLPredictor SearchEngine.

(** ** Category encodings *)

Lemma encodeCategorical_present (v : string) (m : gmap string Z) (c : Z) :
  m !! v = Some c -> encodeCategorical v m = (c, m).
Proof. unfold encodeCategorical. now intros ->. Qed.

Lemma encodeCategorical_absent (v : string) (m : gmap string Z) :
  m !! v = None ->
  encodeCategorical v m = (Z.of_nat (size m), <[v := Z.of_nat (size m)]> m).
Proof. unfold encodeCategorical. now intros ->. Qed.

Lemma encodeCategorical_keeps (v k : string) (m : gmap string Z) (c : Z) :
  m !! k = Some c -> snd (encodeCategorical v m) !! k = Some c.
Proof.
  intros Hk. unfold encodeCategorical.
  destruct (m !! v) eqn:E; simpl; [assumption|].
  rewrite lookup_insert_ne; [assumption|congruence].
Qed.

Lemma encodeCategorical_has (v : string) (m : gmap string Z) :
  is_Some (snd (encodeCategorical v m) !! v).
Proof.
  unfold encodeCategorical. destruct (m !! v) eqn:E; simpl.
  - rewrite E. eauto.
  - rewrite lookup_insert_eq. eauto.
Qed.

(** The table after the values [vs] have been encoded in turn. *)
Definition encode_all (vs : list string) (m : gmap string Z) : gmap string Z :=
  fold_left (fun m v => snd (encodeCategorical v m)) vs m.

Lemma encode_all_keeps (vs : list string) (m : gmap string Z) (k : string) :
  is_Some (m !! k) -> is_Some (encode_all vs m !! k).
Proof.
  revert m. induction vs as [|v vs IH]; intros m Hk; simpl; [assumption|].
  apply IH. destruct Hk as [c Hc]. exists c. now apply encodeCategorical_keeps.
Qed.

Lemma encode_all_dom (vs : list string) (m : gmap string Z) (k : string) :
  is_Some (encode_all vs m !! k) <-> is_Some (m !! k) \/ In k vs.
Proof.
  revert m. induction vs as [|v vs IH]; intros m; simpl.
  - tauto.
  - rewrite IH. split.
    + intros [H|H]; [|tauto].
      unfold encodeCategorical in H. destruct (m !! v) eqn:E; simpl in H; [tauto|].
      destruct (decide (v = k)) as [->|N]; [tauto|].
      rewrite lookup_insert_ne in H by assumption. tauto.
    + intros [H|[->|H]]; [| |tauto].
      * left. destruct H as [c Hc]. exists c. now apply encodeCategorical_keeps.
      * left. apply encodeCategorical_has.
Qed.

Lemma initializeEncodings_fold (data : list Property.t) (s0 : t) :
  let s :=
    fold_left
      (fun s property =>
         let s1 := set_city_encoding s
                     (snd (encodeCategorical (Property.getCity property) (city_encoding_ s))) in
         set_type_encoding s1
           (snd (encodeCategorical (Property.getType property) (type_encoding_ s1))))
      data s0 in
  city_encoding_ s = encode_all (map Property.getCity data) (city_encoding_ s0) /\
  type_encoding_ s = encode_all (map Property.getType data) (type_encoding_ s0).
Proof.
  revert s0. induction data as [|p data IH]; intros s0; simpl; [tauto|].
  apply IH.
Qed.

Lemma initializeEncodings_tables (self : t) (data : list Property.t) :
  city_encoding_ (initializeEncodings self data)
    = encode_all (map Property.getCity data) ∅ /\
  type_encoding_ (initializeEncodings self data)
    = encode_all (map Property.getType data) ∅.
Proof. apply initializeEncodings_fold. Qed.

(** What [extractFeatures] does to the two tables. *)
Lemma extractFeatures_tables (self : t) (p : Property.t) :
  city_encoding_ (snd (extractFeatures self p))
    = snd (encodeCategorical (Property.getCity p) (city_encoding_ self)) /\
  type_encoding_ (snd (extractFeatures self p))
    = snd (encodeCategorical (Property.getType p) (type_encoding_ self)).
Proof.
  unfold extractFeatures.
  destruct (encodeCategorical _ (city_encoding_ self)) as [c ce]; simpl.
  destruct (encodeCategorical _ (type_encoding_ self)) as [c' te]; simpl. tauto.
Qed.

Lemma extractFeatures_length (self : t) (p : Property.t) :
  length (fst (extractFeatures self p)) = 9%nat.
Proof.
  unfold extractFeatures.
  destruct (encodeCategorical _ _) as [c ce]; simpl.
  destruct (encodeCategorical _ _) as [c' te]; reflexivity.
Qed.

(** [extractFeatures] touches nothing but the two tables. *)
Lemma extractFeatures_frame (self : t) (p : Property.t) :
  let s := snd (extractFeatures self p) in
  model_type_ s = model_type_ self /\ is_trained_ s = is_trained_ self /\
  weights_ s = weights_ self /\ bias_ s = bias_ self /\
  feature_means_ s = feature_means_ self /\ feature_stds_ s = feature_stds_ self.
Proof.
  unfold extractFeatures.
  destruct (encodeCategorical _ _) as [c ce]; simpl.
  destruct (encodeCategorical _ _) as [c' te]; simpl. repeat split.
Qed.

Lemma extract_all_tables (data : list Property.t) (rows : list (list float)) (s0 : t) :
  let s :=
    snd (fold_left
           (fun acc property =>
              let '(row, s) := extractFeatures (snd acc) property in
              (fst acc ++ [row], s))
           data (rows, s0)) in
  city_encoding_ s = encode_all (map Property.getCity data) (city_encoding_ s0) /\
  type_encoding_ s = encode_all (map Property.getType data) (type_encoding_ s0).
Proof.
  revert rows s0. induction data as [|p data IH]; intros rows s0; simpl; [tauto|].
  pose proof (extractFeatures_tables s0 p) as [Hc Ht].
  destruct (extractFeatures s0 p) as [row s1]; simpl in *.
  specialize (IH (rows ++ [row]) s1). simpl in IH. now rewrite Hc, Ht in IH.
Qed.

(** Encoding values the table already has changes nothing. *)
Lemma encode_all_known (vs : list string) (m : gmap string Z) :
  (forall v, In v vs -> is_Some (m !! v)) -> encode_all vs m = m.
Proof.
  induction vs as [|v vs IH]; intros H; simpl; [reflexivity|].
  destruct (H v) as [c Hc]; [now left|].
  rewrite (encodeCategorical_present v m c Hc). simpl.
  apply IH. intros w Hw. apply H. now right.
Qed.

Lemma calculateNormalizationParams_tables (self : t) (X : list (list float)) :
  city_encoding_ (calculateNormalizationParams self X) = city_encoding_ self /\
  type_encoding_ (calculateNormalizationParams self X) = type_encoding_ self.
Proof. destruct X; simpl; tauto. Qed.

Lemma trainLinearRegression_tables (self : t) (X : list (list float)) (y : list float) :
  city_encoding_ (trainLinearRegression self X y) = city_encoding_ self /\
  type_encoding_ (trainLinearRegression self X y) = type_encoding_ self.
Proof.
  unfold trainLinearRegression. destruct X as [|first X]; [tauto|].
  destruct (negb _); [tauto|].
  destruct (Nat.iter _ _ _) as [w b]. simpl. tauto.
Qed.

Lemma trainModel_nonempty (self : t) (data : list Property.t) :
  data <> [] ->
  trainModel self data =
    (let s1 := initializeEncodings self data in
     let '(X, s2) := extract_all s1 data in
     let y := map Property.getPrice data in
     let s3 := calculateNormalizationParams s2 X in
     let Xn := map (normalizeFeatureVector s3) X in
     let s4 :=
       if String.eqb (model_type_ s3) "linear_regression"
       then trainLinearRegression s3 Xn y else s3 in
     (true, set_is_trained s4 true)).
Proof. destruct data; [congruence|reflexivity]. Qed.

(** After a training that succeeds, the two tables are the ones built
    from the training listings, in their order. *)
Lemma trainModel_tables (self : t) (data : list Property.t) :
  data <> [] ->
  fst (trainModel self data) = true /\
  is_trained_ (snd (trainModel self data)) = true /\
  city_encoding_ (snd (trainModel self data))
    = encode_all (map Property.getCity data) ∅ /\
  type_encoding_ (snd (trainModel self data))
    = encode_all (map Property.getType data) ∅.
Proof.
  intros Hne. rewrite (trainModel_nonempty self data Hne). cbv zeta.
  pose proof (initializeEncodings_tables self data) as [Ic It].
  pose proof (extract_all_tables data [] (initializeEncodings self data)) as [Ec Et].
  unfold extract_all.
  destruct (fold_left _ data ([], initializeEncodings self data)) as [X s2].
  cbn [snd] in Ec, Et.
  rewrite Ic in Ec. rewrite It in Et.
  rewrite encode_all_known in Ec
    by (intros v Hv; apply encode_all_dom; now right).
  rewrite encode_all_known in Et
    by (intros v Hv; apply encode_all_dom; now right).
  pose proof (calculateNormalizationParams_tables s2 X) as [Nc Nt].
  set (s3 := calculateNormalizationParams s2 X) in *.
  pose proof (trainLinearRegression_tables s3 (map (normalizeFeatureVector s3) X)
                (map Property.getPrice data)) as [Lc Lt].
  destruct (String.eqb (model_type_ s3) "linear_regression"); simpl;
    repeat split; congruence.
Qed.

(** A prediction by a trained model leaves the object [extractFeatures]
    leaves. *)
Lemma predictPrice_trained (self : t) (p : Property.t) :
  is_trained_ self = true ->
  predictPrice self p =
    (predict (snd (extractFeatures self p))
       (normalizeFeatureVector (snd (extractFeatures self p))
          (fst (extractFeatures self p))),
     snd (extractFeatures self p)).
Proof.
  intros H. unfold predictPrice. rewrite H. simpl.
  now destruct (extractFeatures self p).
Qed.

Lemma trained_city_known (self : t) (data : list Property.t) (k : string) :
  data <> [] ->
  is_Some (city_encoding_ (snd (trainModel self data)) !! k)
  <-> In k (map Property.getCity data).
Proof.
  intros Hne. destruct (trainModel_tables self data Hne) as (_ & _ & -> & _).
  rewrite encode_all_dom, lookup_empty. split; [intros [[? ?]|?]|]; auto; discriminate.
Qed.

Lemma trained_type_known (self : t) (data : list Property.t) (k : string) :
  data <> [] ->
  is_Some (type_encoding_ (snd (trainModel self data)) !! k)
  <-> In k (map Property.getType data).
Proof.
  intros Hne. destruct (trainModel_tables self data Hne) as (_ & _ & _ & ->).
  rewrite encode_all_dom, lookup_empty. split; [intros [[? ?]|?]|]; auto; discriminate.
Qed.

(** What one [encodeCategorical] call does to a table: nothing when it
    knows the value, else the value enters under the table's size. *)
Definition grown (value : string) (before after : gmap string Z) : Prop :=
  match before !! value with
  | Some _ => after = before
  | None => after = <[value := Z.of_nat (size before)]> before
  end.

Lemma encodeCategorical_grown (v : string) (m : gmap string Z) :
  grown v m (snd (encodeCategorical v m)).
Proof. unfold grown, encodeCategorical. now destruct (m !! v). Qed.


(** C1 (as amended). After a training on a non-empty listing set, a
    prediction keeps every code of the two tables. A table is left
    exactly as training built it when the listing's city (property type)
    occurred in the training set; a city (type) that did not occur is
    added by the prediction call, under the next free code, which is the
    size of the table. *)
Theorem C1_prediction_grows_encodings (self : t) (data : list Property.t) (p : Property.t) :
  data <> [] ->
  let model := snd (trainModel self data) in
  let after := snd (predictPrice model p) in
  (In (Property.getCity p) (map Property.getCity data) ->
     city_encoding_ after = city_encoding_ model) /\
  (In (Property.getType p) (map Property.getType data) ->
     type_encoding_ after = type_encoding_ model) /\
  (~ In (Property.getCity p) (map Property.getCity data) ->
     city_encoding_ model !! Property.getCity p = None /\
     city_encoding_ after
       = <[Property.getCity p := Z.of_nat (size (city_encoding_ model))]>
           (city_encoding_ model)) /\
  (~ In (Property.getType p) (map Property.getType data) ->
     type_encoding_ model !! Property.getType p = None /\
     type_encoding_ after
       = <[Property.getType p := Z.of_nat (size (type_encoding_ model))]>
           (type_encoding_ model)) /\
  (forall k c, city_encoding_ model !! k = Some c -> city_encoding_ after !! k = Some c) /\
  (forall k c, type_encoding_ model !! k = Some c -> type_encoding_ after !! k = Some c).
Proof.
  intros Hne model after.
  destruct (trainModel_tables self data Hne) as (_ & Htr & _ & _).
  pose proof (trained_city_known self data (Property.getCity p) Hne) as Kc.
  pose proof (trained_type_known self data (Property.getType p) Hne) as Kt.
  fold model in Htr, Kc, Kt.
  subst after. rewrite (predictPrice_trained model p Htr). cbn [snd].
  destruct (extractFeatures_tables model p) as [-> ->].
  pose proof (encodeCategorical_grown (Property.getCity p) (city_encoding_ model)) as Gc.
  pose proof (encodeCategorical_grown (Property.getType p) (type_encoding_ model)) as Gt.
  unfold grown in Gc, Gt.
  repeat split.
  - intros H. apply Kc in H. destruct H as [c Hc]. now rewrite Hc in Gc.
  - intros H. apply Kt in H. destruct H as [c Hc]. now rewrite Hc in Gt.
  - destruct (city_encoding_ model !! Property.getCity p) eqn:E; [|reflexivity].
    exfalso. apply H, Kc. eauto.
  - destruct (city_encoding_ model !! Property.getCity p) eqn:E; [|assumption].
    exfalso. apply H, Kc. eauto.
  - destruct (type_encoding_ model !! Property.getType p) eqn:E; [|reflexivity].
    exfalso. apply H, Kt. eauto.
  - destruct (type_encoding_ model !! Property.getType p) eqn:E; [|assumption].
    exfalso. apply H, Kt. eauto.
  - intros k c. apply encodeCategorical_keeps.
  - intros k c. apply encodeCategorical_keeps.
Qed.

Lemma C1_counterexample :
  let model := snd (trainModel new [Samples.pune_flat]) in
  ~ In (Property.getCity Samples.delhi_villa) (map Property.getCity [Samples.pune_flat]) /\
  city_encoding_ (snd (predictPrice model Samples.delhi_villa)) <> city_encoding_ model.
Proof.
  split.
  - simpl. intros [H|[]]. discriminate.
  - intros H. apply (f_equal (fun m => m !! "Delhi")) in H.
    vm_compute in H. discriminate.
Qed.

Lemma C1_witness :
  let model := snd (trainModel new [Samples.pune_flat; Samples.delhi_villa]) in
  city_encoding_ (snd (predictPrice model Samples.goa_flat))
    = <["Goa" := 2%Z]> (city_encoding_ model) /\
  type_encoding_ (snd (predictPrice model Samples.goa_flat)) = type_encoding_ model.
Proof.
  pose proof (C1_prediction_grows_encodings new
                [Samples.pune_flat; Samples.delhi_villa] Samples.goa_flat
                ltac:(discriminate)) as (_ & Ht & Hc & _).
  split.
  - apply Hc. simpl. intros [H|[H|[]]]; discriminate.
  - apply Ht. simpl. auto.
Defined.

(** ** Prediction *)

(** The value the specification gives for a trained model:
    [bias + Σ weight_i · feature_i], the terms added in order. *)
Definition affine_combination (bias : float) (weights features : list float) : float :=
  fold_left PrimFloat.add (map (fun wf => fst wf * snd wf)%float (combine weights features)) bias.

Lemma dot_from_affine (bias : float) (weights features : list float) :
  dot_from bias weights features = affine_combination bias weights features.
Proof.
  unfold dot_from, affine_combination.
  generalize (combine weights features) as l. intros l. revert bias.
  induction l as [|wf l IH]; intros bias; simpl; [reflexivity|apply IH].
Qed.

Lemma normalizeFeatureVector_length (self : t) (features : list float) :
  length (normalizeFeatureVector self features) = length features.
Proof. unfold normalizeFeatureVector. apply length_imap. Qed.

(** Normalization reads the means and deviations only. *)
Lemma normalizeFeatureVector_ext (s1 s2 : t) (features : list float) :
  feature_means_ s1 = feature_means_ s2 -> feature_stds_ s1 = feature_stds_ s2 ->
  normalizeFeatureVector s1 features = normalizeFeatureVector s2 features.
Proof. unfold normalizeFeatureVector. now intros -> ->. Qed.

Lemma ltb_not_nan (x y : float) :
  PrimFloat.ltb x y = true -> is_nan x = false /\ is_nan y = false.
Proof.
  rewrite !DoubleFacts.is_nan_false, ltb_spec. unfold SFltb. intros H.
  destruct (SFcompare (Prim2SF x) (Prim2SF y)) eqn:E; [|discriminate].
  split; intros N; rewrite N in E; simpl in E; try discriminate.
  destruct (Prim2SF x); discriminate.
Qed.

(** [std::max(0.0, r)] is a number that is not below zero. *)
Lemma std_max_zero (r : float) :
  PrimFloat.ltb (std_max 0 r) 0 = false /\ is_nan (std_max 0 r) = false.
Proof.
  unfold std_max. destruct (PrimFloat.ltb 0 r) eqn:E.
  - split; [now apply DoubleFacts.ltb_asym | now apply ltb_not_nan in E].
  - split; reflexivity.
Qed.

(** The normalized features [predictPrice] works on. *)
Definition normalized_features (self : t) (p : Property.t) : list float :=
  normalizeFeatureVector self (fst (extractFeatures self p)).

Lemma predictPrice_value (self : t) (p : Property.t) :
  is_trained_ self = true ->
  fst (predictPrice self p)
    = predict_with (weights_ self) (bias_ self) (normalized_features self p).
Proof.
  intros H. rewrite (predictPrice_trained self p H). cbn [fst].
  destruct (extractFeatures_frame self p) as (_ & _ & Hw & Hb & Hm & Hs).
  unfold predict, normalized_features. rewrite Hw, Hb.
  now rewrite (normalizeFeatureVector_ext _ self _ Hm Hs).
Qed.

Lemma normalized_features_length (self : t) (p : Property.t) :
  length (normalized_features self p) = 9%nat.
Proof.
  unfold normalized_features.
  now rewrite normalizeFeatureVector_length, extractFeatures_length.
Qed.

(** C7 (as amended). An untrained model predicts 0 and is left as it
    was. A trained model that holds nine weights predicts
    [max(0, bias + Σ weight_i · normalized_feature_i)]; a trained model
    with another number of weights predicts 0. The prediction is never
    negative (and never a NaN). *)
Theorem C7_predictPrice_value (self : t) (p : Property.t) :
  (is_trained_ self = false -> predictPrice self p = (0%float, self)) /\
  (is_trained_ self = true -> length (weights_ self) = 9%nat ->
     fst (predictPrice self p)
       = std_max 0 (affine_combination (bias_ self) (weights_ self)
                      (normalized_features self p))) /\
  (is_trained_ self = true -> length (weights_ self) <> 9%nat ->
     fst (predictPrice self p) = 0%float) /\
  PrimFloat.ltb (fst (predictPrice self p)) 0 = false /\
  is_nan (fst (predictPrice self p)) = false.
Proof.
  assert (forall r, r = 0%float \/ (exists x, r = std_max 0 x) ->
          PrimFloat.ltb r 0 = false /\ is_nan r = false) as Hsign.
  { intros r [->|[x ->]]; [split; reflexivity|apply std_max_zero]. }
  destruct (is_trained_ self) eqn:Ht.
  - pose proof (predictPrice_value self p Ht) as Hv.
    pose proof (normalized_features_length self p) as Hl.
    unfold predict_with in Hv. rewrite Hl, dot_from_affine in Hv.
    destruct (Nat.eqb_spec 9 (length (weights_ self))) as [E|E]; simpl in Hv.
    + repeat split; try congruence; apply Hsign; right; eauto.
    + repeat split; try congruence; apply Hsign; left; assumption.
  - unfold predictPrice. rewrite Ht. simpl.
    repeat split; congruence.
Qed.

Lemma C7_witness :
  let model := snd (trainModel new [Samples.pune_flat; Samples.delhi_villa]) in
  fst (predictPrice model Samples.goa_flat)
    = std_max 0 (affine_combination (bias_ model) (weights_ model)
                   (normalized_features model Samples.goa_flat)) /\
  predictPrice new Samples.goa_flat = (0%float, new).
Proof.
  split.
  - apply (C7_predictPrice_value
             (snd (trainModel new [Samples.pune_flat; Samples.delhi_villa]))
             Samples.goa_flat); reflexivity.
  - apply (C7_predictPrice_value new Samples.goa_flat). reflexivity.
Defined.

(** The value C7 states for a trained model, whatever its weights. *)
Definition stated_prediction (self : t) (p : Property.t) : float :=
  if is_trained_ self
  then std_max 0 (affine_combination (bias_ self) (weights_ self)
                    (normalized_features self p))
  else 0%float.

(** A model loaded from a file that holds the bias 5 and the single
    weight 0 is trained, and predicts 0 where the stated value is 5. *)
Lemma C7_counterexample :
  exists model,
    loadModel new (Some Samples.one_weight_file) = Returns true model /\
    is_trained_ model = true /\
    fst (predictPrice model Samples.goa_flat) = 0%float /\
    stated_prediction model Samples.goa_flat = 5%float /\
    fst (predictPrice model Samples.goa_flat) <> stated_prediction model Samples.goa_flat.
Proof.
  eexists. split; [vm_compute; reflexivity|].
  repeat split; try (vm_compute; reflexivity).
  intros H. apply (f_equal (fun x => PrimFloat.eqb x 0)) in H.
  vm_compute in H. discriminate.
Qed.

(** C8. [trainModel] on an empty listing set returns [false] and leaves
    the model as it was: weights, bias, both encodings, normalization
    parameters and the [is_trained_] flag. *)
Theorem C8_train_empty (self : t) :
  fst (trainModel self []) = false /\
  snd (trainModel self []) = self /\
  weights_ (snd (trainModel self [])) = weights_ self /\
  bias_ (snd (trainModel self [])) = bias_ self /\
  city_encoding_ (snd (trainModel self [])) = city_encoding_ self /\
  type_encoding_ (snd (trainModel self [])) = type_encoding_ self /\
  feature_means_ (snd (trainModel self [])) = feature_means_ self /\
  feature_stds_ (snd (trainModel self [])) = feature_stds_ self /\
  is_trained_ (snd (trainModel self [])) = is_trained_ self.
Proof. repeat split. Qed.

(** C10. A model whose [is_trained_] flag is set and whose weight vector
    does not have nine entries predicts 0.0 for every listing. Nothing
    else tells the caller: the flag stays set and the weights stay as
    they were. *)
Theorem C10_dimension_mismatch (self : t) (p : Property.t) :
  is_trained_ self = true -> length (weights_ self) <> 9%nat ->
  fst (predictPrice self p) = 0%float /\
  is_trained_ (snd (predictPrice self p)) = true /\
  weights_ (snd (predictPrice self p)) = weights_ self.
Proof.
  intros Ht Hw. split.
  - rewrite (predictPrice_value self p Ht).
    unfold predict_with. rewrite normalized_features_length.
    destruct (Nat.eqb_spec 9 (length (weights_ self))); [congruence|reflexivity].
  - rewrite (predictPrice_trained self p Ht). cbn [snd].
    destruct (extractFeatures_frame self p) as (_ & -> & -> & _). auto.
Qed.

(** The example of C10: the model read from a file with two weights. *)
Lemma C10_witness :
  exists model,
    loadModel new (Some Samples.two_weight_file) = Returns true model /\
    is_trained_ model = true /\
    length (weights_ model) = 2%nat /\
    fst (predictPrice model Samples.pune_flat) = 0%float.
Proof.
  eexists. split; [vm_compute; reflexivity|].
  split; [reflexivity|]. split; [reflexivity|].
  apply C10_dimension_mismatch; [reflexivity|]. simpl. discriminate.
Defined.

(** The same 0.0 is what a model with nine weights returns when the
    affine combination is negative. *)
Lemma clamped_prediction_is_zero :
  exists model,
    loadModel new (Some Samples.negative_bias_file) = Returns true model /\
    length (weights_ model) = 9%nat /\
    fst (predictPrice model Samples.pune_flat) = 0%float.
Proof.
  eexists. split; [vm_compute; reflexivity|].
  split; vm_compute; reflexivity.
Qed.

(** ** Normalization *)

(** Column [j] of a feature matrix. *)
Definition column (j : nat) (X : list (list float)) : list float :=
  map (fun row => vec_at row j) X.

(** The arithmetic mean: the sum, taken in order from 0, over the count. *)
Definition arithmetic_mean (xs : list float) : float :=
  (fold_left PrimFloat.add xs 0 / double_of_size (length xs))%float.

(** The population standard deviation: the root of the sum of squared
    distances to [mean] over the count [N] (not [N - 1]). *)
Definition population_std (mean : float) (xs : list float) : float :=
  PrimFloat.sqrt
    (fold_left PrimFloat.add (map (fun x => pow2 (x - mean)%float) xs) 0
     / double_of_size (length xs))%float.

(** A deviation of zero is replaced by one. *)
Definition nonzero_std (d : float) : float :=
  if PrimFloat.eqb d 0 then 1%float else d.

Lemma add_row_lookup (f : nat -> float -> float) (acc row : list float) (j : nat) :
  add_row f acc row !! j = (fun a => a + f j (vec_at row j))%float <$> acc !! j.
Proof. unfold add_row. apply list_lookup_imap. Qed.

(** Entry [j] after the rows of [X] have been added to [acc]: the
    column's terms added in order on top of the entry [acc] had. *)
Lemma fold_add_row_lookup (f : nat -> float -> float) (X : list (list float))
  (acc : list float) (j : nat) :
  fold_left (add_row f) X acc !! j
  = (fun a => fold_left PrimFloat.add (map (f j) (column j X)) a) <$> acc !! j.
Proof.
  revert acc. induction X as [|row X IH]; intros acc; simpl.
  - now destruct (acc !! j).
  - rewrite IH, add_row_lookup. now destruct (acc !! j).
Qed.

Lemma column_length (j : nat) (X : list (list float)) : length (column j X) = length X.
Proof. apply length_map. Qed.

Lemma map_lookup {A B : Type} (f : A -> B) (l : list A) (i : nat) :
  map f l !! i = f <$> l !! i.
Proof. apply (list_lookup_fmap f l i). Qed.

Lemma vec_at_lookup (v : list float) (j : nat) (x : float) :
  v !! j = Some x -> vec_at v j = x.
Proof. unfold vec_at. rewrite nth_lookup. now intros ->. Qed.

Lemma resize_lookup_vec_at (v : list float) (k j : nat) :
  (j < k)%nat -> resize k 0%float v !! j = Some (vec_at v j).
Proof.
  intros Hj. unfold vec_at. rewrite nth_lookup.
  destruct (v !! j) eqn:E.
  - rewrite lookup_resize; [now rewrite E|assumption|].
    now apply lookup_lt_Some in E.
  - apply lookup_ge_None in E. now rewrite lookup_resize_new.
Qed.

(** What [calculateNormalizationParams] stores at index [j]: the
    column's sum and squared distances are added on top of whatever the
    two vectors held at [j] before the call ([0.0] past their end). *)
Lemma calculateNormalizationParams_entries (self : t) (first : list float)
  (rest : list (list float)) (j : nat) :
  (j < length first)%nat ->
  let X := first :: rest in
  let s := calculateNormalizationParams self X in
  let n := double_of_size (length X) in
  let mean :=
    (fold_left PrimFloat.add (column j X) (vec_at (feature_means_ self) j) / n)%float in
  feature_means_ s !! j = Some mean /\
  feature_stds_ s !! j
  = Some (nonzero_std
            (PrimFloat.sqrt
               (fold_left PrimFloat.add (map (fun x => pow2 (x - mean)%float) (column j X))
                  (vec_at (feature_stds_ self) j) / n)%float)).
Proof.
  intros Hj X s n mean. unfold s, calculateNormalizationParams, X.
  cbn [feature_means_ feature_stds_ set_feature_means set_feature_stds].
  fold X. fold n.
  set (sums := fold_left (add_row (fun _ x => x)) X _).
  assert (map (fun m => (m / n)%float) sums !! j = Some mean) as Hmean.
  { unfold sums. rewrite map_lookup, fold_add_row_lookup, resize_lookup_vec_at by assumption.
    simpl. now rewrite map_id. }
  split; [assumption|].
  rewrite map_lookup, fold_add_row_lookup, resize_lookup_vec_at by assumption.
  simpl. rewrite (vec_at_lookup _ _ _ Hmean). reflexivity.
Qed.

(** On a model whose two vectors are empty, as they are before the
    first training, the stored parameters are the column means and the
    column population deviations. *)
Lemma calculateNormalizationParams_first_call (self : t) (first : list float)
  (rest : list (list float)) (j : nat) :
  feature_means_ self = [] -> feature_stds_ self = [] ->
  (j < length first)%nat ->
  let X := first :: rest in
  let s := calculateNormalizationParams self X in
  feature_means_ s !! j = Some (arithmetic_mean (column j X)) /\
  feature_stds_ s !! j
  = Some (nonzero_std (population_std (arithmetic_mean (column j X)) (column j X))).
Proof.
  intros Hm Hs Hj X s.
  destruct (calculateNormalizationParams_entries self first rest j Hj) as [E1 E2].
  fold X in E1, E2. fold s in E1, E2.
  rewrite Hm in E1, E2. rewrite Hs in E2.
  assert (vec_at [] j = 0%float) as Z0 by now destruct j.
  rewrite Z0 in E1, E2.
  unfold arithmetic_mean, population_std.
  rewrite !column_length.
  split; [exact E1|exact E2].
Qed.

Lemma calculateNormalizationParams_length (self : t) (first : list float)
  (rest : list (list float)) :
  let s := calculateNormalizationParams self (first :: rest) in
  length (feature_means_ s) = length first /\ length (feature_stds_ s) = length first.
Proof.
  assert (forall f X acc, length (fold_left (add_row f) X acc) = length acc) as L.
  { intros f X. induction X as [|row X IH]; intros acc; simpl; [reflexivity|].
    rewrite IH. apply length_imap. }
  cbv zeta. unfold calculateNormalizationParams.
  cbn [feature_means_ feature_stds_ set_feature_means set_feature_stds].
  rewrite !length_map, !L, !length_resize. tauto.
Qed.

(** [normalizeFeatureVector]: the entries below the number of stored
    means are rescaled as [(x - mean) / std]; the others are kept. *)
Lemma normalizeFeatureVector_entries (self : t) (features : list float) (i : nat) :
  normalizeFeatureVector self features !! i
  = (fun x =>
       if (i <? length (feature_means_ self))%nat
       then ((x - vec_at (feature_means_ self) i) / vec_at (feature_stds_ self) i)%float
       else x) <$> features !! i.
Proof. unfold normalizeFeatureVector. apply list_lookup_imap. Qed.

(** A vector shorter than the stored parameters: every entry is
    rescaled, and the result has the length of the input. *)
Lemma normalizeFeatureVector_short (self : t) (features : list float) :
  (length features <= length (feature_means_ self))%nat ->
  normalizeFeatureVector self features
  = imap (fun i x =>
            ((x - vec_at (feature_means_ self) i) / vec_at (feature_stds_ self) i)%float)
      features.
Proof.
  intros H. apply list_eq. intros i.
  rewrite normalizeFeatureVector_entries, list_lookup_imap.
  destruct (features !! i) eqn:E; [|reflexivity]. simpl.
  apply lookup_lt_Some in E.
  destruct (Nat.ltb_spec i (length (feature_means_ self))); [reflexivity|lia].
Qed.

(** The feature rows [trainModel] builds from a listing set. *)
Definition feature_rows (data : list Property.t) : list (list float) :=
  fst (extract_all (initializeEncodings new data) data).

(** C9 at a second training of the same model. The first [trainModel]
    call stores the column means; the second call, on the same
    listings, does not: for the bedroom column (2 and 3 bedrooms, mean
    2.5) it stores [(2.5 + 2 + 3) / 2 = 3.75], the old mean having
    stayed in the accumulator. *)
Theorem C9_second_training_keeps_old_sums :
  let data := [Samples.pune_flat; Samples.delhi_villa] in
  let X := feature_rows data in
  let first := snd (trainModel new data) in
  let second := snd (trainModel first data) in
  feature_means_ first = map (fun j => arithmetic_mean (column j X)) (seq 0 9) /\
  feature_stds_ first
    = map (fun j => nonzero_std (population_std (arithmetic_mean (column j X)) (column j X)))
        (seq 0 9) /\
  arithmetic_mean (column 2 X) = 2.5%float /\
  vec_at (feature_means_ first) 2 = 2.5%float /\
  vec_at (feature_means_ second) 2 = 3.75%float /\
  feature_means_ second <> map (fun j => arithmetic_mean (column j X)) (seq 0 9).
Proof.
  repeat split; try (vm_compute; reflexivity).
  intros H. apply (f_equal (fun v => PrimFloat.eqb (vec_at v 2) 2.5)) in H.
  vm_compute in H. discriminate.
Qed.

(** ** Persistence *)

(** C2 on the model trained on two listings. The file holds the bias
    and the weights with six significant digits, and that is what
    [loadModel] reads back: the bias 149.99329793872127 comes back as
    149.993, and the weights come back changed too. The number and
    order of the weights, the [is_trained_] flag and the fact that the
    encodings and normalization parameters are not in the file are as
    C2 says. *)
Theorem C2_reload_loses_digits :
  let model := snd (trainModel new [Samples.pune_flat; Samples.delhi_villa]) in
  exists file loaded,
    saveModel model = Some file /\
    loadModel new (Some file) = Returns true loaded /\
    bias_ model = 149.99329793872127%float /\
    format_double (bias_ model) = "149.993" /\
    bias_ loaded = 149.993%float /\
    bias_ loaded <> bias_ model /\
    weights_ loaded <> weights_ model /\
    length (weights_ loaded) = length (weights_ model) /\
    is_trained_ loaded = true /\
    city_encoding_ loaded = ∅ /\ type_encoding_ loaded = ∅ /\
    feature_means_ loaded = [] /\ feature_stds_ loaded = [].
Proof.
  eexists. eexists.
  split; [vm_compute; reflexivity|].
  split; [vm_compute; reflexivity|].
  repeat split; try (vm_compute; reflexivity).
  - intros H. apply (f_equal (fun x => PrimFloat.eqb x 149.993)) in H.
    vm_compute in H. discriminate.
  - intros H. apply (f_equal (fun v => PrimFloat.eqb (vec_at v 0) 5.55556)) in H.
    vm_compute in H. discriminate.
Qed.

(** *** What a reload gives in general *)

Definition newline : ascii := char_of 10.

Fixpoint no_newline (s : string) : bool :=
  match s with
  | EmptyString => true
  | String c rest => negb (Ascii.eqb c newline) && no_newline rest
  end.

Lemma string_app_cons (x : ascii) (a b : string) :
  (String x a ++ b)%string = String x (a ++ b).
Proof. reflexivity. Qed.

Lemma string_app_assoc (a b c : string) : ((a ++ b) ++ c = a ++ (b ++ c))%string.
Proof.
  induction a as [|x a IH]; [reflexivity|].
  now rewrite !string_app_cons, IH.
Qed.

Lemma string_app_length (a b : string) :
  String.length (a ++ b) = (String.length a + String.length b)%nat.
Proof.
  induction a as [|x a IH]; [reflexivity|].
  rewrite string_app_cons. simpl. now rewrite IH.
Qed.

Lemma no_newline_app (a b : string) :
  no_newline (a ++ b) = no_newline a && no_newline b.
Proof.
  induction a as [|c a IH]; simpl; [reflexivity|].
  now rewrite IH, andb_assoc.
Qed.

Lemma read_line_app (line rest : string) :
  no_newline line = true -> read_line (line ++ endl ++ rest) = (line, rest).
Proof.
  induction line as [|c line IH]; simpl; intros H.
  - reflexivity.
  - apply andb_true_iff in H as [Hc Hl].
    fold newline. apply negb_true_iff in Hc. rewrite Hc.
    now rewrite (IH Hl).
Qed.

Lemma getline_app (line rest : string) :
  no_newline line = true -> getline (line ++ endl ++ rest) = Some (line, rest).
Proof.
  intros H. unfold getline.
  rewrite <- (read_line_app line rest H).
  destruct line; reflexivity.
Qed.

Definition is_digit (d : Z) : Prop := (0 <= d <= 9)%Z.

Lemma string_of_digits_no_newline (ds : list Z) :
  Forall is_digit ds -> no_newline (string_of_digits ds) = true.
Proof.
  induction 1 as [|d ds Hd _ IH]; simpl; [reflexivity|].
  rewrite IH, andb_true_r. unfold is_digit in Hd.
  assert (d = 0 \/ d = 1 \/ d = 2 \/ d = 3 \/ d = 4 \/ d = 5 \/ d = 6 \/ d = 7
          \/ d = 8 \/ d = 9)%Z as C by lia.
  repeat (destruct C as [->|C]; [reflexivity|]). now subst.
Qed.

Lemma digits_of_digits (D : Z) : Forall is_digit (digits_of D).
Proof.
  unfold digits_of, is_digit. simpl map.
  repeat match goal with |- Forall _ _ => constructor end;
    Z.div_mod_to_equations; lia.
Qed.

Lemma drop_leading_zeros_digits (ds : list Z) :
  Forall is_digit ds -> Forall is_digit (drop_leading_zeros ds).
Proof.
  induction 1 as [|d ds Hd Hds IH]; simpl; [constructor|].
  destruct (d =? 0)%Z; [assumption|now constructor].
Qed.

Lemma fraction_no_newline (ds : list Z) :
  Forall is_digit ds -> no_newline (fraction ds) = true.
Proof.
  intros H. unfold fraction.
  assert (Forall is_digit (strip_trailing_zeros ds)) as S.
  { unfold strip_trailing_zeros. apply Forall_rev, drop_leading_zeros_digits.
    now apply Forall_rev. }
  destruct (strip_trailing_zeros ds) eqn:E; [reflexivity|].
  change (no_newline (string_of_digits (z :: l)) = true).
  now apply string_of_digits_no_newline.
Qed.

Lemma floor_log10_from_bounds (fuel : nat) (X num den : Z) :
  (X - Z.of_nat fuel <= floor_log10_from fuel X num den <= X)%Z.
Proof.
  revert X. induction fuel as [|fuel IH]; intros X; simpl floor_log10_from; [lia|].
  destruct (pow10_le X num den); [lia|].
  specialize (IH (X - 1)%Z). lia.
Qed.

Lemma exponent_field_no_newline (X : Z) :
  (-1000 < X < 1000)%Z -> no_newline (exponent_field X) = true.
Proof.
  intros HX. unfold exponent_field.
  assert (no_newline
            (string_of_digits
               (if (Z.abs X <? 100)%Z then [(Z.abs X / 10)%Z; (Z.abs X mod 10)%Z]
                else [(Z.abs X / 100)%Z; ((Z.abs X / 10) mod 10)%Z; (Z.abs X mod 10)%Z]))
          = true) as H.
  { apply string_of_digits_no_newline. unfold is_digit.
    destruct (Z.ltb_spec (Z.abs X) 100);
      repeat match goal with |- Forall _ _ => constructor end;
      Z.div_mod_to_equations; lia. }
  simpl. rewrite H. now destruct (X <? 0)%Z.
Qed.

Lemma format_g6_no_newline (num den : Z) : no_newline (format_g6 num den) = true.
Proof.
  unfold format_g6.
  destruct (six_digits num den) as [D X] eqn:E.
  assert (-1000 < X < 1000)%Z as HX.
  { unfold six_digits in E.
    pose proof (floor_log10_from_bounds 700 308 num den) as B.
    change (Z.of_nat 700) with 700%Z in B.
    remember (floor_log10_from 700 308 num den) as X0 eqn:EX.
    cbv zeta in E.
    destruct (_ =? 10 ^ 6)%Z; injection E as _ EX'; lia. }
  pose proof (digits_of_digits D) as HD.
  destruct ((-4 <=? X)%Z && (X <? 6)%Z).
  - destruct (0 <=? X)%Z.
    + rewrite no_newline_app, string_of_digits_no_newline, fraction_no_newline;
        auto using Forall_take, Forall_drop.
    + simpl. apply fraction_no_newline. apply Forall_app. split; [|assumption].
      apply List.Forall_forall. intros d Hd. apply repeat_spec in Hd.
      subst d. unfold is_digit. lia.
  - rewrite !no_newline_app.
    change (no_newline (String "e" (exponent_field X)))
      with (no_newline (exponent_field X)).
    rewrite string_of_digits_no_newline, fraction_no_newline, exponent_field_no_newline;
      auto using Forall_take, Forall_drop.
Qed.

Lemma format_double_no_newline (x : float) : no_newline (format_double x) = true.
Proof.
  unfold format_double.
  destruct (Prim2SF x) as [s|s| |s m e]; try (destruct s; reflexivity); [reflexivity|].
  rewrite no_newline_app.
  destruct (0 <=? e)%Z; rewrite format_g6_no_newline; now destruct s.
Qed.

Lemma string_of_digits_empty (ds : list Z) : string_of_digits ds = EmptyString -> ds = [].
Proof. now destruct ds. Qed.

Lemma app_empty (a b : string) : (a ++ b)%string = EmptyString -> a = EmptyString.
Proof. now destruct a. Qed.

Lemma format_g6_not_empty (num den : Z) : format_g6 num den <> EmptyString.
Proof.
  unfold format_g6. destruct (six_digits num den) as [D X].
  destruct ((-4 <=? X)%Z && (X <? 6)%Z) eqn:R.
  - destruct (Z.leb_spec 0 X) as [HX|HX]; [|discriminate].
    intros E. apply app_empty, string_of_digits_empty in E.
    destruct (Z.to_nat (X + 1)) eqn:N; [lia|]. discriminate.
  - intros E. apply app_empty in E. discriminate.
Qed.

Lemma format_double_not_empty (x : float) : format_double x <> EmptyString.
Proof.
  unfold format_double.
  destruct (Prim2SF x) as [s|s| |s m e]; try (destruct s; discriminate); [discriminate|].
  destruct s; simpl; [discriminate|].
  destruct (0 <=? e)%Z; apply format_g6_not_empty.
Qed.

(** The weight lines of a saved file, followed by nothing, are read
    back one value per line, as long as [std::stod] accepts them. *)
Lemma read_weights_saved (weights read : list float) (acc : list float) (fuel : nat) :
  Forall2 (fun w r => stod (format_double w) = Some r) weights read ->
  (length weights < fuel)%nat ->
  read_weights fuel
    (String.concat EmptyString (map (fun w => format_double w ++ endl)%string weights))
    acc
  = (acc ++ read, false).
Proof.
  intros H. revert acc fuel.
  induction H as [|w r weights read Hw _ IH]; intros acc fuel Hf.
  - destruct fuel; simpl; now rewrite ?app_nil_r.
  - destruct fuel as [|fuel]; [simpl in Hf; lia|].
    assert (String.concat EmptyString
              (map (fun w => format_double w ++ endl)%string (w :: weights))
            = (format_double w ++ endl
               ++ String.concat EmptyString
                    (map (fun w => format_double w ++ endl)%string weights))%string) as ->.
    { simpl. destruct (map _ weights) eqn:M.
      - simpl. reflexivity.
      - now rewrite !string_app_assoc. }
    cbn [read_weights].
    rewrite getline_app by apply format_double_no_newline.
    destruct (String.eqb_spec (format_double w) EmptyString) as [E|_];
      [now apply format_double_not_empty in E|].
    rewrite Hw, IH by (simpl in Hf; lia).
    now rewrite <- app_assoc.
Qed.

(** Saving a trained model and loading the file into any model: the
    model type comes back; the bias and the weights come back as
    [std::stod] reads their six-digit text, in the same number and
    order; [is_trained_] says whether there is a weight; the encodings
    and the normalization parameters are those the loading model had. *)
Lemma reload_saved_model (self into : t) (bias : float) (weights : list float) :
  is_trained_ self = true ->
  no_newline (model_type_ self) = true ->
  stod (format_double (bias_ self)) = Some bias ->
  Forall2 (fun w r => stod (format_double w) = Some r) (weights_ self) weights ->
  loadModel into (saveModel self)
  = Returns true
      (mk (model_type_ self) (negb (length weights =? 0)%nat) weights bias
         (feature_means_ into) (feature_stds_ into)
         (city_encoding_ into) (type_encoding_ into)).
Proof.
  intros Ht Hn Hb Hw. unfold saveModel. rewrite Ht. cbn [negb].
  unfold loadModel.
  rewrite getline_app by assumption.
  rewrite getline_app by apply format_double_no_newline.
  rewrite Hb.
  rewrite (read_weights_saved (weights_ self) weights []); [reflexivity|assumption|].
  set (file := String.concat _ _).
  assert (length (weights_ self) <= String.length file)%nat; [|lia].
  unfold file. clear. induction (weights_ self) as [|w ws IH]; simpl; [lia|].
  destruct (map _ ws) eqn:M.
  - destruct ws; [|discriminate]. simpl.
    pose proof (format_double_not_empty w).
    destruct (format_double w); [congruence|simpl; lia].
  - rewrite !string_app_length. simpl in IH |- *.
    pose proof (format_double_not_empty w).
    destruct (format_double w); [congruence|simpl; lia].
Qed.

(** * The search engine *)

(** ** Similarity *)

Lemma std_min_same (x : float) : std_min x x = x.
Proof. unfold std_min. now destruct (PrimFloat.ltb x x). Qed.

Lemma std_max_same (x : float) : std_max x x = x.
Proof. unfold std_max. now destruct (PrimFloat.ltb x x). Qed.

(** C4 (as amended). For a listing whose price and size are positive
    (and finite), the similarity of the listing with itself is
    [0.3 + 0.2 + 0.2 + 0.2 + 0.1] added in this order in binary64
    arithmetic, which is 0.99999999999999989: one, up to rounding, and
    not 1.5. *)
Theorem C4_self_similarity (p : Property.t) :
  PrimFloat.ltb 0 (Property.getPrice p) = true ->
  PrimFloat.ltb (Property.getPrice p) infinity = true ->
  PrimFloat.ltb 0 (Property.getSize p) = true ->
  PrimFloat.ltb (Property.getSize p) infinity = true ->
  calculateSimilarity p p = (0.0 + 0.3 + 0.2 + 0.2 + 0.2 * 1 + 0.1 * 1)%float /\
  calculateSimilarity p p = 0.99999999999999989%float.
Proof.
  intros P0 P1 S0 S1.
  assert (calculateSimilarity p p = (0.0 + 0.3 + 0.2 + 0.2 + 0.2 * 1 + 0.1 * 1)%float) as E.
  { unfold calculateSimilarity.
    rewrite !String.eqb_refl, Z.sub_diag, !std_min_same, !std_max_same.
    rewrite (DoubleFacts.div_self _ P0 P1), (DoubleFacts.div_self _ S0 S1).
    reflexivity. }
  split; [exact E|]. rewrite E. reflexivity.
Qed.

Lemma C4_witness :
  calculateSimilarity Samples.pune_flat Samples.pune_flat = 0.99999999999999989%float.
Proof.
  apply (C4_self_similarity Samples.pune_flat); reflexivity.
Defined.

Lemma C4_counterexample :
  PrimFloat.ltb 0 (Property.getPrice Samples.pune_flat) = true /\
  PrimFloat.ltb 0 (Property.getSize Samples.pune_flat) = true /\
  calculateSimilarity Samples.pune_flat Samples.pune_flat <> 1.5%float.
Proof.
  split; [reflexivity|]. split; [reflexivity|].
  intros H. apply (f_equal (fun x => PrimFloat.ltb x 1.25)) in H.
  vm_compute in H. discriminate.
Qed.

(** ** Filtering *)

(** The match rule of one criterion: exact match for [city], [type],
    [bedrooms], [bathrooms]; inclusive bounds for [min_price],
    [max_price], [min_size], [max_size]; any other key asks nothing. *)
Definition satisfies (L : Property.t) (key value : string) : Prop :=
  if String.eqb key "city" then Property.city_ L = value
  else if String.eqb key "min_price" then
    exists v, stod value = Some v /\ PrimFloat.leb v (Property.price_ L) = true
  else if String.eqb key "max_price" then
    exists v, stod value = Some v /\ PrimFloat.leb (Property.price_ L) v = true
  else if String.eqb key "bedrooms" then stoi value = Some (Property.bedrooms_ L)
  else if String.eqb key "bathrooms" then stoi value = Some (Property.bathrooms_ L)
  else if String.eqb key "type" then Property.type_ L = value
  else if String.eqb key "min_size" then
    exists v, stod value = Some v /\ PrimFloat.leb v (Property.size_ L) = true
  else if String.eqb key "max_size" then
    exists v, stod value = Some v /\ PrimFloat.leb (Property.size_ L) v = true
  else True.

(** The value of a numeric criterion parses: as a number for the four
    bounds, as an [int] for the two counts. *)
Definition parseable (key value : string) : Prop :=
  if String.eqb key "min_price" || String.eqb key "max_price"
     || String.eqb key "min_size" || String.eqb key "max_size"
  then exists v, stod value = Some v /\ is_nan v = false
  else if String.eqb key "bedrooms" || String.eqb key "bathrooms"
  then exists n, stoi value = Some n
  else True.

(** A listing whose price and size are numbers. *)
Definition numeric_listing (L : Property.t) : Prop :=
  is_nan (Property.price_ L) = false /\ is_nan (Property.size_ L) = false.

Lemma rejects_satisfies (L : Property.t) (key value : string) :
  numeric_listing L -> parseable key value ->
  exists b, Property.rejects L key value = Some b /\ (b = false <-> satisfies L key value).
Proof.
  intros [Np Ns] Hp. unfold Property.rejects, satisfies, parseable in *.
  destruct (String.eqb key "city") eqn:K1.
  { apply String.eqb_eq in K1. subst key. simpl.
    destruct (String.eqb_spec (Property.city_ L) value) as [E|E]; simpl;
      eexists; (split; [reflexivity|]); split; congruence. }
  destruct (String.eqb key "min_price") eqn:K2.
  { apply String.eqb_eq in K2. subst key. simpl in *.
    destruct Hp as (v & -> & Nv). simpl.
    destruct (PrimFloat.ltb (Property.price_ L) v) eqn:E; simpl;
      eexists; (split; [reflexivity|]); split; try congruence.
    - intros (v' & [= <-] & Hle).
      apply DoubleFacts.ltb_false_leb in Hle; congruence.
    - intros _. exists v. split; [reflexivity|].
      now apply DoubleFacts.ltb_false_leb. }
  destruct (String.eqb key "max_price") eqn:K3.
  { apply String.eqb_eq in K3. subst key. simpl in *.
    destruct Hp as (v & -> & Nv). simpl.
    destruct (PrimFloat.ltb v (Property.price_ L)) eqn:E; simpl;
      eexists; (split; [reflexivity|]); split; try congruence.
    - intros (v' & [= <-] & Hle).
      apply DoubleFacts.ltb_false_leb in Hle; congruence.
    - intros _. exists v. split; [reflexivity|].
      now apply DoubleFacts.ltb_false_leb. }
  destruct (String.eqb key "bedrooms") eqn:K4.
  { apply String.eqb_eq in K4. subst key. simpl in *.
    destruct Hp as (n & ->). simpl.
    destruct (Z.eqb_spec (Property.bedrooms_ L) n) as [E|E]; simpl;
      eexists; (split; [reflexivity|]); split; congruence. }
  destruct (String.eqb key "bathrooms") eqn:K5.
  { apply String.eqb_eq in K5. subst key. simpl in *.
    destruct Hp as (n & ->). simpl.
    destruct (Z.eqb_spec (Property.bathrooms_ L) n) as [E|E]; simpl;
      eexists; (split; [reflexivity|]); split; congruence. }
  destruct (String.eqb key "type") eqn:K6.
  { apply String.eqb_eq in K6. subst key. simpl.
    destruct (String.eqb_spec (Property.type_ L) value) as [E|E]; simpl;
      eexists; (split; [reflexivity|]); split; congruence. }
  destruct (String.eqb key "min_size") eqn:K7.
  { apply String.eqb_eq in K7. subst key. simpl in *.
    destruct Hp as (v & -> & Nv). simpl.
    destruct (PrimFloat.ltb (Property.size_ L) v) eqn:E; simpl;
      eexists; (split; [reflexivity|]); split; try congruence.
    - intros (v' & [= <-] & Hle).
      apply DoubleFacts.ltb_false_leb in Hle; congruence.
    - intros _. exists v. split; [reflexivity|].
      now apply DoubleFacts.ltb_false_leb. }
  destruct (String.eqb key "max_size") eqn:K8.
  { apply String.eqb_eq in K8. subst key. simpl in *.
    destruct Hp as (v & -> & Nv). simpl.
    destruct (PrimFloat.ltb v (Property.size_ L)) eqn:E; simpl;
      eexists; (split; [reflexivity|]); split; try congruence.
    - intros (v' & [= <-] & Hle).
      apply DoubleFacts.ltb_false_leb in Hle; congruence.
    - intros _. exists v. split; [reflexivity|].
      now apply DoubleFacts.ltb_false_leb. }
  simpl. exists false. tauto.
Qed.

Lemma matchesFilter_satisfies (L : Property.t) (C : list (string * string)) :
  numeric_listing L ->
  (forall key value, In (key, value) C -> parseable key value) ->
  exists b, Property.matchesFilter L C = Some b /\
            (b = true <-> forall key value, In (key, value) C -> satisfies L key value).
Proof.
  intros HL. induction C as [|[key value] C IH]; intros Hp.
  - exists true. simpl. tauto.
  - destruct (rejects_satisfies L key value HL) as (r & Hr & Hs);
      [apply Hp; now left|].
    destruct IH as (b & Hb & Hall); [intros k v Hkv; apply Hp; now right|].
    simpl. rewrite Hr. destruct r.
    + exists false. split; [reflexivity|]. split; [discriminate|].
      intros H. assert (true = false); [|discriminate].
      apply Hs, H. now left.
    + exists b. split; [assumption|]. rewrite Hall. split.
      * intros H k v [[= <- <-]|Hkv]; [now apply Hs|now apply H].
      * intros H k v Hkv. apply H. now right.
Qed.

Lemma search_no_criteria (properties : list Property.t) :
  search properties [] = Some properties.
Proof.
  induction properties as [|p ps IH]; simpl; [reflexivity|now rewrite IH].
Qed.

(** C5. For a listing [L] and criteria [C] whose numeric values parse,
    [search [L] C] returns [[L]] exactly when [L] satisfies every
    criterion present in [C] (and returns the empty list otherwise):
    exact match for city, type, bedrooms and bathrooms, inclusive bounds
    for the four limits, keys that are not recognised being ignored.
    With no criterion the input comes back unchanged. *)
Theorem C5_filter_matches_all_criteria (L : Property.t) (C : list (string * string)) :
  numeric_listing L ->
  (forall key value, In (key, value) C -> parseable key value) ->
  (search [L] C = Some [L]
   <-> forall key value, In (key, value) C -> satisfies L key value) /\
  (search [L] C = Some [L] \/ search [L] C = Some []) /\
  (forall properties, search properties [] = Some properties).
Proof.
  intros HL Hp.
  destruct (matchesFilter_satisfies L C HL Hp) as (b & Hb & Hall).
  simpl. rewrite Hb. rewrite <- Hall.
  split; [|split].
  - destruct b; split; congruence.
  - destruct b; auto.
  - apply search_no_criteria.
Qed.

Lemma C5_witness :
  search [Samples.pune_flat] Samples.pune_criteria = Some [Samples.pune_flat] /\
  search [Samples.delhi_villa] Samples.pune_criteria = Some [].
Proof.
  assert (forall key value, In (key, value) Samples.pune_criteria -> parseable key value) as P.
  { intros key value H. simpl in H.
    repeat (destruct H as [[= <- <-]|H]; [vm_compute; eauto|]). destruct H. }
  split.
  - apply (C5_filter_matches_all_criteria Samples.pune_flat Samples.pune_criteria);
      [split; reflexivity|exact P|].
    intros key value H. simpl in H.
    repeat (destruct H as [[= <- <-]|H]; [vm_compute; eauto|]). destruct H.
  - destruct (C5_filter_matches_all_criteria Samples.delhi_villa Samples.pune_criteria)
      as (Hiff & [H|H] & _); [split; reflexivity|exact P| |exact H].
    exfalso. destruct Hiff as [Hi _].
    specialize (Hi H "city" "Pune" ltac:(simpl; auto)).
    vm_compute in Hi. discriminate.
Defined.

(** ** Recommendation *)

(** The result C3 states: the candidates sorted by descending score
    with a stable sort, cut to [max_results]. *)
Definition stated_recommendSimilar (properties : list Property.t)
  (target_property : Property.t) (max_results : Z) : list Property.t :=
  map snd
    (firstn (Z.to_nat max_results)
       (stable_sort by_similarity (scored_properties properties target_property))).

(** The scores of the candidates are numbers. *)
Definition numeric_scores (properties : list Property.t) (target_property : Property.t)
  : Prop :=
  forall p, In p properties ->
    is_nan (calculateSimilarity target_property p) = false.

Lemma scored_properties_in (properties : list Property.t) (target : Property.t)
  (a : float * Property.t) :
  In a (scored_properties properties target) <->
  In (snd a) properties /\ Property.getId (snd a) <> Property.getId target /\
  fst a = calculateSimilarity target (snd a).
Proof.
  unfold scored_properties. rewrite in_map_iff. split.
  - intros (p & <- & Hp). apply filter_In in Hp as [Hp Hid]. simpl.
    apply negb_true_iff, Z.eqb_neq in Hid. auto.
  - intros (Hp & Hid & Hs). exists (snd a). split.
    + destruct a; simpl in *; congruence.
    + apply filter_In. split; [assumption|].
      now apply negb_true_iff, Z.eqb_neq.
Qed.

Lemma by_similarity_strict_weak (properties : list Property.t) (target : Property.t) :
  numeric_scores properties target ->
  strict_weak_on by_similarity (scored_properties properties target).
Proof.
  intros Hn.
  assert (forall a, In a (scored_properties properties target) -> is_nan (fst a) = false) as N.
  { intros a Ha. apply scored_properties_in in Ha as (Hp & _ & ->). now apply Hn. }
  unfold by_similarity. split.
  - intros a b _ _. apply DoubleFacts.ltb_asym.
  - intros a b c Ha Hb Hc Hab Hbc.
    apply (DoubleFacts.ltb_negtrans (fst c) (fst b) (fst a)); auto.
Qed.

Lemma in_firstn {A : Type} (n : nat) (l : list A) (x : A) :
  In x (firstn n l) -> In x l.
Proof.
  intros H. rewrite <- (firstn_skipn n l). apply in_or_app. now left.
Qed.

(** C3 (as amended). [recommendSimilar] returns the first [max_results]
    listings of a ranking of the candidates: the listings of the input
    whose identifier is not the target's. The ranking holds every
    candidate once per occurrence, and no listing in it has a lower
    score than one after it. How listings of equal score are ordered is
    left to [std::sort]. The result has [min(max_results, candidates)]
    elements, none for [max_results = 0]. *)
Theorem C3_recommendSimilar_ranked `{StdAlgorithm} (properties : list Property.t)
  (target : Property.t) (max_results : Z) :
  (0 <= max_results)%Z ->
  numeric_scores properties target ->
  exists ranking : list (float * Property.t),
    Permutation (scored_properties properties target) ranking /\
    StronglySorted (fun a b => PrimFloat.leb (fst b) (fst a) = true) ranking /\
    recommendSimilar properties target max_results
      = map snd (firstn (Z.to_nat max_results) ranking) /\
    (forall p, In p (recommendSimilar properties target max_results) ->
       Property.getId p <> Property.getId target /\ In p properties) /\
    length (recommendSimilar properties target max_results)
      = Nat.min (Z.to_nat max_results)
          (length (List.filter
                     (fun p => negb (Property.getId p =? Property.getId target)%Z)
                     properties)) /\
    (max_results = 0%Z -> recommendSimilar properties target max_results = []).
Proof.
  intros Hk Hn.
  pose proof (by_similarity_strict_weak properties target Hn) as Hswo.
  destruct (std_sort_contract _ by_similarity _ Hswo) as [Hperm Hsorted].
  set (ranking := std_sort by_similarity (scored_properties properties target)) in *.
  assert (recommendSimilar properties target max_results
          = map snd (firstn (Z.to_nat max_results) ranking)) as Hout.
  { unfold recommendSimilar. fold ranking. f_equal.
    destruct (Z.le_ge_cases max_results (Z.of_nat (length ranking))).
    - now rewrite Z.min_l.
    - rewrite Z.min_r, Nat2Z.id by assumption.
      rewrite !firstn_all2; [reflexivity|lia|lia]. }
  assert (forall a, In a ranking -> is_nan (fst a) = false) as N.
  { intros a Ha. apply (Permutation_in _ (Permutation_sym Hperm)) in Ha.
    apply scored_properties_in in Ha as (Hp & _ & ->). now apply Hn. }
  assert (forall p, In p (recommendSimilar properties target max_results) ->
            exists a, In a (scored_properties properties target) /\ snd a = p) as Hin.
  { intros p Hp. rewrite Hout in Hp. apply in_map_iff in Hp as (a & Ea & Ha).
    apply in_firstn in Ha.
    apply (Permutation_in _ (Permutation_sym Hperm)) in Ha. eauto. }
  exists ranking. split; [exact Hperm|]. split; [|split; [exact Hout|]].
  - unfold sorted_by, by_similarity in Hsorted.
    assert (Forall (fun a => is_nan (fst a) = false) ranking) as NF
      by now apply List.Forall_forall.
    clear - Hsorted NF. induction Hsorted as [|a l Hs IH Ha]; constructor.
    + apply IH. now inversion NF.
    + inversion NF as [|? ? Na Nl]; subst.
      rewrite List.Forall_forall in Ha, Nl |- *. intros b Hb.
      apply DoubleFacts.ltb_false_leb; auto.
  - split; [|split].
    + intros p Hp. destruct (Hin p Hp) as (a & Ha & <-).
      apply scored_properties_in in Ha. tauto.
    + rewrite Hout, length_map, length_firstn.
      rewrite <- (Permutation_length Hperm). unfold scored_properties.
      now rewrite length_map.
    + intros ->. now rewrite Hout.
Qed.

Lemma C3_witness :
  let properties :=
    [Samples.pune_flat; Samples.delhi_villa; Samples.goa_flat; Samples.delhi_twin] in
  @recommendSimilar stable_algorithm properties Samples.pune_flat 2
    = [Samples.goa_flat; Samples.delhi_villa] /\
  length (@recommendSimilar reversing_algorithm properties Samples.pune_flat 2) = 2%nat.
Proof.
  intros properties. split; [vm_compute; reflexivity|].
  destruct (@C3_recommendSimilar_ranked reversing_algorithm properties Samples.pune_flat 2)
    as (ranking & _ & _ & _ & _ & Hlen & _).
  - lia.
  - intros p Hp. simpl in Hp.
    repeat (destruct Hp as [<-|Hp]; [vm_compute; reflexivity|]). destruct Hp.
  - rewrite Hlen. reflexivity.
Defined.

(** With at most 16 candidates libstdc++'s [std::sort] is an insertion
    sort, which leaves listings of equal score in input order. *)
Lemma recommendSimilar_two_ties :
  @recommendSimilar libstdcxx_algorithm
     [Samples.pune_flat; Samples.delhi_villa; Samples.delhi_twin] Samples.pune_flat 5
    = [Samples.delhi_villa; Samples.delhi_twin].
Proof. vm_compute. reflexivity. Qed.

(** C3, the claim as stated fails: seventeen candidates of equal score
    do not keep their input order. On more than 16 elements libstdc++'s
    [std::sort] partitions before its insertion sort: the median of
    three moves the ninth candidate to the front, and the partition
    loop, which stops at every element equivalent to the pivot,
    exchanges the others in pairs around the middle. The program
    returns the flats 109, 117, 116, 115, 114 where the stated stable
    order gives 101, 102, 103, 104, 105. *)
Lemma C3_counterexample :
  let properties := Samples.pune_flat :: Samples.tower in
  numeric_scores properties Samples.pune_flat /\
  (forall p, In p Samples.tower ->
     calculateSimilarity Samples.pune_flat p
       = calculateSimilarity Samples.pune_flat (Samples.tower_flat 101)) /\
  stated_recommendSimilar properties Samples.pune_flat 5
    = map Samples.tower_flat [101; 102; 103; 104; 105]%Z /\
  @recommendSimilar libstdcxx_algorithm properties Samples.pune_flat 5
    = map Samples.tower_flat [109; 117; 116; 115; 114]%Z /\
  map Property.getId
      (@recommendSimilar libstdcxx_algorithm properties Samples.pune_flat 17)
    = [109; 117; 116; 115; 114; 113; 112; 111; 110; 101; 108; 107; 106; 105;
       104; 103; 102]%Z /\
  @recommendSimilar libstdcxx_algorithm properties Samples.pune_flat 5
    <> stated_recommendSimilar properties Samples.pune_flat 5.
Proof.
  intros properties. repeat split; try (vm_compute; reflexivity).
  - intros p Hp. simpl in Hp.
    repeat (destruct Hp as [<-|Hp]; [vm_compute; reflexivity|]). destruct Hp.
  - intros p Hp. simpl in Hp.
    repeat (destruct Hp as [<-|Hp]; [vm_compute; reflexivity|]). destruct Hp.
  - intros E. apply (f_equal (map Property.id_)) in E. vm_compute in E. discriminate.
Qed.

(** ** Price statistics *)

(** The median of a sorted list: the middle value, or the average of
    the two middle values when the count is even. *)
Definition stated_median (sorted : list float) : float :=
  let n := length sorted in
  if (n mod 2 =? 0)%nat
  then ((vec_at sorted (n / 2 - 1) + vec_at sorted (n / 2)) / 2)%float
  else vec_at sorted (n / 2).

Lemma fold_left_add_map {A : Type} (f : A -> float) (l : list A) (a : float) :
  fold_left (fun acc x => (acc + f x)%float) l a = fold_left PrimFloat.add (map f l) a.
Proof.
  revert a. induction l as [|x l IH]; intros a; simpl; [reflexivity|apply IH].
Qed.

Lemma leb_refl (x : float) : is_nan x = false -> PrimFloat.leb x x = true.
Proof.
  intros H. apply DoubleFacts.ltb_false_leb; try assumption.
  destruct (PrimFloat.ltb x x) eqn:E; [|reflexivity].
  now rewrite (DoubleFacts.ltb_asym x x E) in E.
Qed.

(** In an ascending list of numbers, the first entry is a least element
    and the last entry a greatest one. *)
Lemma ascending_first_last (l : list float) (x : float) :
  StronglySorted (fun a b => PrimFloat.leb a b = true) l ->
  Forall (fun a => is_nan a = false) l ->
  In x l ->
  PrimFloat.leb (vec_at l 0) x = true /\
  PrimFloat.leb x (vec_at l (length l - 1)) = true.
Proof.
  intros Hs Hn Hx. induction Hs as [|a l Hs IH Ha]; [destruct Hx|].
  inversion Hn as [|? ? Na Nl]; subst.
  rewrite List.Forall_forall in Ha.
  assert (vec_at (a :: l) (length (a :: l) - 1)
          = match l with [] => a | _ => vec_at l (length l - 1) end) as L.
  { destruct l; [reflexivity|]. simpl. now rewrite Nat.sub_0_r. }
  rewrite L. change (vec_at (a :: l) 0) with a.
  destruct Hx as [<-|Hx].
  - split; [now apply leb_refl|].
    destruct l as [|b l']; [now apply leb_refl|].
    apply Ha. set (l := b :: l'). unfold vec_at. apply nth_In. simpl. lia.
  - split; [now apply Ha|].
    destruct l as [|b l']; [destruct Hx|]. now apply IH.
Qed.

(** Two ascending arrangements of the same non-zero numbers are equal. *)
Lemma ascending_unique (l1 l2 : list float) :
  Forall (fun a => is_nan a = false /\ PrimFloat.eqb a 0 = false) l1 ->
  sorted_by PrimFloat.ltb l1 -> sorted_by PrimFloat.ltb l2 ->
  Permutation l1 l2 -> l1 = l2.
Proof.
  unfold sorted_by. intros Hn Hs1. revert l2.
  induction Hs1 as [|a l1 Hs1 IH Ha]; intros l2 Hs2 Hp.
  - now apply Permutation_nil in Hp.
  - destruct Hs2 as [|b l2 Hs2 Hb].
    { apply Permutation_sym, Permutation_nil in Hp. discriminate. }
    inversion Hn as [|? ? [Na Za] Nl]; subst.
    assert (Forall (fun a => is_nan a = false /\ PrimFloat.eqb a 0 = false) (b :: l2)) as Hn2.
    { rewrite List.Forall_forall in Hn |- *. intros x Hx.
      apply Hn. now apply (Permutation_in _ (Permutation_sym Hp)). }
    inversion Hn2 as [|? ? [Nb Zb] Nl2]; subst.
    rewrite List.Forall_forall in Ha, Hb.
    assert (a = b) as ->.
    { assert (In a (b :: l2)) as Hab by (apply (Permutation_in _ Hp); now left).
      assert (In b (a :: l1)) as Hba
        by (apply (Permutation_in _ (Permutation_sym Hp)); now left).
      destruct Hab as [->|Hab]; [reflexivity|].
      destruct Hba as [->|Hba]; [reflexivity|].
      apply DoubleFacts.ltb_antisym; auto. }
    f_equal. apply IH; [assumption|assumption|].
    now apply Permutation_cons_inv in Hp.
Qed.

Lemma calculatePriceStatistics_nonempty `{StdAlgorithm} (properties : list Property.t) :
  properties <> [] ->
  let prices := std_sort PrimFloat.ltb (map Property.getPrice properties) in
  let n := length prices in
  calculatePriceStatistics properties
  = <["std_dev" := population_std (arithmetic_mean prices) prices]>
      (<["median" := stated_median prices]>
         (<["max" := vec_at prices (n - 1)]>
            (<["min" := vec_at prices 0]>
               (<["mean" := arithmetic_mean prices]>
                  (<["count" := double_of_size n]> ∅))))).
Proof.
  intros Hne. destruct properties as [|p ps]; [congruence|].
  unfold calculatePriceStatistics.
  set (prices := std_sort PrimFloat.ltb (map Property.getPrice (p :: ps))).
  cbv zeta. f_equal.
  rewrite !lookup_insert_ne by discriminate. rewrite lookup_insert_eq.
  simpl default. unfold population_std, arithmetic_mean.
  now rewrite fold_left_add_map.
Qed.

(** The prices are numbers. *)
Definition numeric_prices (properties : list Property.t) : Prop :=
  Forall (fun price => is_nan price = false) (map Property.getPrice properties).

Lemma ltb_strict_weak (l : list float) :
  Forall (fun x => is_nan x = false) l -> strict_weak_on PrimFloat.ltb l.
Proof.
  intros Hn. rewrite List.Forall_forall in Hn. split.
  - intros a b _ _. apply DoubleFacts.ltb_asym.
  - intros a b c Ha Hb Hc. apply DoubleFacts.ltb_negtrans; auto.
Qed.

(** C6. For a non-empty listing set (with prices that are numbers),
    [calculatePriceStatistics] returns the count, the mean, the first
    and the last entry of the price list sorted in ascending order (a
    least and a greatest price), the median of the sorted list (the
    average of the two middle values for an even count) and the
    population standard deviation (division by the count). For the
    empty set it returns the empty map. For the prices 100, 200, 300,
    400 the mean is 250, the median 250, the minimum 100, the maximum
    400 and the count 4. *)
Theorem C6_price_statistics `{StdAlgorithm} (properties : list Property.t) :
  (properties <> [] -> numeric_prices properties ->
   exists sorted : list float,
     Permutation (map Property.getPrice properties) sorted /\
     StronglySorted (fun a b => PrimFloat.leb a b = true) sorted /\
     calculatePriceStatistics properties
     = <["std_dev" := population_std (arithmetic_mean sorted) sorted]>
         (<["median" := stated_median sorted]>
            (<["max" := vec_at sorted (length sorted - 1)]>
               (<["min" := vec_at sorted 0]>
                  (<["mean" := arithmetic_mean sorted]>
                     (<["count" := double_of_size (length properties)]> ∅))))) /\
     (forall price, In price (map Property.getPrice properties) ->
        PrimFloat.leb (vec_at sorted 0) price = true /\
        PrimFloat.leb price (vec_at sorted (length sorted - 1)) = true)) /\
  calculatePriceStatistics [] = ∅ /\
  (Permutation (map Property.getPrice properties) [100; 200; 300; 400]%float ->
   calculatePriceStatistics properties !! "mean" = Some 250%float /\
   calculatePriceStatistics properties !! "median" = Some 250%float /\
   calculatePriceStatistics properties !! "min" = Some 100%float /\
   calculatePriceStatistics properties !! "max" = Some 400%float /\
   calculatePriceStatistics properties !! "count" = Some 4%float).
Proof.
  split; [|split; [reflexivity|]].
  - intros Hne Hn.
    pose proof (calculatePriceStatistics_nonempty properties Hne) as E.
    destruct (std_sort_contract _ PrimFloat.ltb _ (ltb_strict_weak _ Hn)) as [Hperm Hsorted].
    set (sorted := std_sort PrimFloat.ltb (map Property.getPrice properties)) in *.
    assert (Forall (fun x => is_nan x = false) sorted) as Ns.
    { unfold numeric_prices in Hn. now rewrite Hperm in Hn. }
    assert (StronglySorted (fun a b => PrimFloat.leb a b = true) sorted) as Hasc.
    { clear - Hsorted Ns. unfold sorted_by in Hsorted.
      induction Hsorted as [|a l Hs IH Ha]; constructor.
      - apply IH. now inversion Ns.
      - inversion Ns as [|? ? Na Nl]; subst.
        rewrite List.Forall_forall in Ha, Nl |- *. intros b Hb.
        apply DoubleFacts.ltb_false_leb; auto. }
    exists sorted. split; [exact Hperm|]. split; [exact Hasc|]. split.
    + cbv zeta in E. rewrite E. repeat f_equal.
      now rewrite <- (Permutation_length Hperm), length_map.
    + intros price Hp. apply ascending_first_last; try assumption.
      now apply (Permutation_in _ Hperm).
  - intros Hprices.
    assert (properties <> []) as Hne.
    { intros ->. apply Permutation_nil in Hprices. discriminate. }
    pose proof (calculatePriceStatistics_nonempty properties Hne) as E.
    cbv zeta in E.
    assert (Forall (fun a => is_nan a = false /\ PrimFloat.eqb a 0 = false)
              [100; 200; 300; 400]%float) as Hn
      by (repeat constructor).
    assert (numeric_prices properties) as Hnum.
    { unfold numeric_prices. rewrite Hprices. repeat constructor. }
    destruct (std_sort_contract _ PrimFloat.ltb _ (ltb_strict_weak _ Hnum))
      as [Hperm Hsorted].
    assert (std_sort PrimFloat.ltb (map Property.getPrice properties)
            = [100; 200; 300; 400]%float) as Es.
    { symmetry. apply ascending_unique; try assumption.
      - unfold sorted_by. repeat constructor.
      - now rewrite <- Hprices. }
    rewrite Es in E. rewrite E.
    repeat split; vm_compute; reflexivity.
Qed.

Lemma C6_witness :
  @calculatePriceStatistics reversing_algorithm Samples.four_prices !! "median"
    = Some 250%float /\
  @calculatePriceStatistics reversing_algorithm Samples.four_prices !! "min"
    = Some 100%float /\
  (exists sorted,
     Permutation (map Property.getPrice Samples.four_prices) sorted /\
     @calculatePriceStatistics reversing_algorithm Samples.four_prices !! "max"
       = Some (vec_at sorted 3)).
Proof.
  destruct (@C6_price_statistics reversing_algorithm Samples.four_prices)
    as (Hgen & _ & Hex).
  destruct Hex as (_ & Hmedian & Hmin & _).
  { simpl. eapply Permutation_trans; [apply perm_swap|]. apply perm_skip.
    eapply Permutation_trans; [apply perm_skip, perm_swap|]. apply perm_swap. }
  split; [exact Hmedian|]. split; [exact Hmin|].
  destruct Hgen as (sorted & Hperm & _ & E & _).
  { discriminate. }
  { repeat constructor. }
  exists sorted. split; [exact Hperm|].
  rewrite E. rewrite lookup_insert_ne, lookup_insert_ne, lookup_insert_eq by discriminate.
  apply Permutation_length in Hperm. simpl in Hperm. now rewrite <- Hperm.
Defined.

(** * Further properties of the price predictor *)

Lemma extract_all_rows (data : list Property.t) (rows : list (list float)) (s0 : t) :
  let X :=
    fst (fold_left
           (fun acc property =>
              let '(row, s) := extractFeatures (snd acc) property in
              (fst acc ++ [row], s))
           data (rows, s0)) in
  length X = (length rows + length data)%nat /\
  (Forall (fun row => length row = 9%nat) rows ->
   Forall (fun row => length row = 9%nat) X).
Proof.
  revert rows s0. induction data as [|p data IH]; intros rows s0; simpl.
  - split; [lia|auto].
  - pose proof (extractFeatures_length s0 p) as Hl.
    destruct (extractFeatures s0 p) as [row s1]; simpl in *.
    destruct (IH (rows ++ [row]) s1) as [IH1 IH2]. simpl in IH1, IH2.
    split.
    + rewrite IH1, length_app. simpl. lia.
    + intros Hrows. apply IH2. apply Forall_app. split; [assumption|].
      now repeat constructor.
Qed.

Lemma gradient_step_length (n : nat) (X : list (list float)) (y : list float)
  (wb : list float * float) :
  length (fst (gradient_step n X y wb)) = length (fst wb).
Proof.
  destruct wb as [w b]. unfold gradient_step.
  destruct (fold_left _ _ _) as [wg bg]. simpl. apply length_imap.
Qed.

Lemma gradient_descent_length (k n : nat) (X : list (list float)) (y : list float)
  (wb : list float * float) :
  length (fst (Nat.iter k (gradient_step n X y) wb)) = length (fst wb).
Proof.
  induction k as [|k IH]; simpl; [reflexivity|].
  now rewrite gradient_step_length.
Qed.

Lemma trainLinearRegression_weights (self : t) (first : list float)
  (rest : list (list float)) (y : list float) :
  length (first :: rest) = length y ->
  length (weights_ (trainLinearRegression self (first :: rest) y)) = length first.
Proof.
  intros Hl. unfold trainLinearRegression.
  apply Nat.eqb_eq in Hl. rewrite Hl. cbn [negb].
  pose proof (gradient_descent_length max_iterations (length first) (first :: rest) y
                (resize (length first) 0%float (weights_ self), 0%float)) as L.
  destruct (Nat.iter _ _ _) as [w b]. simpl in *. now rewrite L, length_resize.
Qed.

Lemma trainLinearRegression_frame (self : t) (X : list (list float)) (y : list float) :
  let s := trainLinearRegression self X y in
  model_type_ s = model_type_ self /\ is_trained_ s = is_trained_ self /\
  feature_means_ s = feature_means_ self /\ feature_stds_ s = feature_stds_ self.
Proof.
  unfold trainLinearRegression. destruct X as [|first X]; [simpl; tauto|].
  destruct (negb _); [simpl; tauto|].
  destruct (Nat.iter _ _ _) as [w b]. simpl. tauto.
Qed.

Lemma calculateNormalizationParams_frame (self : t) (X : list (list float)) :
  let s := calculateNormalizationParams self X in
  model_type_ s = model_type_ self /\ is_trained_ s = is_trained_ self /\
  weights_ s = weights_ self /\ bias_ s = bias_ self.
Proof. destruct X; simpl; tauto. Qed.

Lemma extract_all_frame (data : list Property.t) (rows : list (list float)) (s0 : t) :
  let s :=
    snd (fold_left
           (fun acc property =>
              let '(row, s) := extractFeatures (snd acc) property in
              (fst acc ++ [row], s))
           data (rows, s0)) in
  model_type_ s = model_type_ s0 /\ is_trained_ s = is_trained_ s0 /\
  weights_ s = weights_ s0 /\ bias_ s = bias_ s0 /\
  feature_means_ s = feature_means_ s0 /\ feature_stds_ s = feature_stds_ s0.
Proof.
  revert rows s0. induction data as [|p data IH]; intros rows s0; simpl; [tauto|].
  pose proof (extractFeatures_frame s0 p) as F.
  destruct (extractFeatures s0 p) as [row s1]; simpl in *.
  specialize (IH (rows ++ [row]) s1). simpl in IH.
  destruct F as (F1 & F2 & F3 & F4 & F5 & F6).
  destruct IH as (I1 & I2 & I3 & I4 & I5 & I6).
  repeat split; congruence.
Qed.

Lemma initializeEncodings_frame (self : t) (data : list Property.t) :
  let s := initializeEncodings self data in
  model_type_ s = model_type_ self /\ is_trained_ s = is_trained_ self /\
  weights_ s = weights_ self /\ bias_ s = bias_ self /\
  feature_means_ s = feature_means_ self /\ feature_stds_ s = feature_stds_ self.
Proof.
  unfold initializeEncodings.
  assert (forall s0,
            let s := fold_left
              (fun s property =>
                 let s1 := set_city_encoding s
                   (snd (encodeCategorical (Property.getCity property) (city_encoding_ s))) in
                 set_type_encoding s1
                   (snd (encodeCategorical (Property.getType property) (type_encoding_ s1))))
              data s0 in
            model_type_ s = model_type_ s0 /\ is_trained_ s = is_trained_ s0 /\
            weights_ s = weights_ s0 /\ bias_ s = bias_ s0 /\
            feature_means_ s = feature_means_ s0 /\ feature_stds_ s = feature_stds_ s0) as G.
  { induction data as [|p data IH]; intros s0; simpl; [tauto|].
    specialize (IH (set_type_encoding
                      (set_city_encoding s0
                         (snd (encodeCategorical (Property.getCity p) (city_encoding_ s0))))
                      (snd (encodeCategorical (Property.getType p) (type_encoding_ s0))))).
    simpl in IH. exact IH. }
  exact (G (set_type_encoding (set_city_encoding self ∅) ∅)).
Qed.

(** The feature matrix [trainModel] builds, and the model on which it
    computes the normalization parameters. *)
Lemma trainModel_stages (self : t) (data : list Property.t) :
  data <> [] ->
  exists (X : list (list float)) (s2 : t),
    extract_all (initializeEncodings self data) data = (X, s2) /\
    length X = length data /\
    Forall (fun row => length row = 9%nat) X /\
    model_type_ s2 = model_type_ self /\
    weights_ s2 = weights_ self /\ bias_ s2 = bias_ self /\
    feature_means_ s2 = feature_means_ self /\ feature_stds_ s2 = feature_stds_ self /\
    trainModel self data =
      (let s3 := calculateNormalizationParams s2 X in
       let Xn := map (normalizeFeatureVector s3) X in
       let s4 :=
         if String.eqb (model_type_ s3) "linear_regression"
         then trainLinearRegression s3 Xn (map Property.getPrice data) else s3 in
       (true, set_is_trained s4 true)).
Proof.
  intros Hne.
  pose proof (extract_all_rows data [] (initializeEncodings self data)) as [Hl Hr].
  pose proof (extract_all_frame data [] (initializeEncodings self data)) as F.
  pose proof (initializeEncodings_frame self data) as I.
  rewrite (trainModel_nonempty self data Hne). cbv zeta.
  unfold extract_all in *.
  destruct (fold_left _ data ([], initializeEncodings self data)) as [X s2].
  cbn [fst snd] in *.
  exists X, s2. split; [reflexivity|]. split; [exact Hl|].
  split; [apply Hr; constructor|].
  destruct F as (F1 & _ & F3 & F4 & F5 & F6).
  destruct I as (I1 & _ & I3 & I4 & I5 & I6).
  repeat split; congruence.
Qed.


(** X1. A training of a [linear_regression] model on a non-empty listing
    set, whatever the object held before, leaves a trained model with
    nine weights, nine means and nine deviations: every later
    prediction is the clamped affine combination of the nine normalized
    features, never the 0 of a dimension mismatch. *)
Theorem trained_model_has_nine_weights (self : t) (data : list Property.t) (p : Property.t) :
  data <> [] -> model_type_ self = "linear_regression" ->
  let model := snd (trainModel self data) in
  is_trained_ model = true /\
  length (weights_ model) = 9%nat /\
  length (feature_means_ model) = 9%nat /\
  length (feature_stds_ model) = 9%nat /\
  fst (predictPrice model p)
    = std_max 0 (affine_combination (bias_ model) (weights_ model)
                   (normalized_features model p)).
Proof.
  intros Hne Hty model.
  destruct (trainModel_stages self data Hne)
    as (X & s2 & _ & HlX & HrX & Ht2 & _ & _ & _ & _ & E).
  destruct X as [|first rest]; [destruct data; [congruence|discriminate]|].
  pose proof (calculateNormalizationParams_length s2 first rest) as [Lm Ls].
  pose proof (calculateNormalizationParams_frame s2 (first :: rest)) as (Nt & _).
  cbv zeta in E, Lm, Ls, Nt.
  remember (calculateNormalizationParams s2 (first :: rest)) as s3 eqn:Es3.
  assert (length first = 9%nat) as L9 by now inversion HrX.
  rewrite Nt, Ht2, Hty, String.eqb_refl in E.
  remember (map (normalizeFeatureVector s3) (first :: rest)) as Xn eqn:EXn.
  pose proof (trainLinearRegression_frame s3 Xn (map Property.getPrice data))
    as (_ & _ & Fm & Fs).
  cbv zeta in Fm, Fs.
  assert (length (weights_ (trainLinearRegression s3 Xn (map Property.getPrice data))) = 9%nat)
    as Lw.
  { rewrite EXn. cbn [map].
    rewrite trainLinearRegression_weights.
    - now rewrite normalizeFeatureVector_length.
    - cbn [length]. rewrite !length_map. exact HlX. }
  remember (trainLinearRegression s3 Xn (map Property.getPrice data)) as s4 eqn:Es4.
  assert (model = set_is_trained s4 true) as Em by (unfold model; now rewrite E).
  clearbody model. subst model.
  cbn [set_is_trained is_trained_ weights_ feature_means_ feature_stds_].
  split; [reflexivity|]. split; [exact Lw|]. split; [congruence|]. split; [congruence|].
  rewrite (predictPrice_value (set_is_trained s4 true) p eq_refl).
  unfold predict_with.
  rewrite normalized_features_length.
  cbn [set_is_trained weights_ bias_]. rewrite Lw, dot_from_affine.
  reflexivity.
Qed.

Lemma trained_model_has_nine_weights_witness :
  length (weights_ (snd (trainModel new [Samples.pune_flat; Samples.goa_flat]))) = 9%nat.
Proof.
  exact (proj1 (proj2 (trained_model_has_nine_weights new
                         [Samples.pune_flat; Samples.goa_flat] Samples.delhi_villa
                         ltac:(discriminate) eq_refl))).
Defined.

(** ** Deviations are never zero *)

Lemma calculateNormalizationParams_stds_nonzero (self : t) (X : list (list float)) :
  X <> [] ->
  Forall (fun d => PrimFloat.eqb d 0 = false)
    (feature_stds_ (calculateNormalizationParams self X)).
Proof.
  intros Hne. destruct X as [|first rest]; [congruence|].
  unfold calculateNormalizationParams.
  cbn [set_feature_stds set_feature_means feature_stds_].
  apply List.Forall_forall. intros d Hd.
  apply in_map_iff in Hd as (s & <- & _). cbv zeta.
  destruct (PrimFloat.eqb (sqrt (s / double_of_size (length (first :: rest)))) 0) eqn:E.
  - reflexivity.
  - exact E.
Qed.

(** X2. After every training that succeeds, no stored deviation compares
    equal to zero: the division of [normalizeFeatureVector] is never a
    division by zero, also for a feature that is constant over the
    training listings. *)
Theorem trained_deviations_nonzero (self : t) (data : list Property.t) :
  data <> [] ->
  Forall (fun d => PrimFloat.eqb d 0 = false)
    (feature_stds_ (snd (trainModel self data))).
Proof.
  intros Hne.
  destruct (trainModel_stages self data Hne)
    as (X & s2 & _ & HlX & _ & _ & _ & _ & _ & _ & E).
  assert (X <> []) as HX by (destruct X, data; simpl in HlX; congruence).
  pose proof (calculateNormalizationParams_stds_nonzero s2 X HX) as N.
  cbv zeta in E.
  remember (calculateNormalizationParams s2 X) as s3 eqn:Es3.
  pose proof (trainLinearRegression_frame s3 (map (normalizeFeatureVector s3) X)
                (map Property.getPrice data)) as (_ & _ & _ & Fs).
  cbv zeta in Fs. rewrite E. cbn [snd].
  destruct (String.eqb (model_type_ s3) "linear_regression");
    cbn [set_is_trained feature_stds_]; [now rewrite Fs|exact N].
Qed.

Lemma trained_deviations_nonzero_witness :
  Forall (fun d => PrimFloat.eqb d 0 = false)
    (feature_stds_ (snd (trainModel new [Samples.pune_flat; Samples.delhi_twin]))).
Proof.
  apply (trained_deviations_nonzero new [Samples.pune_flat; Samples.delhi_twin]).
  discriminate.
Defined.

(** ** Predictions leave the coefficients alone *)

Lemma predictPrice_frame (self : t) (p : Property.t) :
  let s := snd (predictPrice self p) in
  model_type_ s = model_type_ self /\ is_trained_ s = is_trained_ self /\
  weights_ s = weights_ self /\ bias_ s = bias_ self /\
  feature_means_ s = feature_means_ self /\ feature_stds_ s = feature_stds_ self.
Proof.
  unfold predictPrice. destruct (negb (is_trained_ self)); [cbn; tauto|].
  pose proof (extractFeatures_frame self p) as F.
  destruct (extractFeatures self p) as [features s1]. exact F.
Qed.

Lemma predictPrices_from (properties : list Property.t) (prices : list float) (s0 : t) :
  let r :=
    fold_left
      (fun acc property =>
         let '(price, s) := predictPrice (snd acc) property in
         (fst acc ++ [price], s))
      properties (prices, s0) in
  length (fst r) = (length prices + length properties)%nat /\
  model_type_ (snd r) = model_type_ s0 /\ is_trained_ (snd r) = is_trained_ s0 /\
  weights_ (snd r) = weights_ s0 /\ bias_ (snd r) = bias_ s0 /\
  feature_means_ (snd r) = feature_means_ s0 /\
  feature_stds_ (snd r) = feature_stds_ s0.
Proof.
  revert prices s0. induction properties as [|p properties IH]; intros prices s0.
  - cbn. repeat split. lia.
  - cbn [fold_left snd fst].
    pose proof (predictPrice_frame s0 p) as F. cbv zeta in F.
    destruct (predictPrice s0 p) as [price s1]. cbn [snd] in F.
    specialize (IH (prices ++ [price]) s1). cbv zeta in IH.
    destruct IH as (I0 & I1 & I2 & I3 & I4 & I5 & I6).
    destruct F as (F1 & F2 & F3 & F4 & F5 & F6).
    rewrite length_app in I0. cbn [length] in *.
    repeat split; try congruence. lia.
Qed.

(** X5. [predictPrices] returns one price per listing, in order, and
    whatever the listings are it leaves the model type, the trained
    flag, the weights, the bias and the normalization parameters as
    they were: only the two encoding tables can change. *)
Theorem predictPrices_keeps_coefficients (self : t) (properties : list Property.t) :
  let '(prices, s) := predictPrices self properties in
  length prices = length properties /\
  model_type_ s = model_type_ self /\ is_trained_ s = is_trained_ self /\
  weights_ s = weights_ self /\ bias_ s = bias_ self /\
  feature_means_ s = feature_means_ self /\ feature_stds_ s = feature_stds_ self.
Proof.
  pose proof (predictPrices_from properties [] self) as H. cbv zeta in H.
  unfold predictPrices. destruct (fold_left _ properties ([], self)) as [prices s].
  exact H.
Qed.

(** X6. On a model that is not trained, [predictPrices] returns a 0 for
    every listing and changes nothing, the encoding tables included. *)
Theorem predictPrices_untrained (self : t) (properties : list Property.t) :
  is_trained_ self = false ->
  predictPrices self properties = (repeat 0%float (length properties), self).
Proof.
  intros Hu. unfold predictPrices.
  assert (forall prices,
            fold_left
              (fun acc property =>
                 let '(price, s) := predictPrice (snd acc) property in
                 (fst acc ++ [price], s))
              properties (prices, self)
            = (prices ++ repeat 0%float (length properties), self)) as G.
  { induction properties as [|p properties IH]; intros prices.
    - cbn. now rewrite app_nil_r.
    - cbn [fold_left snd fst length repeat].
      assert (predictPrice self p = (0%float, self)) as -> by
        (unfold predictPrice; now rewrite Hu).
      rewrite IH. now rewrite <- app_assoc. }
  apply (G []).
Qed.

Lemma predictPrices_untrained_witness :
  predictPrices new [Samples.pune_flat; Samples.goa_flat] = ([0%float; 0%float], new).
Proof.
  apply (predictPrices_untrained new [Samples.pune_flat; Samples.goa_flat]).
  reflexivity.
Defined.

(** ** Metrics *)

(** X8. [getModelMetrics] always reports [is_trained], [num_features] and
    [bias]; it reports [avg_weight] exactly when the model has a weight,
    and no other key. *)
Theorem getModelMetrics_keys (self : t) :
  let metrics := getModelMetrics self in
  metrics !! "is_trained" = Some (if is_trained_ self then 1%float else 0%float) /\
  metrics !! "num_features" = Some (double_of_size (length (weights_ self))) /\
  metrics !! "bias" = Some (bias_ self) /\
  (is_Some (metrics !! "avg_weight") <-> weights_ self <> []) /\
  (forall key, is_Some (metrics !! key) ->
     key = "is_trained" \/ key = "num_features" \/ key = "bias" \/ key = "avg_weight").
Proof.
  unfold getModelMetrics. cbv zeta.
  destruct (weights_ self) as [|w ws] eqn:E.
  - repeat split.
    + intros [x Hx]. exfalso. revert Hx.
      rewrite !lookup_insert_ne, lookup_empty by discriminate. discriminate.
    + intros H. congruence.
    + intros key [x Hx].
      destruct (decide (key = "bias")) as [->|N1]; [tauto|].
      destruct (decide (key = "num_features")) as [->|N2]; [tauto|].
      destruct (decide (key = "is_trained")) as [->|N3]; [tauto|].
      rewrite !lookup_insert_ne, lookup_empty in Hx by congruence. discriminate.
  - repeat split.
    + intros _. discriminate.
    + intros _. rewrite lookup_insert_eq. eauto.
    + intros key [x Hx].
      destruct (decide (key = "avg_weight")) as [->|N0]; [tauto|].
      destruct (decide (key = "bias")) as [->|N1]; [tauto|].
      destruct (decide (key = "num_features")) as [->|N2]; [tauto|].
      destruct (decide (key = "is_trained")) as [->|N3]; [tauto|].
      rewrite !lookup_insert_ne, lookup_empty in Hx by congruence. discriminate.
Qed.

(** X7. [calculateAccuracy] answers 0 without touching the object when the
    model is not trained or there is no test listing, and in every case
    it leaves the coefficients and the normalization parameters as they
    were. *)
Theorem calculateAccuracy_keeps_coefficients (self : t) (test_data : list Property.t) :
  (is_trained_ self = false \/ test_data = [] ->
   calculateAccuracy self test_data = (0%float, self)) /\
  let s := snd (calculateAccuracy self test_data) in
  model_type_ s = model_type_ self /\ is_trained_ s = is_trained_ self /\
  weights_ s = weights_ self /\ bias_ s = bias_ self /\
  feature_means_ s = feature_means_ self /\ feature_stds_ s = feature_stds_ self.
Proof.
  split.
  - intros [Hu| ->]; unfold calculateAccuracy.
    + now rewrite Hu.
    + cbn [length Nat.eqb]. now rewrite orb_true_r.
  - unfold calculateAccuracy. destruct (_ || _); [cbn; tauto|].
    assert (forall e a s0,
              let r :=
                fold_left
                  (fun acc property =>
                     let '(total_error, total_actual, s) := acc in
                     let '(predicted, s') := predictPrice s property in
                     let actual := Property.getPrice property in
                     ((total_error + abs (predicted - actual))%float,
                      (total_actual + actual)%float, s'))
                  test_data (e, a, s0) in
              model_type_ (snd r) = model_type_ s0 /\ is_trained_ (snd r) = is_trained_ s0 /\
              weights_ (snd r) = weights_ s0 /\ bias_ (snd r) = bias_ s0 /\
              feature_means_ (snd r) = feature_means_ s0 /\
              feature_stds_ (snd r) = feature_stds_ s0) as G.
    { induction test_data as [|p test_data IH]; intros e a s0.
      - cbn. tauto.
      - cbn [fold_left].
        pose proof (predictPrice_frame s0 p) as F. cbv zeta in F.
        destruct (predictPrice s0 p) as [predicted s1]. cbn [snd] in F.
        specialize (IH (e + abs (predicted - Property.getPrice p))%float
                       (a + Property.getPrice p)%float s1).
        cbv zeta in IH |- *.
        destruct IH as (I1 & I2 & I3 & I4 & I5 & I6).
        destruct F as (F1 & F2 & F3 & F4 & F5 & F6).
        repeat split; congruence. }
    specialize (G 0%float 0%float self). cbv zeta in G.
    destruct (fold_left _ test_data (0%float, 0%float, self)) as [[e a] s].
    exact G.
Qed.

(** ** Loading *)

(** The object a [loadModel] call leaves, however the call ends. *)
Definition left_by (o : outcome) : t :=
  match o with
  | Returns _ self => self
  | Throws self => self
  end.

(** X9. [loadModel] never reads or writes the normalization parameters and
    the encoding tables, however the call ends. A file that can be
    opened is never answered with [false]; when the call returns, the
    model counts as trained exactly when a weight was read. A file that
    cannot be opened leaves the object as it was. *)
Theorem loadModel_keeps_normalization (self : t) (model_file : option string) :
  let s := left_by (loadModel self model_file) in
  feature_means_ s = feature_means_ self /\
  feature_stds_ s = feature_stds_ self /\
  city_encoding_ s = city_encoding_ self /\
  type_encoding_ s = type_encoding_ self /\
  (forall result s', loadModel self model_file = Returns result s' ->
     (result = false <-> model_file = None) /\
     (result = true -> is_trained_ s' = negb (length (weights_ s') =? 0)%nat)) /\
  (model_file = None -> loadModel self model_file = Returns false self).
Proof.
  destruct model_file as [file|]; cbv zeta.
  - unfold loadModel.
    destruct (match getline file with
              | Some (line, rest) => (set_model_type self line, rest)
              | None => (self, file)
              end) as [s1 file1] eqn:E1.
    assert (feature_means_ s1 = feature_means_ self /\
            feature_stds_ s1 = feature_stds_ self /\
            city_encoding_ s1 = city_encoding_ self /\
            type_encoding_ s1 = type_encoding_ self) as (A1 & A2 & A3 & A4).
    { destruct (getline file) as [[line rest]|]; injection E1 as <- _; cbn; tauto. }
    destruct (match getline file1 with
              | Some (line, rest) => (Some (stod line), rest)
              | None => (None, file1)
              end) as [bias file2].
    assert (forall weights (s : t),
              feature_means_ s = feature_means_ self ->
              feature_stds_ s = feature_stds_ self ->
              city_encoding_ s = city_encoding_ self ->
              type_encoding_ s = type_encoding_ self ->
              let s3 := set_weights s weights in
              let o := Returns true (set_is_trained s3 (negb (length weights =? 0)%nat)) in
              feature_means_ (left_by o) = feature_means_ self /\
              feature_stds_ (left_by o) = feature_stds_ self /\
              city_encoding_ (left_by o) = city_encoding_ self /\
              type_encoding_ (left_by o) = type_encoding_ self /\
              (forall result s', o = Returns result s' ->
                 (result = false <-> Some file = None) /\
                 (result = true -> is_trained_ s' = negb (length (weights_ s') =? 0)%nat)) /\
              (Some file = None -> o = Returns false self)) as Good.
    { intros weights s B1 B2 B3 B4. cbv zeta. cbn [left_by].
      split; [exact B1|]. split; [exact B2|]. split; [exact B3|]. split; [exact B4|].
      split; [|discriminate].
      intros result s' H. injection H as <- <-. split.
      - split; discriminate.
      - intros _. reflexivity. }
    assert (forall s : t,
              feature_means_ s = feature_means_ self ->
              feature_stds_ s = feature_stds_ self ->
              city_encoding_ s = city_encoding_ self ->
              type_encoding_ s = type_encoding_ self ->
              let o := Throws s in
              feature_means_ (left_by o) = feature_means_ self /\
              feature_stds_ (left_by o) = feature_stds_ self /\
              city_encoding_ (left_by o) = city_encoding_ self /\
              type_encoding_ (left_by o) = type_encoding_ self /\
              (forall result s', o = Returns result s' ->
                 (result = false <-> Some file = None) /\
                 (result = true -> is_trained_ s' = negb (length (weights_ s') =? 0)%nat)) /\
              (Some file = None -> o = Returns false self)) as Thrown.
    { intros s B1 B2 B3 B4. cbv zeta. cbn [left_by].
      split; [exact B1|]. split; [exact B2|]. split; [exact B3|]. split; [exact B4|].
      split; discriminate. }
    destruct bias as [[b|]|].
    + destruct (read_weights _ file2 []) as [weights threw].
      destruct threw.
      * apply (Thrown (set_weights (set_bias s1 b) weights)); assumption.
      * apply (Good weights (set_bias s1 b)); assumption.
    + apply (Thrown s1); assumption.
    + destruct (read_weights _ file2 []) as [weights threw].
      destruct threw.
      * apply (Thrown (set_weights s1 weights)); assumption.
      * apply (Good weights s1); assumption.
  - cbn [loadModel left_by].
    split; [reflexivity|]. split; [reflexivity|]. split; [reflexivity|].
    split; [reflexivity|]. split; [|reflexivity].
    intros result s' H. injection H as <- <-. split; [tauto|discriminate].
Qed.

(** ** Category codes *)

(** A table with [n] entries holds each of the codes [0 .. n-1] once. *)
Definition dense (m : gmap string Z) : Prop :=
  (forall k c, m !! k = Some c -> (0 <= c < Z.of_nat (size m))%Z) /\
  (forall k1 k2 c, m !! k1 = Some c -> m !! k2 = Some c -> k1 = k2) /\
  (forall c, (0 <= c < Z.of_nat (size m))%Z -> exists k, m !! k = Some c).

Lemma dense_empty : dense ∅.
Proof.
  split; [|split].
  - intros k c. rewrite lookup_empty. discriminate.
  - intros k1 k2 c. rewrite lookup_empty. discriminate.
  - intros c. rewrite map_size_empty. lia.
Qed.

Lemma encodeCategorical_dense (v : string) (m : gmap string Z) :
  dense m -> dense (snd (encodeCategorical v m)).
Proof.
  intros (R & I & S). unfold encodeCategorical.
  destruct (m !! v) as [c|] eqn:E; cbn [snd]; [exact (conj R (conj I S))|].
  unfold int_of_size.
  assert (size (<[v := Z.of_nat (size m)]> m) = Datatypes.S (size m)) as Hs
    by now apply map_size_insert_None.
  split; [|split].
  - intros k c Hk. rewrite Hs.
    destruct (decide (v = k)) as [<-|N].
    + rewrite lookup_insert_eq in Hk. injection Hk as <-. lia.
    + rewrite lookup_insert_ne in Hk by assumption. apply R in Hk. lia.
  - intros k1 k2 c H1 H2.
    destruct (decide (v = k1)) as [<-|N1], (decide (v = k2)) as [<-|N2];
      try reflexivity.
    + rewrite lookup_insert_eq in H1. rewrite lookup_insert_ne in H2 by assumption.
      injection H1 as <-. apply R in H2. lia.
    + rewrite lookup_insert_eq in H2. rewrite lookup_insert_ne in H1 by assumption.
      injection H2 as <-. apply R in H1. lia.
    + rewrite lookup_insert_ne in H1, H2 by assumption. eauto.
  - intros c Hc. rewrite Hs in Hc.
    destruct (decide (c = Z.of_nat (size m))) as [->|N].
    + exists v. apply lookup_insert_eq.
    + destruct (S c) as [k Hk]; [lia|]. exists k.
      rewrite lookup_insert_ne; [assumption|congruence].
Qed.

Lemma encode_all_dense (vs : list string) (m : gmap string Z) :
  dense m -> dense (encode_all vs m).
Proof.
  revert m. induction vs as [|v vs IH]; intros m D; simpl; [assumption|].
  now apply IH, encodeCategorical_dense.
Qed.

Lemma predictPrice_dense (self : t) (p : Property.t) :
  dense (city_encoding_ self) /\ dense (type_encoding_ self) ->
  dense (city_encoding_ (snd (predictPrice self p))) /\
  dense (type_encoding_ (snd (predictPrice self p))).
Proof.
  intros D. unfold predictPrice. destruct (negb (is_trained_ self)); [exact D|].
  pose proof (extractFeatures_tables self p) as [Ec Et].
  destruct (extractFeatures self p) as [features s1]. cbn [snd] in *.
  rewrite Ec, Et. split; apply encodeCategorical_dense; tauto.
Qed.

Lemma predictPrices_from_dense (properties : list Property.t) (prices : list float)
  (s0 : t) :
  dense (city_encoding_ s0) /\ dense (type_encoding_ s0) ->
  let r :=
    fold_left
      (fun acc property =>
         let '(price, s) := predictPrice (snd acc) property in
         (fst acc ++ [price], s))
      properties (prices, s0) in
  dense (city_encoding_ (snd r)) /\ dense (type_encoding_ (snd r)).
Proof.
  revert prices s0. induction properties as [|p properties IH]; intros prices s0 D.
  - exact D.
  - cbn [fold_left snd fst].
    pose proof (predictPrice_dense s0 p D) as D1.
    destruct (predictPrice s0 p) as [price s1]. cbn [snd] in D1.
    apply (IH (prices ++ [price]) s1 D1).
Qed.

(** X3. The codes of the cities and of the property types are dense after a
    training, and predictions keep them dense: a table of [n] values
    gives each code [0 .. n-1] to exactly one value, whatever listings
    the model has been asked about since. *)
Theorem encodings_stay_dense (self : t) (data queries : list Property.t) :
  data <> [] ->
  let model := snd (predictPrices (snd (trainModel self data)) queries) in
  dense (city_encoding_ model) /\ dense (type_encoding_ model).
Proof.
  intros Hne.
  destruct (trainModel_tables self data Hne) as (_ & _ & Hc & Ht).
  assert (dense (city_encoding_ (snd (trainModel self data))) /\
          dense (type_encoding_ (snd (trainModel self data)))) as D.
  { rewrite Hc, Ht. split; apply encode_all_dense, dense_empty. }
  exact (predictPrices_from_dense queries [] _ D).
Qed.

Lemma encodings_stay_dense_witness :
  dense (city_encoding_
           (snd (predictPrices
                   (snd (trainModel new [Samples.pune_flat; Samples.goa_flat]))
                   [Samples.delhi_villa]))).
Proof.
  exact (proj1 (encodings_stay_dense new [Samples.pune_flat; Samples.goa_flat]
                  [Samples.delhi_villa] ltac:(discriminate))).
Defined.

(** ** Model types without a training *)

(** X4. [trainModel] has a training for [linear_regression] only. With any
    other model type it still answers [true] and marks the model as
    trained, with the weights and the bias it had before. A new
    predictor "trained" that way predicts 0 for every listing. *)
Theorem trainModel_other_type (self : t) (type : string) (data : list Property.t) :
  data <> [] -> type <> "linear_regression" ->
  let '(ok, model) := trainModel (setModelType self type) data in
  ok = true /\ is_trained_ model = true /\
  weights_ model = weights_ self /\ bias_ model = bias_ self /\
  (weights_ self = [] -> forall p, fst (predictPrice model p) = 0%float).
Proof.
  intros Hne Hty.
  destruct (trainModel_stages (setModelType self type) data Hne)
    as (X & s2 & _ & _ & _ & Ht2 & Hw2 & Hb2 & _ & _ & E).
  pose proof (calculateNormalizationParams_frame s2 X) as (Nt & _ & Nw & Nb).
  cbv zeta in E, Nt, Nw, Nb.
  remember (calculateNormalizationParams s2 X) as s3 eqn:Es3.
  assert (String.eqb (model_type_ s3) "linear_regression" = false) as Ef.
  { rewrite Nt, Ht2. cbn [setModelType set_model_type model_type_].
    now apply String.eqb_neq. }
  rewrite Ef in E. rewrite E.
  cbn [set_is_trained is_trained_ weights_ bias_].
  split; [reflexivity|]. split; [reflexivity|].
  split; [now rewrite Nw, Hw2|]. split; [now rewrite Nb, Hb2|].
  intros Hw p.
  rewrite (predictPrice_value (set_is_trained s3 true) p eq_refl).
  unfold predict_with. rewrite normalized_features_length.
  cbn [set_is_trained weights_]. rewrite Nw, Hw2.
  cbn [setModelType set_model_type weights_]. rewrite Hw. reflexivity.
Qed.

Lemma trainModel_other_type_witness :
  let '(ok, model) := trainModel (setModelType new "random_forest") [Samples.pune_flat] in
  ok = true /\ is_trained_ model = true /\
  weights_ model = [] /\ bias_ model = 0%float /\
  (weights_ new = [] -> forall p, fst (predictPrice model p) = 0%float).
Proof.
  apply (trainModel_other_type new "random_forest" [Samples.pune_flat]); discriminate.
Defined.

(** * Further properties of the search engine *)

(** ** Orders on a numeric key *)

Lemma ltb_key_strict_weak {A : Type} (key : A -> float) (l : list A) :
  (forall a, In a l -> is_nan (key a) = false) ->
  strict_weak_on (fun a b => PrimFloat.ltb (key a) (key b)) l /\
  strict_weak_on (fun a b => PrimFloat.ltb (key b) (key a)) l.
Proof.
  intros N. split; split.
  - intros a b _ _. apply DoubleFacts.ltb_asym.
  - intros a b c Ha Hb Hc. apply DoubleFacts.ltb_negtrans; auto.
  - intros a b _ _. apply DoubleFacts.ltb_asym.
  - intros a b c Ha Hb Hc Hab Hbc.
    apply (DoubleFacts.ltb_negtrans (key c) (key b) (key a)); auto.
Qed.

(** No element has a greater (smaller) key than one after it. *)
Definition ascending {A : Type} (key : A -> float) (l : list A) : Prop :=
  StronglySorted (fun a b => PrimFloat.leb (key a) (key b) = true) l.

Definition descending {A : Type} (key : A -> float) (l : list A) : Prop :=
  StronglySorted (fun a b => PrimFloat.leb (key b) (key a) = true) l.

Lemma sorted_by_ascending {A : Type} (key : A -> float) (l : list A) :
  (forall a, In a l -> is_nan (key a) = false) ->
  sorted_by (fun a b => PrimFloat.ltb (key a) (key b)) l -> ascending key l.
Proof.
  unfold sorted_by, ascending. intros N Hs.
  induction Hs as [|a l Hs IH Ha]; constructor.
  - apply IH. intros b Hb. apply N. now right.
  - rewrite List.Forall_forall in Ha |- *. intros b Hb.
    apply DoubleFacts.ltb_false_leb; auto; apply N; simpl; auto.
Qed.

Lemma sorted_by_descending {A : Type} (key : A -> float) (l : list A) :
  (forall a, In a l -> is_nan (key a) = false) ->
  sorted_by (fun a b => PrimFloat.ltb (key b) (key a)) l -> descending key l.
Proof.
  unfold sorted_by, descending. intros N Hs.
  induction Hs as [|a l Hs IH Ha]; constructor.
  - apply IH. intros b Hb. apply N. now right.
  - rewrite List.Forall_forall in Ha |- *. intros b Hb.
    apply DoubleFacts.ltb_false_leb; auto; apply N; simpl; auto.
Qed.

Lemma std_sort_ascending `{StdAlgorithm} {A : Type} (key : A -> float) (l : list A) :
  (forall a, In a l -> is_nan (key a) = false) ->
  Permutation l (std_sort (fun a b => PrimFloat.ltb (key a) (key b)) l) /\
  ascending key (std_sort (fun a b => PrimFloat.ltb (key a) (key b)) l).
Proof.
  intros N. destruct (ltb_key_strict_weak key l N) as [W _].
  destruct (std_sort_contract _ _ _ W) as [P S]. split; [exact P|].
  apply sorted_by_ascending; [|exact S].
  intros a Ha. apply N. apply (Permutation_in _ (Permutation_sym P) Ha).
Qed.

Lemma std_sort_descending `{StdAlgorithm} {A : Type} (key : A -> float) (l : list A) :
  (forall a, In a l -> is_nan (key a) = false) ->
  Permutation l (std_sort (fun a b => PrimFloat.ltb (key b) (key a)) l) /\
  descending key (std_sort (fun a b => PrimFloat.ltb (key b) (key a)) l).
Proof.
  intros N. destruct (ltb_key_strict_weak key l N) as [_ W].
  destruct (std_sort_contract _ _ _ W) as [P S]. split; [exact P|].
  apply sorted_by_descending; [|exact S].
  intros a Ha. apply N. apply (Permutation_in _ (Permutation_sym P) Ha).
Qed.

Lemma sorted_by_weaken {A : Type} (comp : A -> A -> bool) (R : A -> A -> Prop)
  (l : list A) :
  (forall a b, comp b a = false -> R a b) ->
  sorted_by comp l -> StronglySorted R l.
Proof.
  unfold sorted_by. intros HR Hs.
  induction Hs as [|a s Hs IH Ha]; constructor; [exact IH|].
  rewrite List.Forall_forall in Ha |- *. intros b Hb. apply HR, Ha, Hb.
Qed.

Lemma std_sort_Z `{StdAlgorithm} {A : Type} (key : A -> Z) (l : list A) :
  (Permutation l (std_sort (fun a b => (key a <? key b)%Z) l) /\
   StronglySorted (fun a b => (key a <= key b)%Z)
     (std_sort (fun a b => (key a <? key b)%Z) l)) /\
  (Permutation l (std_sort (fun a b => (key b <? key a)%Z) l) /\
   StronglySorted (fun a b => (key b <= key a)%Z)
     (std_sort (fun a b => (key b <? key a)%Z) l)).
Proof.
  split.
  - assert (strict_weak_on (fun a b => (key a <? key b)%Z) l) as W.
    { split; intros *; rewrite ?Z.ltb_lt, ?Z.ltb_ge; intros; lia. }
    destruct (std_sort_contract _ _ _ W) as [P S]. split; [exact P|].
    apply (sorted_by_weaken _ _ _ (fun a b => proj1 (Z.ltb_ge (key b) (key a))) S).
  - assert (strict_weak_on (fun a b => (key b <? key a)%Z) l) as W.
    { split; intros *; rewrite ?Z.ltb_lt, ?Z.ltb_ge; intros; lia. }
    destruct (std_sort_contract _ _ _ W) as [P S]. split; [exact P|].
    apply (sorted_by_weaken _ _ _ (fun a b => proj1 (Z.ltb_ge (key a) (key b))) S).
Qed.

(** ** Sorting a result *)

(** The key a [sortProperties] call compares, when it is a [double]. *)
Definition sort_key `{Libm} (sort_by : SortBy) (ref_latitude ref_longitude : float)
  : option (Property.t -> float) :=
  match sort_by with
  | PRICE_ASC | PRICE_DESC => Some Property.getPrice
  | SIZE_ASC | SIZE_DESC => Some Property.getSize
  | DISTANCE =>
      Some (fun p =>
              calculateDistance ref_latitude ref_longitude
                (Property.getLatitude p) (Property.getLongitude p))
  | BEDROOMS_ASC | BEDROOMS_DESC | RELEVANCE => None
  end.

(** X12. [sortProperties] rearranges the listings (none is lost, added or
    repeated), in the order the name of [sort_by] says, provided the
    key compared is a number for every listing. [RELEVANCE] leaves the
    listings as they are. *)
Theorem sortProperties_sorted `{StdAlgorithm} `{Libm} (properties : list Property.t)
  (sort_by : SortBy) (ref_latitude ref_longitude : float) :
  (forall key, sort_key sort_by ref_latitude ref_longitude = Some key ->
     forall p, In p properties -> is_nan (key p) = false) ->
  let sorted := sortProperties properties sort_by ref_latitude ref_longitude in
  Permutation properties sorted /\
  match sort_by with
  | PRICE_ASC => ascending Property.getPrice sorted
  | PRICE_DESC => descending Property.getPrice sorted
  | SIZE_ASC => ascending Property.getSize sorted
  | SIZE_DESC => descending Property.getSize sorted
  | BEDROOMS_ASC =>
      StronglySorted
        (fun a b => (Property.getBedrooms a <= Property.getBedrooms b)%Z) sorted
  | BEDROOMS_DESC =>
      StronglySorted
        (fun a b => (Property.getBedrooms b <= Property.getBedrooms a)%Z) sorted
  | DISTANCE =>
      ascending
        (fun p =>
           calculateDistance ref_latitude ref_longitude
             (Property.getLatitude p) (Property.getLongitude p)) sorted
  | RELEVANCE => sorted = properties
  end.
Proof.
  intros N. cbv zeta. destruct sort_by; cbn [sortProperties].
  - apply std_sort_ascending. exact (N _ eq_refl).
  - apply std_sort_descending. exact (N _ eq_refl).
  - apply std_sort_ascending. exact (N _ eq_refl).
  - apply std_sort_descending. exact (N _ eq_refl).
  - apply (std_sort_Z Property.getBedrooms).
  - apply (std_sort_Z Property.getBedrooms).
  - split; reflexivity.
  - apply (std_sort_ascending
             (fun p => calculateDistance ref_latitude ref_longitude
                         (Property.getLatitude p) (Property.getLongitude p))).
    exact (N _ eq_refl).
Qed.

Lemma sortProperties_sorted_witness :
  map Property.getId
    (@sortProperties libstdcxx_algorithm Samples.small_angle
       Samples.four_prices PRICE_DESC 0 0) = [13; 11; 14; 12]%Z /\
  descending Property.getPrice
    (@sortProperties libstdcxx_algorithm Samples.small_angle
       Samples.four_prices PRICE_DESC 0 0).
Proof.
  split; [vm_compute; reflexivity|].
  apply (proj2 (@sortProperties_sorted libstdcxx_algorithm Samples.small_angle
                  Samples.four_prices PRICE_DESC 0 0
                  ltac:(intros key [= <-] p Hp; simpl in Hp;
                        repeat (destruct Hp as [<-|Hp]; [vm_compute; reflexivity|]);
                        destruct Hp))).
Defined.

(** ** Listings near a budget *)

(** X11. [recommendByBudget] returns exactly the listings priced within the
    tolerance of the budget, each as often as the input has it, nearest
    to the budget first; the distances of these listings from the
    budget being numbers. *)
Theorem recommendByBudget_ranked `{StdAlgorithm} (properties : list Property.t)
  (budget tolerance : float) :
  let min_price := (budget * (1 - tolerance))%float in
  let max_price := (budget * (1 + tolerance))%float in
  let within p :=
    PrimFloat.leb min_price (Property.getPrice p)
    && PrimFloat.leb (Property.getPrice p) max_price in
  let distance p := abs (Property.getPrice p - budget) in
  (forall p, In p properties -> within p = true -> is_nan (distance p) = false) ->
  let results := recommendByBudget properties budget tolerance in
  Permutation (List.filter within properties) results /\
  (forall p, In p results <-> In p properties /\ within p = true) /\
  ascending distance results.
Proof.
  intros min_price max_price within distance N results.
  assert (forall p, In p (List.filter within properties) -> is_nan (distance p) = false)
    as N'.
  { intros p Hp. apply filter_In in Hp as [Hp Hw]. now apply N. }
  destruct (std_sort_ascending distance (List.filter within properties) N') as [P S].
  split; [exact P|]. split; [|exact S].
  intros p. rewrite <- filter_In. split; intros Hp.
  - exact (Permutation_in _ (Permutation_sym P) Hp).
  - exact (Permutation_in _ P Hp).
Qed.

Lemma recommendByBudget_ranked_witness :
  map Property.getId
    (@recommendByBudget libstdcxx_algorithm Samples.four_prices 260 0.5)
    = [11; 14]%Z /\
  ascending (fun p => abs (Property.getPrice p - 260))
    (@recommendByBudget libstdcxx_algorithm Samples.four_prices 260 0.5).
Proof.
  split; [vm_compute; reflexivity|].
  apply (@recommendByBudget_ranked libstdcxx_algorithm Samples.four_prices 260 0.5).
  intros p Hp _. simpl in Hp.
  repeat (destruct Hp as [<-|Hp]; [vm_compute; reflexivity|]). destruct Hp.
Defined.

(** ** Listings near a place *)

Lemma filter_filter_sub {A : Type} (f g : A -> bool) (l : list A) :
  (forall x, f x = true -> g x = true) ->
  List.filter f l = List.filter f (List.filter g l).
Proof.
  intros Hfg. induction l as [|x l IH]; [reflexivity|]. simpl.
  destruct (f x) eqn:E.
  - rewrite (Hfg x E). simpl. rewrite E. now f_equal.
  - destruct (g x); [simpl; rewrite E|]; exact IH.
Qed.

(** X13. A search within a radius gives the listings of the search within
    any greater radius that are within the smaller one, in the same
    order: widening the radius never loses a listing. With a radius
    that is not a number the result is empty. *)
Theorem searchNearby_narrows `{Libm} (properties : list Property.t)
  (latitude longitude radius wider : float) :
  PrimFloat.leb radius wider = true ->
  searchNearby properties latitude longitude radius
    = searchNearby (searchNearby properties latitude longitude wider)
        latitude longitude radius /\
  (forall p, In p (searchNearby properties latitude longitude radius) ->
     In p (searchNearby properties latitude longitude wider)) /\
  searchNearby properties latitude longitude nan = [].
Proof.
  intros Hr. unfold searchNearby. split; [|split].
  - apply filter_filter_sub. intros p Hd. cbv zeta in *.
    exact (DoubleFacts.leb_trans _ _ _ Hd Hr).
  - intros p Hp. apply filter_In in Hp as [Hp Hd]. apply filter_In. split; [exact Hp|].
    cbv zeta in *. exact (DoubleFacts.leb_trans _ _ _ Hd Hr).
  - induction properties as [|p properties IH]; [reflexivity|].
    cbn [List.filter]. cbv zeta.
    destruct (PrimFloat.leb _ nan) eqn:E; [|exact IH].
    apply DoubleFacts.leb_not_nan in E as [_ E]. vm_compute in E. discriminate.
Qed.

Lemma searchNearby_narrows_witness :
  @searchNearby Samples.small_angle Samples.four_prices 18.5 73.8 10
  = @searchNearby Samples.small_angle
      (@searchNearby Samples.small_angle Samples.four_prices 18.5 73.8 500)
      18.5 73.8 10.
Proof.
  apply (proj1 (@searchNearby_narrows Samples.small_angle Samples.four_prices
                  18.5 73.8 10 500 eq_refl)).
Defined.

(** ** Amenity counts *)

(** How often [a] occurs in [l]. *)
Definition occurrences (a : string) (l : list string) : nat :=
  length (List.filter (String.eqb a) l).

Lemma increment_lookup (counts : gmap string Z) (key a : string) :
  increment counts key !! a
  = if String.eqb a key then Some (default 0%Z (counts !! a) + 1)%Z else counts !! a.
Proof.
  unfold increment. destruct (String.eqb_spec a key) as [->|N].
  - apply lookup_insert_eq.
  - apply lookup_insert_ne. congruence.
Qed.

Lemma fold_increment_lookup (l : list string) (counts : gmap string Z) (a : string) :
  fold_left increment l counts !! a
  = if (occurrences a l =? 0)%nat then counts !! a
    else Some (default 0%Z (counts !! a) + Z.of_nat (occurrences a l))%Z.
Proof.
  revert counts. induction l as [|key l IH]; intros counts; [reflexivity|].
  cbn [fold_left]. rewrite IH, increment_lookup. unfold occurrences.
  cbn [List.filter]. destruct (String.eqb a key); cbn [length default].
  - destruct (length (List.filter (String.eqb a) l)) as [|n]; cbn [Nat.eqb default];
      unfold id; f_equal; lia.
  - reflexivity.
Qed.

Lemma getPopularAmenities_concat (properties : list Property.t) (counts : gmap string Z) :
  fold_left
    (fun amenity_counts property =>
       fold_left increment (Property.getAmenities property) amenity_counts)
    properties counts
  = fold_left increment (concat (map Property.getAmenities properties)) counts.
Proof.
  revert counts. induction properties as [|p properties IH]; intros counts; [reflexivity|].
  cbn [fold_left map concat]. now rewrite IH, fold_left_app.
Qed.

(** X14. [getPopularAmenities] maps every amenity that some listing has to
    the number of times it occurs over all listings (a listing that
    names an amenity twice counts twice), and has no entry for any
    other name. *)
Theorem getPopularAmenities_counts (properties : list Property.t) (amenity : string) :
  let n := occurrences amenity (concat (map Property.getAmenities properties)) in
  getPopularAmenities properties !! amenity
  = if (n =? 0)%nat then None else Some (Z.of_nat n).
Proof.
  cbv zeta. unfold getPopularAmenities.
  rewrite getPopularAmenities_concat, fold_increment_lookup, lookup_empty.
  destruct (_ =? 0)%nat; [reflexivity|]. cbn [default]. f_equal.
Qed.

(** ** Keywords *)

Lemma isspace_tolower (c : ascii) : isspace (tolower c) = isspace c.
Proof. destruct c as [[] [] [] [] [] [] [] []]; reflexivity. Qed.

Lemma string_snoc_cons (x c : ascii) (t : string) :
  (String x t ++ String c EmptyString)%string = String x (t ++ String c EmptyString).
Proof. reflexivity. Qed.

Lemma to_lower_snoc (t : string) (c : ascii) :
  to_lower (t ++ String c EmptyString) = (to_lower t ++ String (tolower c) EmptyString)%string.
Proof.
  induction t as [|x t IH]; [reflexivity|].
  rewrite string_snoc_cons. cbn [to_lower]. rewrite IH. reflexivity.
Qed.

Lemma to_lower_empty (t : string) :
  String.eqb (to_lower t) EmptyString = String.eqb t EmptyString.
Proof. destruct t; reflexivity. Qed.

(** Lowering the case commutes with the extraction of the tokens. *)
Lemma extract_tokens_lower (s token : string) :
  map to_lower (extract_tokens s token) = extract_tokens (to_lower s) (to_lower token).
Proof.
  revert token. induction s as [|c s IH]; intros token; cbn [extract_tokens to_lower].
  - rewrite to_lower_empty. now destruct (String.eqb token EmptyString).
  - rewrite isspace_tolower, to_lower_empty. destruct (isspace c).
    + destruct (String.eqb token EmptyString); cbn [map]; now rewrite IH.
    + now rewrite IH, to_lower_snoc.
Qed.

Lemma existsb_map {A B : Type} (f : A -> B) (g : B -> bool) (l : list A) :
  existsb (fun x => g (f x)) l = existsb g (map f l).
Proof. induction l as [|x l IH]; simpl; congruence. Qed.

(** X15. Keywords that differ in the case of their letters only give the
    same result. *)
Theorem searchByKeywords_ignores_case (properties : list Property.t)
  (keywords keywords' : string) :
  to_lower keywords = to_lower keywords' ->
  searchByKeywords properties keywords = searchByKeywords properties keywords'.
Proof.
  intros E. unfold searchByKeywords.
  assert (forall p, matchesKeywords p keywords = matchesKeywords p keywords') as M.
  { intros p. unfold matchesKeywords, tokenizeKeywords. cbv zeta.
    rewrite (existsb_map to_lower
               (fun lower_token =>
                  occurs_in lower_token (Property.getCity p)
                  || occurs_in lower_token (Property.getType p)
                  || existsb (occurs_in lower_token) (Property.getAmenities p))
               (extract_tokens keywords EmptyString)).
    rewrite (existsb_map to_lower
               (fun lower_token =>
                  occurs_in lower_token (Property.getCity p)
                  || occurs_in lower_token (Property.getType p)
                  || existsb (occurs_in lower_token) (Property.getAmenities p))
               (extract_tokens keywords' EmptyString)).
    rewrite !extract_tokens_lower. now rewrite E. }
  induction properties as [|p properties IH]; [reflexivity|].
  cbn [List.filter]. rewrite M, IH. reflexivity.
Qed.

Lemma searchByKeywords_ignores_case_witness :
  searchByKeywords Samples.four_prices "GOA Villa"
    = searchByKeywords Samples.four_prices "goa villa".
Proof.
  apply (searchByKeywords_ignores_case Samples.four_prices "GOA Villa" "goa villa").
  reflexivity.
Defined.

(** Whether every character of [s] is white space. *)
Fixpoint blank (s : string) : bool :=
  match s with
  | EmptyString => true
  | String c rest => isspace c && blank rest
  end.

Lemma prefix_refl (s : string) : String.prefix s s = true.
Proof.
  induction s as [|c s IH]; [reflexivity|]. cbn [String.prefix].
  destruct (ascii_dec c c); [exact IH|congruence].
Qed.

Lemma find_self (s : string) : find s s = Some 0%nat.
Proof. unfold find. destruct s; cbn [find_from]; now rewrite prefix_refl. Qed.

Lemma extract_tokens_word (s token : string) :
  (forall c, In c (list_ascii_of_string s) -> isspace c = false) ->
  (token ++ s)%string <> EmptyString ->
  extract_tokens s token = [(token ++ s)%string].
Proof.
  revert token. induction s as [|c s IH]; intros token Hs Hne; cbn [extract_tokens].
  - assert ((token ++ "")%string = token) as Et
      by (clear; induction token as [|x t IHt]; [reflexivity|];
          change (String x t ++ "")%string with (String x (t ++ "")); now rewrite IHt).
    rewrite Et in *. destruct (String.eqb_spec token EmptyString); [congruence|reflexivity].
  - rewrite (Hs c) by (simpl; auto).
    assert ((token ++ String c s)%string = ((token ++ String c EmptyString) ++ s)%string)
      as Ea.
    { clear. induction token as [|x t IHt]; [reflexivity|].
      change (String x t ++ String c s)%string with (String x (t ++ String c s)).
      rewrite IHt. reflexivity. }
    rewrite Ea in *. apply IH; [|exact Hne].
    intros d Hd. apply Hs. simpl. auto.
Qed.

(** X16. Keywords without a word (empty, or white space only) find nothing.
    A listing is found by the name of its city, and by the name of its
    type, written in any letter case, when the name is one word. *)
Theorem searchByKeywords_words (properties : list Property.t) (keywords : string)
  (p : Property.t) :
  (blank keywords = true -> searchByKeywords properties keywords = []) /\
  (In p properties ->
   to_lower keywords = to_lower (Property.getCity p)
   \/ to_lower keywords = to_lower (Property.getType p) ->
   keywords <> EmptyString ->
   (forall c, In c (list_ascii_of_string keywords) -> isspace c = false) ->
   In p (searchByKeywords properties keywords)).
Proof.
  split.
  - intros Hb. unfold searchByKeywords.
    assert (tokenizeKeywords keywords = []) as Et.
    { unfold tokenizeKeywords. induction keywords as [|c s IH]; [reflexivity|].
      cbn [blank] in Hb. apply andb_prop in Hb as [Hc Hs].
      cbn [extract_tokens]. rewrite Hc. cbn [String.eqb]. now apply IH. }
    induction properties as [|q properties IH]; [reflexivity|].
    cbn [List.filter]. unfold matchesKeywords at 1. rewrite Et. cbn [existsb]. exact IH.
  - intros Hp Hk Hne Hw. unfold searchByKeywords. apply filter_In. split; [exact Hp|].
    unfold matchesKeywords, tokenizeKeywords.
    rewrite (extract_tokens_word keywords EmptyString Hw Hne).
    cbn [existsb]. cbv zeta.
    change (EmptyString ++ keywords)%string with keywords.
    rewrite orb_false_r. unfold occurs_in.
    destruct Hk as [-> | ->]; rewrite find_self.
    + reflexivity.
    + apply orb_true_iff. left. apply orb_true_r.
Qed.

Lemma searchByKeywords_words_witness :
  In Samples.goa_flat
    (searchByKeywords [Samples.pune_flat; Samples.goa_flat] "GOA") /\
  searchByKeywords [Samples.pune_flat; Samples.goa_flat] "  " = [].
Proof.
  destruct (searchByKeywords_words [Samples.pune_flat; Samples.goa_flat] "GOA"
              Samples.goa_flat) as [_ Found].
  destruct (searchByKeywords_words [Samples.pune_flat; Samples.goa_flat] "  "
              Samples.goa_flat) as [Blank _].
  split.
  - apply Found; [simpl; auto|left; reflexivity|discriminate|].
    intros c Hc. simpl in Hc.
    repeat (destruct Hc as [<-|Hc]; [reflexivity|]). destruct Hc.
  - apply Blank. reflexivity.
Defined.

(** ** Similarity is symmetric *)

Lemma zero_div_zero (x : float) : PrimFloat.eqb x 0 = true -> (x / x)%float = nan.
Proof.
  rewrite FloatAxioms.eqb_spec. intros E. apply Prim2SF_inj. rewrite div_spec.
  change (Prim2SF 0) with (S754_zero false) in E.
  destruct (Prim2SF x) as [s|s| |s m e]; cbn in E.
  - destruct s; reflexivity.
  - destruct s; discriminate.
  - discriminate.
  - destruct s; discriminate.
Qed.

Lemma ratio_symmetric (a b : float) :
  is_nan a = false -> is_nan b = false ->
  (std_min a b / std_max a b)%float = (std_min b a / std_max b a)%float.
Proof.
  intros Na Nb. unfold std_min, std_max.
  destruct (PrimFloat.ltb a b) eqn:Eab.
  - rewrite (DoubleFacts.ltb_asym a b Eab). reflexivity.
  - destruct (PrimFloat.ltb b a) eqn:Eba; [reflexivity|].
    destruct (PrimFloat.eqb a 0) eqn:Za.
    + destruct (PrimFloat.eqb b 0) eqn:Zb.
      * now rewrite (zero_div_zero a Za), (zero_div_zero b Zb).
      * now rewrite (DoubleFacts.ltb_antisym b a Nb Na Zb Eba Eab).
    + now rewrite (DoubleFacts.ltb_antisym a b Na Nb Za Eab Eba).
Qed.

(** X10. The similarity of two listings does not depend on which of them is
    the target, when their prices and sizes are numbers. (With a price
    that is not a number it does: [std::min] and [std::max] return
    their first argument when the comparison fails.) *)
Theorem calculateSimilarity_symmetric (p1 p2 : Property.t) :
  is_nan (Property.getPrice p1) = false -> is_nan (Property.getPrice p2) = false ->
  is_nan (Property.getSize p1) = false -> is_nan (Property.getSize p2) = false ->
  calculateSimilarity p1 p2 = calculateSimilarity p2 p1.
Proof.
  intros P1 P2 S1 S2. unfold calculateSimilarity. cbv zeta.
  rewrite (String.eqb_sym (Property.getCity p1)).
  rewrite (String.eqb_sym (Property.getType p1)).
  replace (Z.abs (Property.getBedrooms p1 - Property.getBedrooms p2))
    with (Z.abs (Property.getBedrooms p2 - Property.getBedrooms p1)) by lia.
  rewrite (ratio_symmetric (Property.getPrice p1) (Property.getPrice p2) P1 P2).
  rewrite (ratio_symmetric (Property.getSize p1) (Property.getSize p2) S1 S2).
  reflexivity.
Qed.

Lemma calculateSimilarity_symmetric_witness :
  calculateSimilarity Samples.pune_flat Samples.goa_flat
    = calculateSimilarity Samples.goa_flat Samples.pune_flat /\
  calculateSimilarity (Property.mk 5 "Pune" nan 2 1 50 "flat" 18.5 73.8 [] 0)
      Samples.pune_flat
    <> calculateSimilarity Samples.pune_flat
         (Property.mk 5 "Pune" nan 2 1 50 "flat" 18.5 73.8 [] 0).
Proof.
  split.
  - apply (calculateSimilarity_symmetric Samples.pune_flat Samples.goa_flat); reflexivity.
  - intros E.
    apply (f_equal (fun x => PrimFloat.eqb x x)) in E. vm_compute in E. discriminate.
Defined.

(** * The property manager *)

Section PropertyManagerFacts.
Import PropertyManager.

(** The map [updateIndexMap] builds for the listings [ps]. *)
Definition index_of (ps : list Property.t) : gmap Z nat :=
  id_to_index_ (updateIndexMap (mk ps ∅)).

Lemma updateIndexMap_index (self : t) :
  updateIndexMap self = mk (properties_ self) (index_of (properties_ self)).
Proof. reflexivity. Qed.

Lemma combine_snoc {A B : Type} (l : list A) (r : list B) (x : A) (y : B) :
  length l = length r -> combine (l ++ [x]) (r ++ [y]) = combine l r ++ [(x, y)].
Proof.
  revert r. induction l as [|a l IH]; intros [|b r] E; try discriminate; [reflexivity|].
  cbn [app combine]. f_equal. apply IH. now injection E.
Qed.

Lemma combine_seq_snoc (ps : list Property.t) (p : Property.t) :
  combine (seq 0 (length (ps ++ [p]))) (ps ++ [p])
  = combine (seq 0 (length ps)) ps ++ [(length ps, p)].
Proof.
  rewrite length_app. cbn [length]. rewrite seq_app. cbn [seq plus].
  apply combine_snoc. apply length_seq.
Qed.

Lemma index_of_snoc (ps : list Property.t) (p : Property.t) :
  index_of (ps ++ [p]) = <[Property.getId p := length ps]> (index_of ps).
Proof.
  unfold index_of, updateIndexMap. cbn [id_to_index_ properties_].
  rewrite combine_seq_snoc, fold_left_app. reflexivity.
Qed.

Lemma lookup_In {A : Type} (l : list A) (i : nat) (x : A) : l !! i = Some x -> In x l.
Proof.
  revert i. induction l as [|a l IH]; intros [|i] H; try discriminate.
  - injection H as ->. now left.
  - right. exact (IH i H).
Qed.

(** An entry of the map points at the last listing with the identifier. *)
Lemma index_of_sound (ps : list Property.t) (id : Z) (i : nat) :
  index_of ps !! id = Some i ->
  exists p, ps !! i = Some p /\ Property.getId p = id /\
    forall j q, (i < j)%nat -> ps !! j = Some q -> Property.getId q <> id.
Proof.
  revert i. induction ps as [|p ps IH] using rev_ind; intros i.
  - unfold index_of. cbn. rewrite lookup_empty. discriminate.
  - rewrite index_of_snoc. destruct (decide (Property.getId p = id)) as [E|N].
    + rewrite <- E, lookup_insert_eq. intros [= <-]. exists p.
      split; [now rewrite lookup_app_r, Nat.sub_diag by lia|].
      split; [reflexivity|].
      intros j q Hj Hq. apply lookup_lt_Some in Hq.
      rewrite length_app in Hq. cbn [length] in Hq. lia.
    + rewrite lookup_insert_ne by assumption. intros Hi.
      destruct (IH i Hi) as (q & Hq & Hid & Hlast).
      exists q. split; [now apply lookup_app_l_Some|]. split; [exact Hid|].
      intros j r Hj Hr.
      destruct (decide (j < length ps)%nat) as [L|L].
      * rewrite lookup_app_l in Hr by assumption. eauto.
      * rewrite lookup_app_r in Hr by lia.
        destruct (j - length ps)%nat; [|destruct n; discriminate].
        injection Hr as <-. assumption.
Qed.

Lemma index_of_complete (ps : list Property.t) (p : Property.t) :
  In p ps -> is_Some (index_of ps !! Property.getId p).
Proof.
  induction ps as [|q ps IH] using rev_ind; intros Hp; [destruct Hp|].
  rewrite index_of_snoc. apply in_app_or in Hp as [Hp|[->|[]]].
  - destruct (decide (Property.getId q = Property.getId p)) as [E|N].
    + rewrite E, lookup_insert_eq. eauto.
    + rewrite lookup_insert_ne by assumption. auto.
  - rewrite lookup_insert_eq. eauto.
Qed.

(** The states the public functions keep the manager in: the vector is
    empty, or the map is the one [updateIndexMap] builds for it. *)
Definition consistent (self : t) : Prop :=
  properties_ self = [] \/ id_to_index_ self = index_of (properties_ self).

(** The managers that the public functions build from a new one. The
    vector is sorted by price or by size only when these are numbers
    ([std::sort] needs a strict weak ordering). *)
Inductive reachable `{StdAlgorithm} : t -> Prop :=
  | reach_new : reachable new
  | reach_addProperty self property :
      reachable self -> reachable (addProperty self property)
  | reach_removeProperty self id :
      reachable self -> reachable (removeProperty self id)
  | reach_clearProperties self :
      reachable self -> reachable (clearProperties self)
  | reach_sortByPrice self ascending :
      reachable self ->
      (forall p, In p (properties_ self) -> is_nan (Property.getPrice p) = false) ->
      reachable (sortByPrice self ascending)
  | reach_sortBySize self ascending :
      reachable self ->
      (forall p, In p (properties_ self) -> is_nan (Property.getSize p) = false) ->
      reachable (sortBySize self ascending)
  | reach_sortByCity self :
      reachable self -> reachable (sortByCity self).

Lemma updateIndexMap_consistent (self : t) : consistent (updateIndexMap self).
Proof. right. reflexivity. Qed.

Lemma reachable_consistent `{StdAlgorithm} (self : t) : reachable self -> consistent self.
Proof.
  induction 1 as [|s p _ _|s id _ IH|s _ _|s a _ _ _|s a _ _ _|s _ _].
  - now left.
  - apply updateIndexMap_consistent.
  - unfold removeProperty. cbv zeta.
    destruct (_ <? _)%nat; [apply updateIndexMap_consistent|exact IH].
  - now left.
  - apply updateIndexMap_consistent.
  - apply updateIndexMap_consistent.
  - apply updateIndexMap_consistent.
Qed.

Lemma findProperty_consistent (self : t) (id : Z) :
  consistent self ->
  (forall p, findProperty self id = Some p ->
     Property.getId p = id /\
     exists i, properties_ self !! i = Some p /\
       forall j q, (i < j)%nat -> properties_ self !! j = Some q ->
         Property.getId q <> id) /\
  (is_Some (findProperty self id) <->
   exists p, In p (properties_ self) /\ Property.getId p = id).
Proof.
  intros [E|E]; unfold findProperty.
  - rewrite E. split.
    + intros p. destruct (id_to_index_ self !! id); cbn; discriminate.
    + split.
      * intros [p Hp]. destruct (id_to_index_ self !! id); cbn in Hp; discriminate.
      * intros (p & [] & _).
  - rewrite E. split.
    + intros p Hp. destruct (index_of (properties_ self) !! id) as [i|] eqn:Ei;
        [|discriminate].
      destruct (index_of_sound _ _ _ Ei) as (q & Hq & Hid & Hlast).
      destruct (i <? length (properties_ self))%nat; [|discriminate].
      rewrite Hq in Hp. injection Hp as <-. split; [exact Hid|]. eauto.
    + split.
      * intros [p Hp].
        destruct (index_of (properties_ self) !! id) as [i|] eqn:Ei; [|discriminate].
        destruct (index_of_sound _ _ _ Ei) as (q & Hq & Hid & _).
        exists q. split; [|exact Hid].
        exact (lookup_In _ _ _ Hq).
      * intros (p & Hp & Hid).
        destruct (index_of_complete _ _ Hp) as [i Hi]. rewrite Hid in Hi. rewrite Hi.
        destruct (index_of_sound _ _ _ Hi) as (q & Hq & _).
        rewrite (proj2 (Nat.ltb_lt _ _) (lookup_lt_Some _ _ _ Hq)). eauto.
Qed.

(** X17. Whatever listings have been added, removed, cleared and sorted
    (by price, size or city),
    [findProperty] finds a listing exactly when the manager holds one
    with the identifier; the listing found has the identifier, and when
    several listings share it, it is the last of them in the vector. *)
Theorem findProperty_finds `{StdAlgorithm} (self : t) (id : Z) :
  reachable self ->
  (is_Some (findProperty self id) <->
   exists p, In p (getAllProperties self) /\ Property.getId p = id) /\
  (forall p, findProperty self id = Some p ->
     Property.getId p = id /\
     exists i, getAllProperties self !! i = Some p /\
       forall j q, (i < j)%nat -> getAllProperties self !! j = Some q ->
         Property.getId q <> id).
Proof.
  intros R. destruct (findProperty_consistent self id (reachable_consistent self R)).
  split; assumption.
Qed.

Lemma findProperty_finds_witness :
  findProperty
    (addProperty (addProperty (addProperty new Samples.pune_flat) Samples.delhi_villa)
       Samples.goa_flat) 2 = Some Samples.delhi_villa /\
  Property.getId Samples.delhi_villa = 2%Z.
Proof.
  split; [vm_compute; reflexivity|].
  apply (proj2 (@findProperty_finds stable_algorithm
                  (addProperty (addProperty (addProperty new Samples.pune_flat)
                                  Samples.delhi_villa) Samples.goa_flat) 2
                  ltac:(repeat constructor)) Samples.delhi_villa).
  vm_compute. reflexivity.
Defined.

(** X18. [removeProperty] removes every listing with the identifier and
    keeps the others in their order; afterwards [findProperty] does not
    find the identifier, and finds every other identifier exactly when
    it did before. *)
Theorem removeProperty_removes `{StdAlgorithm} (self : t) (id : Z) :
  reachable self ->
  let after := removeProperty self id in
  getAllProperties after
    = List.filter (fun p => negb (Property.getId p =? id)%Z) (getAllProperties self) /\
  findProperty after id = None /\
  (forall other, other <> id ->
     (is_Some (findProperty after other) <-> is_Some (findProperty self other))).
Proof.
  intros R after.
  assert (reachable after) as R' by now constructor.
  assert (properties_ after
          = List.filter (fun p => negb (Property.getId p =? id)%Z) (properties_ self)) as E.
  { unfold after, removeProperty. cbv zeta.
    destruct (_ <? _)%nat eqn:L; [reflexivity|].
    apply Nat.ltb_ge in L. cbn [properties_].
    clear - L. symmetry. induction (properties_ self) as [|p ps IH]; [reflexivity|].
    cbn [List.filter length] in *.
    pose proof (filter_length_le (fun p => negb (Property.getId p =? id)%Z) ps) as B.
    destruct (negb (Property.getId p =? id)%Z); cbn [length] in *.
    - f_equal. apply IH. lia.
    - lia. }
  split; [exact E|]. split.
  - destruct (findProperty after id) as [p|] eqn:F; [|reflexivity]. exfalso.
    destruct (proj1 (proj2 (findProperty_consistent after id
                              (reachable_consistent after R'))) (ex_intro _ p F))
      as (q & Hq & Hid).
    rewrite E in Hq. apply filter_In in Hq as [_ Hq].
    rewrite Hid, Z.eqb_refl in Hq. discriminate.
  - intros other Ho.
    rewrite (proj2 (findProperty_consistent after other (reachable_consistent after R'))).
    rewrite (proj2 (findProperty_consistent self other (reachable_consistent self R))).
    rewrite E. split; intros (p & Hp & Hid); exists p.
    + apply filter_In in Hp as [Hp _]. tauto.
    + split; [|exact Hid]. apply filter_In. split; [exact Hp|].
      apply negb_true_iff, Z.eqb_neq. congruence.
Qed.

Lemma removeProperty_removes_witness :
  findProperty (removeProperty (addProperty (addProperty new Samples.pune_flat)
                                  Samples.delhi_villa) 1) 1 = None.
Proof.
  apply (@removeProperty_removes stable_algorithm
           (addProperty (addProperty new Samples.pune_flat) Samples.delhi_villa) 1).
  repeat constructor.
Defined.

(** X19. [getCityCounts] and [getTypeCounts] map every city (type) of a
    listing to the number of listings with it, and hold no other key. *)
Theorem getCityCounts_counts (self : t) (name : string) :
  getCityCounts self !! name
    = (let n := length (List.filter (fun p => String.eqb name (Property.getCity p))
                          (getAllProperties self)) in
       if (n =? 0)%nat then None else Some (Z.of_nat n)) /\
  getTypeCounts self !! name
    = (let n := length (List.filter (fun p => String.eqb name (Property.getType p))
                          (getAllProperties self)) in
       if (n =? 0)%nat then None else Some (Z.of_nat n)).
Proof.
  assert (forall (key : Property.t -> string) ps counts,
            fold_left (fun c p => increment c (key p)) ps counts
            = fold_left increment (map key ps) counts) as F.
  { intros key ps. induction ps as [|p ps IH]; intros counts; [reflexivity|].
    cbn [fold_left map]. apply IH. }
  assert (forall (key : Property.t -> string) ps,
            length (List.filter (fun p => String.eqb name (key p)) ps)
            = length (List.filter (String.eqb name) (map key ps))) as L.
  { intros key ps. induction ps as [|p ps IH]; [reflexivity|].
    cbn [List.filter map]. destruct (String.eqb name (key p)); cbn [length]; lia. }
  unfold getCityCounts, getTypeCounts, getAllProperties. cbv zeta.
  rewrite !F, !L. split.
  - pose proof (fold_increment_lookup (map Property.getCity (properties_ self)) ∅ name) as G.
    unfold occurrences in G. rewrite G, lookup_empty.
    destruct (_ =? 0)%nat; [reflexivity|]. cbn [default]. f_equal.
  - pose proof (fold_increment_lookup (map Property.getType (properties_ self)) ∅ name) as G.
    unfold occurrences in G. rewrite G, lookup_empty.
    destruct (_ =? 0)%nat; [reflexivity|]. cbn [default]. f_equal.
Qed.

End PropertyManagerFacts.

(** * The CSV parser reads back what it writes *)

Section CSVParserFacts.
Import CSVParser.

Lemma string_app_empty (a : string) : (a ++ EmptyString)%string = a.
Proof.
  induction a as [|x a IH]; [reflexivity|]. now rewrite string_app_cons, IH.
Qed.

Lemma string_snoc_app (a b : string) (ch : ascii) :
  ((a ++ String ch EmptyString) ++ b)%string = (a ++ String ch b)%string.
Proof. now rewrite string_app_assoc. Qed.

(** An opening quote. *)
Lemma parse_from_open (s : string) (fields : list string) (current : string) :
  parse_from (String quote_char_ s) fields current false
  = parse_from s fields current true.
Proof. destruct s; reflexivity. Qed.

(** A field written as it is. *)
Lemma parse_from_plain (field rest : string) (fields : list string) (current : string) :
  has_char delimiter_ field = false -> has_char quote_char_ field = false ->
  parse_from (field ++ rest) fields current false
  = parse_from rest fields (current ++ field) false.
Proof.
  revert current. induction field as [|ch field IH]; intros current Hd Hq.
  - now rewrite string_app_empty.
  - cbn [has_char] in Hd, Hq.
    apply orb_false_iff in Hd as [Hd Hd'], Hq as [Hq Hq'].
    rewrite string_app_cons. cbn [parse_from]. rewrite Hq, Hd. cbn [andb].
    rewrite (IH _ Hd' Hq'). now rewrite string_snoc_app.
Qed.

(** What may follow a field in a line: nothing, or a delimiter. *)
Definition field_end (rest : string) : Prop :=
  rest = EmptyString \/ exists rest', rest = String delimiter_ rest'.

(** The body of a quoted field, up to the closing quote. *)
Lemma parse_from_quoted (field rest : string) (fields : list string) (current : string) :
  field_end rest ->
  parse_from (escape_quotes field ++ String quote_char_ rest) fields current true
  = parse_from rest fields (current ++ field) false.
Proof.
  intros Hr. revert current. induction field as [|ch field IH]; intros current.
  - rewrite string_app_empty. cbn [escape_quotes].
    change (EmptyString ++ String quote_char_ rest)%string with (String quote_char_ rest).
    destruct Hr as [->|[rest' ->]]; reflexivity.
  - cbn [escape_quotes]. destruct (Ascii.eqb ch quote_char_) eqn:E.
    + apply Ascii.eqb_eq in E. subst ch.
      rewrite !string_app_cons. cbn [parse_from].
      rewrite Ascii.eqb_refl. cbn [andb].
      rewrite IH. now rewrite string_snoc_app.
    + rewrite string_app_cons. cbn [parse_from]. rewrite E.
      rewrite andb_false_r. rewrite IH. now rewrite string_snoc_app.
Qed.

(** A field as [escapeField] writes it. *)
Lemma parse_from_escaped (field rest : string) (fields : list string) :
  field_end rest ->
  parse_from (escapeField field ++ rest) fields EmptyString false
  = parse_from rest fields field false.
Proof.
  intros Hr. unfold escapeField. destruct (needsQuoting field) eqn:E.
  - rewrite string_app_cons, parse_from_open, string_app_assoc, string_app_cons.
    change (EmptyString ++ rest)%string with rest.
    now rewrite parse_from_quoted.
  - unfold needsQuoting in E.
    apply orb_false_iff in E as [E _]. apply orb_false_iff in E as [E _].
    apply orb_false_iff in E as [Hd Hq].
    now rewrite parse_from_plain.
Qed.

Lemma parse_from_row (row : list string) (fields : list string) :
  row <> [] ->
  parse_from (write_row row) fields EmptyString false = fields ++ row.
Proof.
  revert fields. induction row as [|field row IH]; intros fields Hne; [congruence|].
  destruct row as [|next row].
  - cbn [write_row]. rewrite <- (string_app_empty (escapeField field)).
    rewrite parse_from_escaped by now left. reflexivity.
  - change (write_row (field :: next :: row))
      with (escapeField field ++ String delimiter_ (write_row (next :: row)))%string.
    rewrite parse_from_escaped by (right; eauto).
    cbn [parse_from]. change (Ascii.eqb delimiter_ quote_char_) with false.
    rewrite Ascii.eqb_refl. cbn [andb negb].
    rewrite IH by discriminate. now rewrite <- app_assoc.
Qed.

(** X20. [parseLine] reads back every row that [writeCSV] writes, whatever
    the fields hold (delimiters, quotes, line breaks, nothing at all):
    quoting and the doubling of quotes lose nothing. The one row that
    is not read back is the row without fields, which is written as
    the empty line and read as one empty field. *)
Theorem parseLine_reads_written_row (row : list string) :
  (row <> [] -> parseLine (write_row row) = row) /\
  parseLine (write_row []) = [EmptyString].
Proof.
  split; [|reflexivity].
  intros Hne. unfold parseLine. now rewrite parse_from_row.
Qed.

Lemma parseLine_reads_written_row_witness :
  parseLine (write_row ["a,b"; EmptyString; String (char_of 34) "c"])
  = ["a,b"; EmptyString; String (char_of 34) "c"].
Proof.
  apply (proj1 (parseLine_reads_written_row
                  ["a,b"; EmptyString; String (char_of 34) "c"])).
  discriminate.
Defined.

(** A row that survives a file: it has a field, it is not the single
    empty field (which gives an empty line), and no field holds a line
    break. *)
Definition writable (row : list string) : Prop :=
  row <> [] /\ row <> [EmptyString] /\ Forall (fun field => no_newline field = true) row.

Lemma escape_quotes_no_newline (field : string) :
  no_newline field = true -> no_newline (escape_quotes field) = true.
Proof.
  induction field as [|ch field IH]; [reflexivity|].
  cbn [no_newline escape_quotes]. intros H. apply andb_true_iff in H as [Hc Hf].
  destruct (Ascii.eqb ch quote_char_) eqn:E.
  - apply Ascii.eqb_eq in E. subst ch. cbn [no_newline]. now rewrite Hc, (IH Hf).
  - cbn [no_newline]. now rewrite Hc, (IH Hf).
Qed.

Lemma escapeField_no_newline (field : string) :
  no_newline field = true -> no_newline (escapeField field) = true.
Proof.
  intros H. unfold escapeField. destruct (needsQuoting field); [|exact H].
  cbn [no_newline]. rewrite no_newline_app, (escape_quotes_no_newline field H).
  reflexivity.
Qed.

Lemma write_row_no_newline (row : list string) :
  Forall (fun field => no_newline field = true) row -> no_newline (write_row row) = true.
Proof.
  induction 1 as [|field row Hf Hr IH]; [reflexivity|].
  destruct row as [|next row]; [now apply escapeField_no_newline|].
  change (write_row (field :: next :: row))
    with (escapeField field ++ String delimiter_ (write_row (next :: row)))%string.
  rewrite no_newline_app, (escapeField_no_newline field Hf).
  cbn [no_newline andb]. rewrite IH. reflexivity.
Qed.

Lemma string_app_not_empty (a b : string) : b <> EmptyString -> (a ++ b)%string <> EmptyString.
Proof. destruct a; [auto|discriminate]. Qed.

Lemma write_row_not_empty (row : list string) :
  row <> [] -> row <> [EmptyString] -> write_row row <> EmptyString.
Proof.
  intros H1 H2. destruct row as [|field [|next row]]; [congruence| |].
  - cbn [write_row]. unfold escapeField.
    destruct (needsQuoting field); [discriminate|congruence].
  - change (write_row (field :: next :: row))
      with (escapeField field ++ String delimiter_ (write_row (next :: row)))%string.
    apply string_app_not_empty. discriminate.
Qed.

Lemma read_line_last (line : string) :
  no_newline line = true -> read_line line = (line, EmptyString).
Proof.
  induction line as [|c line IH]; [reflexivity|].
  cbn [no_newline read_line]. intros H. apply andb_true_iff in H as [Hc Hl].
  fold newline. apply negb_true_iff in Hc. rewrite Hc. now rewrite (IH Hl).
Qed.

Lemma parse_lines_empty (fuel : nat) : parse_lines fuel EmptyString = [].
Proof. destruct fuel; reflexivity. Qed.

Lemma parse_lines_written (data : list (list string)) (fuel : nat) :
  Forall writable data ->
  (String.length (write_rows data) < fuel)%nat ->
  parse_lines fuel (write_rows data) = data.
Proof.
  intros W. revert fuel. induction W as [|row data (H1 & H2 & H3) W IH]; intros fuel Hf.
  - destruct fuel; reflexivity.
  - destruct fuel as [|fuel]; [lia|].
    pose proof (write_row_no_newline row H3) as Nn.
    pose proof (write_row_not_empty row H1 H2) as Ne.
    assert (parseLine (write_row row) = row) as P
      by (unfold parseLine; now rewrite parse_from_row).
    destruct data as [|next data].
    + cbn [write_rows parse_lines]. unfold getline.
      destruct (write_row row) as [|c line] eqn:E; [congruence|].
      rewrite (read_line_last _ Nn).
      destruct (String.eqb_spec (String c line) EmptyString) as [D|_]; [discriminate|].
      now rewrite P, parse_lines_empty.
    + change (write_rows (row :: next :: data))
        with (write_row row ++ endl ++ write_rows (next :: data))%string in *.
      cbn [parse_lines]. rewrite (getline_app _ _ Nn).
      destruct (String.eqb_spec (write_row row) EmptyString) as [D|_]; [congruence|].
      rewrite P. f_equal. apply IH.
      rewrite !string_app_length in Hf. cbn [String.length endl] in Hf. lia.
Qed.

(** X21. [parseCSV] reads back the file [writeCSV] writes, rows and fields
    in order, when every row has a field, no row is the single empty
    field and no field holds a line break; delimiters and quotes in
    the fields do no harm. A field with a line break does: the file is
    cut into lines before the quotes are looked at, and the row comes
    back as two. *)
Theorem parseCSV_reads_written_file (data : list (list string)) :
  (Forall writable data -> parseCSV (writeCSV data) = data) /\
  parseCSV (writeCSV [[String "a" (String (char_of 10) "b")]]) = [["a"]; ["b"]].
Proof.
  split; [|vm_compute; reflexivity].
  intros W. unfold parseCSV, writeCSV. apply parse_lines_written; [exact W|lia].
Qed.

Lemma parseCSV_reads_written_file_witness :
  parseCSV (writeCSV [["id"; "city, state"]; ["7"; String (char_of 34) "Pune"]])
  = [["id"; "city, state"]; ["7"; String (char_of 34) "Pune"]].
Proof.
  apply (proj1 (parseCSV_reads_written_file
                  [["id"; "city, state"]; ["7"; String (char_of 34) "Pune"]])).
  repeat constructor; discriminate.
Defined.

End CSVParserFacts.
